(* ===== verification/_CoqProject ===== *)
-Q . S2P
Prelude.v
Erdos.v
GateSpec.v
Sync.v
Detection.v
LidarDriver.v
LidarRun.v
DetectionDecay.v
Trajectory.v
PredictionEval.v
EvalHeap.v
CameraRunner.v
RunnerSync.v
RunnerMain.v
