(* ===== verification/Prelude.v ===== *)
(** * A verification development for pylot's stream-synchronisation operators

    The repository (objorkman/pylot, the files under [src/]) holds three
    ERDOS dataflow operators and one test driver.  They share one pattern:
    asynchronous producer callbacks deliver timestamped data, watermarks
    ("no more data for time [t]") trigger processing, and accuracy metrics
    are accumulated over windows of past observations.

    Parts of the program and how they interact:
    - [src/pylot/drivers/carla_lidar_driver_operator.py]
      ([CarlaLidarDriverOperator]): a simulator callback
      ([process_point_clouds]) either sends a point cloud at once or
      pickles it into the dict [_pickled_messages] and sends only a
      watermark on the right stream; [on_watermark] later releases the
      pickled bytes on the left stream (the "release gate").  A top
      watermark switches the operator to immediate mode for good.
    - [src/pylot/perception/detection/detection_decay_operator.py]
      ([DetectionDecayOperator]): keeps a deque of past person bounding
      boxes, evicts those older than [decay_max_latency] from the front,
      scores the current frame against every retained one (average
      precision over nine IoU thresholds) and appends the frame.
    - [src/pylot/prediction/prediction_eval_operator.py]
      ([PredictionEvalOperator]): buffers pose, tracking and prediction
      messages in three FIFO deques; on each watermark pops one of each,
      and once [prediction_num_future_steps] predictions are buffered in a
      bounded deque scores the oldest against the ground truth (MSD, ADE,
      FDE per vehicle/person class) and appends the new prediction.
    - [src/detection_operator_runner.py] ([main]): a test driver whose
      five camera callbacks convert simulator images into messages (and,
      for the stereo pair, watermarks) on ingest streams, and which
      connects one operator under test to those streams according to
      [--test_operator].

    Files of the development (in [_CoqProject] order):
    - [Prelude] (this file): Python's exceptions as [PyError], the error
      monad [res] with stdpp's [x ← m; k] notation, Python's [int()],
      bounded-deque append, [l[-i]] indexing, exact division with
      [ZeroDivisionError]; generic lemmas on these and on sums of
      rationals, the [pylot] hint database and the [res_inv] tactic.
    - [Erdos]: the ERDOS runtime's [Timestamp] (coordinates and top flag)
      and [Message] (data, pickled data, watermark), the [Pickle]
      interface with its round-trip law.  Modelled from the spec: ERDOS
      is a library, not code of this repository.
    - [GateSpec]: the release-gate contract of spec §4.2 (modes,
      snapshots, [offer], [release], the contract's two errors), abstract
      in its records; [LidarDriver] proves the operator refines it.
    - [Sync]: the stream synchronizer of spec §4.3 that ERDOS provides
      (spec-modelled): per-key ready sets, a key fires once every input
      reported it, the top key never fires, a repeated report is a
      [DuplicateReadyError]; and [ready_events], the watermarks a send log
      delivers to an operator's inputs.
    - [Detection]: obstacles, person/vehicle labels and the precision /
      recall primitive [get_precision_recall_at_iou] behind an [Overlap]
      interface (spec-modelled: [pylot.perception.detection.utils] is not
      under [src/]).
    - [LidarDriver]: [CarlaLidarDriverOperator] as an explicit state
      record, its two handlers, a step function over events, runs of
      event traces and a reachability relation.
    - [LidarRun]: the rest of the driver's [run]: the simulator handles
      it acquires (world, simulation mode, vehicle; each call may raise),
      the legacy switch on new simulators, the lidar blueprint's
      attributes, the spawn and the registration of the callback.
    - [DetectionDecay]: [DetectionDecayOperator.on_data] with its eviction
      loop, the scoring loop and the append.
    - [Trajectory]: [_calculate_metrics] of the prediction evaluator:
      per-obstacle MSD/ADE/FDE, per-class sums and the CSV rows.
    - [PredictionEval]: the rest of [PredictionEvalOperator]: buffers,
      dispatch, [on_watermark] and the warm-up/scoring state machine,
      with the prediction and trajectory objects as values.
    - [EvalHeap]: the same operator with its objects in two heaps, as
      the code has them: [to_world_coordinates] mutates the objects the
      buffers and the deque refer to, and the ground-truth dictionary
      holds references.
    - [CameraRunner]: the flags [main] reads, its camera setups and the
      blueprints [setup_camera] configures, the camera callbacks, their
      [listen] registration and the operator wiring, over a log of every
      send.
    - [RunnerMain]: [main]'s [try]/[finally] as statements acting on its
      locals and on the simulator actors, each statement possibly raising
      before its effect.
    - [RunnerSync]: the composition of [CameraRunner] with [Sync]: the
      stereo callbacks' watermarks as readiness reports to the
      synchronizer in front of the depth estimator.

    Numbers.  Python floats are modelled as exact rationals [Q] (no
    rounding); simulator times are rationals converted to integer
    milliseconds by [py_int] exactly as [int(t * 1000)] does.  Game times
    and latencies are unbounded [Z], as Python ints are.  There is no fuel
    anywhere: every loop of the source iterates over a finite list, so
    each is a structural [Fixpoint] or a [fold].

    Concurrency.  Each handler is modelled as one atomic step, except
    where the code leaves a window: the lidar callback runs under
    [self._lock] but [on_watermark] takes no lock, so [LidarDriver]
    splits the callback at its read of [_release_data] ([callback_read],
    [callback_finish]) and runs a whole [on_watermark] in between
    ([interleaved]); the theorem [callback_watermark_race] shows that this
    interleaving equals one of the two serial orders, because the
    callback reads the flag exactly once.  The callback's other windows
    (between its two sends, and between its dict write and its send) and
    the steps inside [on_watermark] are not interleaved: each is taken as
    atomic.  Other interleavings of callbacks and watermarks are explicit
    event lists.

    What the theorems show, by file.
    - [LidarDriver]: along any run of callbacks and watermarks with
      distinct callback timestamps at most one payload per timestamp is
      sent (a budget invariant: payloads sent plus snapshots pending never
      exceed the callbacks seen); a gated point cloud is released exactly
      once, unpickles to the original, and a second release raises
      [KeyError]; the switch to immediate mode is one-way; every pending
      snapshot of a reachable state is sound and its release succeeds;
      a watermark racing a callback equals a serial
      order; from any gated state, a second callback in the same
      millisecond overwrites the first snapshot, which is never sent;
      and the refinement of the
      [GateSpec] contract: every trace the contract accepts runs in the
      operator to a related state, and a contract [MissingSnapshotError]
      is a [KeyError].
    - [LidarRun]: a lidar frequency of [0] raises [ZeroDivisionError]
      before the lidar exists; otherwise the sensor tick and the range
      attribute, the latter computed after the legacy switch (the
      blueprint lookup, the spawn and [listen] are taken not to raise).
    - [DetectionDecay]: the eviction loop pops a prefix and equals a
      filter on sorted deques; [on_data] preserves the window invariant
      and, under monotone keys, refines the abstract window: the deque is
      "all frames within the latency of the newest key" and the messages
      sent score each frame against every earlier frame within the
      bound; observations carry latencies
      in [[0, decay_max_latency]] and precisions in [[0, 1]]; a static
      scene scores precision 1; and, because eviction inspects only the
      front, from any deque whose front is within the bound every stale
      frame behind it stays buffered and is scored with a latency above
      the bound.
    - [Trajectory]: the negative-index loop equals a reference average
      over end-aligned suffixes, errors included; MSD, ADE and FDE of
      uniformly offset trajectories (identical ones at offset [0]); each prediction is
      counted in exactly one class; the combined CSV row is the
      count-weighted mean of the class rows; the [KeyError] and
      [ValueError] paths.
    - [PredictionEval]: the whole run of the alignment state machine as
      one equation: for [W > 0], [n] watermarks over buffered streams pop
      [n] messages of each buffer, the [k]-th scoring pass happens at
      watermark [W + k] on the batch received at watermark [k], converted
      with its own pose, the CSV log is exactly the rows of these passes
      and an exception of one of them is the run's; [n]
      watermarks give [max(0, n - W)] passes; the deque never exceeds
      [W]; starvation raises [IndexError]; [W = 0] always crashes; the
      ground-truth dictionary's insert/lookup round trip, and [KeyError]
      exactly for predictions of untracked ids.
    - [EvalHeap]: when no object is shared between the pending messages
      and the deque, every run over the heaps reads as the run of the
      value model, errors included; an object listed in two messages is
      converted twice and the deque's older batch changes with it.
    - [CameraRunner]: the contents of every ingest stream over any run of
      camera deliveries; the segmentation stream is never written; only
      the stereo streams carry watermarks, so every operator under test
      but the depth estimator is starved of watermarks; at most one
      operator is connected, none for an unknown name; every message is a
      frame of the kind its stream's consumer reads (when the setups have
      their camera types), or a watermark; the default [--test_operator]
      tests an operator that never receives a watermark; the five
      cameras share image size, field of view and a 20 Hz tick.
    - [RunnerMain]: the exception [main] ends with for every failure
      point, [UnboundLocalError] masking failures before the center
      cameras exist; which actors every run destroys and leaks.
    - [Sync]: every run on reports from the inputs succeeds exactly when
      no report repeats, and then fires exactly the keys every input
      reported, each once ([sync_run_spec]); with each input reporting
      in increasing key order, keys fire in order ([sync_run_in_order]).
    - [RunnerSync]: under the synchronizer, the depth estimator's
      [on_watermark] fires exactly for the game times both stereo cameras
      delivered, each once, unless a camera delivers two images in one
      millisecond, which the synchronizer rejects; with images delivered
      in capture order, it fires in increasing game time.

    Findings the theorems document: duplicate timestamps overwrite a
    pending snapshot (the spec asks for an error); the scoring count is
    [n - W], not the spec's [n - W + 1]; [prediction_num_future_steps = 0]
    crashes at the first watermark; ground truths longer than the
    prediction are accepted and an empty prediction aborts the whole
    metrics pass with [ZeroDivisionError]; eviction only inspects the
    front of the deque; the segmentation callback tests the wrong
    setup and never sends; three of the five camera callbacks never send
    the watermark they build; [main]'s [finally] clause reads locals the
    body may not have bound and never destroys the stereo cameras nor
    the background vehicles; a lidar frequency of [0] crashes the
    driver's set-up; two stereo images in one millisecond repeat a
    watermark, which the spec's synchronizer rejects; the lidar's
    [on_watermark] touches the gate's state without its locks (benign,
    by the race theorem); the evaluator converts objects in place, so
    the value semantics relies on messages holding distinct objects.

    Not modelled: the debug logging of the lidar driver's [run] and the
    contents of the simulator handles it acquires; the camera setups'
    transforms ([CENTER_CAMERA_LOCATION]) and the ingest-stream objects
    of [main] beyond their names; the
    simulator's own behaviour (which calls fail is an input of the
    model); the operators under test that [main] connects and model
    inference; logging sinks other than the CSV rows of
    the prediction evaluator; point-cloud decoding and [Transform.__mul__]
    (section variables); wall-clock times. *)

From Stdlib Require Export QArith Qabs Qround Lqa ZArith.
From stdpp Require Export base list gmap strings sorting.

(** Python's built-in exceptions raised by the modelled code. *)
Inductive PyError : Type :=
| KeyError
| IndexError
| ValueError
| ZeroDivisionError
| AssertionError
| UnboundLocalError
| RuntimeError.

#[export] Instance PyError_eq_dec : EqDecision PyError.
Proof. solve_decision. Defined.

(** The result of a Python call: a value or a raised exception. *)
Inductive res (A : Type) : Type :=
| Ok (a : A)
| Err (e : PyError).
Arguments Ok {A} a.
Arguments Err {A} e.

#[export] Instance res_ret : MRet res := fun A a => Ok a.
#[export] Instance res_bind : MBind res :=
  fun A B f m => match m with Ok a => f a | Err e => Err e end.
#[export] Instance res_fmap : FMap res :=
  fun A B f m => match m with Ok a => Ok (f a) | Err e => Err e end.

Declare Scope pylot_scope.
Delimit Scope pylot_scope with py.
(** [raise e] is Python's [raise]. *)
Notation "'raise' e" := (Err e) (at level 10) : pylot_scope.
Open Scope pylot_scope.

(** Python's [int(q)] on a float: truncation toward zero. *)
Definition py_int (q : Q) : Z := Z.quot (Qnum q) (Zpos (Qden q)).

(** [x / n] for a length [n]: Python raises [ZeroDivisionError] on [0]. *)
Definition py_div (x : Q) (n : nat) : res Q :=
  if decide (n = 0%nat) then raise ZeroDivisionError
  else Ok (x / inject_Z (Z.of_nat n))%Q.

(** [x / d] for a Python [int] [d]: [ZeroDivisionError] on [0]. *)
Definition py_truediv (x : Q) (d : Z) : res Q :=
  if decide (d = 0%Z) then raise ZeroDivisionError else Ok (x / inject_Z d)%Q.

(** The exceptions a computation can raise are among [P]. *)
Definition raises_only {A} (P : PyError -> Prop) (m : res A) : Prop :=
  forall e, m = Err e -> P e.

(** [deque.popleft()]: [IndexError] on an empty deque. *)
Definition popleft {A} (d : list A) : res (A * list A) :=
  match d with
  | [] => raise IndexError
  | x :: d' => Ok (x, d')
  end.

(** The last [n] elements of a list. *)
Definition lastn {A} (n : nat) (l : list A) : list A :=
  drop (length l - n) l.

(** [deque(maxlen=n).append(x)]: keep the [n] rightmost elements. *)
Definition deque_append {A} (maxlen : nat) (d : list A) (x : A) : list A :=
  lastn maxlen (d ++ [x]).

(** [l[-i]] for [i >= 1]: [IndexError] when [i > len(l)]. *)
Definition py_index_neg {A} (l : list A) (i : nat) : res A :=
  if decide (i = 0%nat) then
    match l with [] => raise IndexError | x :: _ => Ok x end
  else if decide (i <= length l) then
    match l !! (length l - i) with Some x => Ok x | None => raise IndexError end
  else raise IndexError.

(** [sum(xs)] on a list of floats. *)
Definition Qsum (l : list Q) : Q := foldr Qplus 0%Q l.

(** The Python value handed to [str()] for a blueprint attribute. *)
Inductive AttrValue : Type :=
| AttrInt (z : Z)
| AttrFloat (q : Q)
| AttrStr (s : string).

(** Results related by [R] on values and equal on exceptions. *)
Definition res_rel {A} (R : relation A) (r1 r2 : res A) : Prop :=
  match r1, r2 with
  | Ok a, Ok b => R a b
  | Err e, Err e' => e = e'
  | _, _ => False
  end.

(** Componentwise [Qeq] on metric triples. *)
Definition Qeq3 (a b : Q * Q * Q) : Prop :=
  (a.1.1 == b.1.1 /\ a.1.2 == b.1.2 /\ a.2 == b.2)%Q.

(** ** Automation shared by the components *)

Create HintDb pylot.

(** Invert equalities between results, as [inversion] would. *)
Ltac res_inv :=
  repeat match goal with
  | H : Ok _ = Ok _ |- _ => injection H as H; subst
  | H : Ok _ = Err _ |- _ => discriminate H
  | H : Err _ = Ok _ |- _ => discriminate H
  | H : Err _ = Err _ |- _ => injection H as H; subst
  end.

(** ** The error monad *)

Lemma bind_Ok {A B} (m : res A) (k : A -> res B) (b : B) :
  (x ← m; k x) = Ok b <-> exists a, m = Ok a /\ k a = Ok b.
Proof.
  destruct m as [a|e]; simpl; split.
  - intros H. by exists a.
  - intros (a' & [= ->] & H). exact H.
  - discriminate.
  - intros (? & ? & _); discriminate.
Qed.

Lemma bind_Err {A B} (m : res A) (k : A -> res B) (e : PyError) :
  m = Err e -> (x ← m; k x) = Err e.
Proof. intros ->. reflexivity. Qed.

Lemma bind_ret_Ok {A B} (a : A) (k : A -> res B) : (x ← Ok a; k x) = k a.
Proof. reflexivity. Qed.

Lemma raises_only_ret {A} P (a : A) : raises_only P (Ok a).
Proof. by intros e. Qed.

Lemma raises_only_raise {A} (P : PyError -> Prop) e : P e -> raises_only (A:=A) P (raise e).
Proof. by intros He e' [= <-]. Qed.

Lemma raises_only_bind {A B} P (m : res A) (k : A -> res B) :
  raises_only P m -> (forall a, raises_only P (k a)) -> raises_only P (x ← m; k x).
Proof. unfold raises_only. intros Hm Hk e. destruct m as [a|e']; simpl; [apply (Hk a)|intros [= <-]; by apply Hm]. Qed.

Lemma py_div_raises x n : raises_only (fun e => e = ZeroDivisionError) (py_div x n).
Proof. unfold py_div. case_decide; [by apply raises_only_raise|apply raises_only_ret]. Qed.

Lemma py_index_neg_raises {A} (l : list A) i : raises_only (fun e => e = IndexError) (py_index_neg l i).
Proof. unfold py_index_neg. intros e. repeat case_match; by intros [= <-]. Qed.

(** Decompose the first bind of a hypothesis [H : (x ← m; k) = Ok b]. *)
Ltac bind_ok H :=
  let a := fresh "a" in let Hm := fresh "Hm" in
  apply bind_Ok in H as (a & Hm & H).

(** ** Python helpers *)

Lemma py_div_Ok x n : n <> 0%nat -> py_div x n = Ok (x / inject_Z (Z.of_nat n))%Q.
Proof. intros Hn. unfold py_div. by case_decide. Qed.

Lemma py_div_zero x : py_div x 0 = raise ZeroDivisionError.
Proof. reflexivity. Qed.

Lemma lastn_length {A} n (l : list A) : length (lastn n l) = Nat.min n (length l).
Proof. unfold lastn. rewrite length_drop. lia. Qed.

Lemma lastn_all {A} n (l : list A) : (length l <= n)%nat -> lastn n l = l.
Proof. intros H. unfold lastn. replace (length l - n)%nat with 0%nat by lia. done. Qed.

Lemma lastn_app_long {A} n (a c : list A) :
  (n <= length c)%nat -> lastn n (a ++ c) = lastn n c.
Proof.
  intros Hn. unfold lastn. rewrite length_app.
  replace (length a + length c - n)%nat with (length a + (length c - n))%nat by lia.
  apply drop_app_add.
Qed.

(** Keeping the last [n] before appending does not change the last [n] after. *)
Lemma lastn_lastn_snoc {A} n (l : list A) x :
  lastn n (lastn n l ++ [x]) = lastn n (l ++ [x]).
Proof.
  destruct (decide (length l <= n)%nat) as [Hle|Hgt].
  - by rewrite (lastn_all n l Hle).
  - assert (Hl : l = take (length l - n) l ++ lastn n l)
      by (unfold lastn; symmetry; apply take_drop).
    rewrite Hl at 2. rewrite <- app_assoc, (lastn_app_long n (take (length l - n) l)); [reflexivity|].
    rewrite length_app, lastn_length. simpl. lia.
Qed.

Lemma lastn_lookup {A} n (l : list A) i :
  lastn n l !! i = l !! (length l - n + i)%nat.
Proof. unfold lastn. apply lookup_drop. Qed.

Lemma deque_append_length {A} n (d : list A) x :
  length (deque_append n d x) = Nat.min n (S (length d)).
Proof. unfold deque_append. rewrite lastn_length, length_app. simpl. lia. Qed.

Lemma deque_append_not_full {A} n (d : list A) x :
  (length d < n)%nat -> deque_append n d x = d ++ [x].
Proof. intros H. apply lastn_all. rewrite length_app. simpl. lia. Qed.

Lemma deque_append_full {A} n (d : list A) y d' x :
  d = y :: d' -> length d = n -> deque_append n d x = d' ++ [x].
Proof.
  intros -> Hn. unfold deque_append, lastn. rewrite length_app. simpl in *.
  replace (S (length d' + 1) - n)%nat with 1%nat by lia. reflexivity.
Qed.

(** [l[-i]] reads the [i]-th element from the end. *)
Lemma py_index_neg_lookup {A} (l : list A) (i : nat) :
  (1 <= i <= length l)%nat ->
  exists x, py_index_neg l i = Ok x /\ l !! (length l - i)%nat = Some x.
Proof.
  intros Hi. unfold py_index_neg. repeat case_decide; try lia.
  destruct (l !! (length l - i)%nat) eqn:Hx; [by eexists|].
  apply lookup_ge_None in Hx. lia.
Qed.

(** The last [S k] elements are [l[-(k+1)]] followed by the last [k]. *)
Lemma lastn_S {A} (l : list A) (k : nat) :
  (S k <= length l)%nat ->
  exists x, py_index_neg l (S k) = Ok x /\ lastn (S k) l = x :: lastn k l.
Proof.
  intros Hk. destruct (py_index_neg_lookup l (S k)) as (x & Hx & Hl); [lia|].
  exists x. split; [exact Hx|]. unfold lastn.
  rewrite (drop_S _ _ _ Hl). f_equal. f_equal. lia.
Qed.

Lemma lastn_0 {A} (l : list A) : lastn 0 l = [].
Proof. unfold lastn. rewrite Nat.sub_0_r. apply drop_all. Qed.

(** The head of the last [n] of the first [k] elements is element [k - n]. *)
Lemma lastn_take_head {A} n k (l : list A) x rest :
  (n <= k)%nat -> (k <= length l)%nat -> lastn n (take k l) = x :: rest -> l !! (k - n)%nat = Some x.
Proof.
  intros Hn Hk Hl. assert (Hx : lastn n (take k l) !! 0%nat = Some x) by (rewrite Hl; reflexivity).
  rewrite lastn_lookup, length_take in Hx.
  replace (Nat.min k (length l) - n + 0)%nat with (k - n)%nat in Hx by lia.
  destruct n as [|n]; [by rewrite lastn_0 in Hl|]. rewrite lookup_take in Hx. by case_decide; [|lia].
Qed.

(** [mapM] in the error monad: the calls run left to right, the first
    exception stops the rest. *)
Lemma mapM_res_snoc {A B} (f : A -> res B) l x :
  mapM f (l ++ [x]) = (ys ← mapM f l; y ← f x; Ok (ys ++ [y])).
Proof.
  induction l as [|a l IH]; simpl.
  - by destruct (f x).
  - rewrite IH. destruct (f a), (mapM f l); simpl; try done. by destruct (f x).
Qed.

(** [l[-1]] of a non-empty list is its last element. *)
Lemma py_index_neg_1_last {A} (l : list A) x : last l = Some x -> py_index_neg l 1 = Ok x.
Proof.
  intros Hx. unfold py_index_neg. rewrite last_lookup in Hx.
  pose proof (lookup_lt_Some _ _ _ Hx) as Hlt.
  repeat case_decide; try lia. replace (length l - 1)%nat with (pred (length l)) by lia.
  by rewrite Hx.
Qed.

Lemma py_index_neg_app {A} (l : list A) (x : A) (i : nat) :
  (1 <= i)%nat -> py_index_neg (l ++ [x]) (S i) = py_index_neg l i.
Proof.
  intros Hi. unfold py_index_neg. rewrite length_app. simpl.
  repeat case_decide; try lia.
  - replace (length l + 1 - S i)%nat with (length l - i)%nat by lia.
    rewrite lookup_app_l by lia. reflexivity.
  - reflexivity.
Qed.

Lemma py_index_neg_last {A} (l : list A) (x : A) : py_index_neg (l ++ [x]) 1 = Ok x.
Proof.
  unfold py_index_neg. rewrite length_app. simpl.
  repeat case_decide; try lia.
  replace (length l + 1 - 1)%nat with (length l) by lia.
  by rewrite lookup_app_r, Nat.sub_diag by lia.
Qed.

Lemma py_index_neg_out {A} (l : list A) (i : nat) :
  (length l < i)%nat -> py_index_neg l i = raise IndexError.
Proof. intros H. unfold py_index_neg. repeat case_decide; try lia. reflexivity. Qed.

(** ** Lists *)

Lemma flat_map_const_nil {A B} (f : A -> list B) (l : list A) :
  (forall a, f a = []) -> flat_map f l = [].
Proof. intros Hf. induction l as [|a l IH]; [done|]. simpl. by rewrite Hf, IH. Qed.

Lemma flat_map_singleton {A B} (f : A -> B) (l : list A) :
  flat_map (fun a => [f a]) l = f <$> l.
Proof. induction l as [|a l IH]; [done|]. simpl. by rewrite IH. Qed.

Lemma filter_none {A} (P : A -> Prop) `{forall x, Decision (P x)} (l : list A) :
  (forall x, x ∈ l -> ~ P x) -> filter P l = [].
Proof.
  induction l as [|x l IH]; intros Hl; [done|].
  rewrite filter_cons_False by (apply Hl; set_solver). apply IH. set_solver.
Qed.

Lemma filter_all {A} (P : A -> Prop) `{forall x, Decision (P x)} (l : list A) :
  (forall x, x ∈ l -> P x) -> filter P l = l.
Proof.
  induction l as [|x l IH]; intros Hl; [done|].
  rewrite filter_cons_True by (apply Hl; set_solver). f_equal. apply IH. set_solver.
Qed.

Lemma StronglySorted_filter {A} (R : relation A) (P : A -> Prop) `{forall x, Decision (P x)}
    (l : list A) :
  StronglySorted R l -> StronglySorted R (filter P l).
Proof.
  induction 1 as [|x l _ IH HF]; [constructor|]. rewrite filter_cons.
  case_decide; [|exact IH]. constructor; [exact IH|].
  apply Forall_forall. intros y Hy%list_elem_of_filter.
  rewrite Forall_forall in HF. apply HF, Hy.
Qed.

Lemma StronglySorted_impl {A} (R R' : relation A) (l : list A) :
  (forall x y, R x y -> R' x y) -> StronglySorted R l -> StronglySorted R' l.
Proof.
  intros HR. induction 1 as [|x l _ IH HF]; constructor; [exact IH|].
  eapply Forall_impl; [exact HF|]. intros y. apply HR.
Qed.

(** A list strictly increasing under a measure has no repetition. *)
Lemma StronglySorted_lt_NoDup {A} (f : A -> Z) (l : list A) :
  StronglySorted (fun a b => f a < f b)%Z l -> NoDup l.
Proof.
  induction 1 as [|x l _ IH HF]; constructor; [|exact IH].
  intros Hx. rewrite Forall_forall in HF. specialize (HF x Hx). lia.
Qed.

(** ** Sums of rationals *)

Lemma Qsum_cons x l : Qsum (x :: l) = (x + Qsum l)%Q.
Proof. reflexivity. Qed.

Lemma Qsum_app l1 l2 : (Qsum (l1 ++ l2) == Qsum l1 + Qsum l2)%Q.
Proof.
  induction l1 as [|x l1 IH]; cbn [app].
  - unfold Qsum; cbn [foldr]. lra.
  - rewrite !Qsum_cons, IH. lra.
Qed.

Lemma Qsum_bounds (lo hi : Q) (l : list Q) :
  Forall (fun x => lo <= x <= hi)%Q l ->
  (inject_Z (Z.of_nat (length l)) * lo <= Qsum l <= inject_Z (Z.of_nat (length l)) * hi)%Q.
Proof.
  induction 1 as [|x l [Hlo Hhi] _ [IHlo IHhi]]; cbn [length].
  - unfold Qsum; cbn [foldr]. rewrite !Qmult_0_l. lra.
  - rewrite Qsum_cons, Nat2Z.inj_succ, <- Z.add_1_r, inject_Z_plus.
    rewrite !Qmult_plus_distr_l, !Qmult_1_l. lra.
Qed.

Lemma Qsum_map_const {A} (c : Q) (l : list A) :
  (Qsum (map (fun _ => c) l) == inject_Z (Z.of_nat (length l)) * c)%Q.
Proof.
  induction l as [|x l IH]; cbn [length map].
  - unfold Qsum; cbn [foldr]. rewrite Qmult_0_l. lra.
  - rewrite Qsum_cons, IH, Nat2Z.inj_succ, <- Z.add_1_r, inject_Z_plus.
    rewrite Qmult_plus_distr_l, Qmult_1_l. lra.
Qed.

Lemma Qsum_ext {A} (f g : A -> Q) (l : list A) :
  (forall x, x ∈ l -> f x == g x)%Q -> (Qsum (map f l) == Qsum (map g l))%Q.
Proof.
  induction l as [|x l IH]; intros H; cbn [map]; [reflexivity|].
  rewrite !Qsum_cons, (H x), IH; [reflexivity| |]; [intros y Hy; apply H|]; set_solver.
Qed.

#[export] Instance Qsum_proper : Proper (Forall2 Qeq ==> Qeq) Qsum.
Proof.
  intros l1 l2 H. induction H as [|x y l1 l2 Hxy _ IH]; [reflexivity|].
  rewrite !Qsum_cons, Hxy, IH. reflexivity.
Qed.

Lemma Qdiv_len_mult (c : Q) (n : nat) :
  n <> 0%nat -> (inject_Z (Z.of_nat n) * c / inject_Z (Z.of_nat n) == c)%Q.
Proof.
  intros Hn. field. change 0%Q with (inject_Z 0). rewrite inject_Z_injective. lia.
Qed.

(** Dividing a sum of [n] values in [[lo, hi]] by [n] stays in [[lo, hi]]. *)
Lemma Qdiv_len_bounds (lo hi s : Q) (n : nat) :
  (0 < n)%nat ->
  (inject_Z (Z.of_nat n) * lo <= s <= inject_Z (Z.of_nat n) * hi)%Q ->
  (lo <= s / inject_Z (Z.of_nat n) <= hi)%Q.
Proof.
  intros Hn [H1 H2].
  assert (Hpos : (0 < inject_Z (Z.of_nat n))%Q).
  { change 0%Q with (inject_Z 0). rewrite <- Zlt_Qlt. lia. }
  split.
  - apply Qle_shift_div_l; [exact Hpos|]. rewrite Qmult_comm. exact H1.
  - apply Qle_shift_div_r; [exact Hpos|]. rewrite Qmult_comm. exact H2.
Qed.

#[export] Hint Resolve py_index_neg_last lastn_all deque_append_not_full : pylot.
