(* ===== verification/Erdos.v ===== *)
(** * The ERDOS dataflow runtime as the operators see it

    Timestamps, messages on write streams and the pickling interface used
    by [send_pickled].  ERDOS is a library the operators call, so these
    definitions follow the spec (§3 TimestampKey and Record, §6), not
    source lines; [sim_timestamp] is the conversion written in the
    operators themselves ([int(simulator_pc.timestamp * 1000)]). *)

From S2P Require Import Prelude.

(** [erdos.Timestamp]: logical coordinates, or the distinguished top
    timestamp that initialises the dataflow. *)
Record Timestamp : Type := mkTimestamp {
  coordinates : list Z;
  is_top : bool
}.

#[export] Instance Timestamp_eq_dec : EqDecision Timestamp.
Proof. solve_decision. Defined.

#[export] Instance Timestamp_countable : Countable Timestamp.
Proof.
  apply (inj_countable' (fun t => (coordinates t, is_top t))
                        (fun p => mkTimestamp p.1 p.2)).
  by intros [].
Defined.

(** [erdos.Timestamp(is_top=True)]. *)
Definition top_timestamp : Timestamp := mkTimestamp [] true.

(** [erdos.Timestamp(coordinates=[g])]. *)
Definition timestamp_of (g : Z) : Timestamp := mkTimestamp [g] false.

(** [game_time = int(t * 1000)]; [timestamp = erdos.Timestamp(coordinates=[game_time])]
    for a simulator time [t] in seconds. *)
Definition game_time_of (t : Q) : Z := py_int (t * 1000)%Q.
Definition sim_timestamp (t : Q) : Timestamp := timestamp_of (game_time_of t).

(** The Python [pickle] module as an interface: [loads] inverts [dumps]. *)
Class Pickle (D : Type) := {
  dumps : D -> list Byte.byte;
  loads : list Byte.byte -> option D;
  loads_dumps : forall d, loads (dumps d) = Some d
}.

(** Bytes pickle to themselves: the instance used to run the models on
    concrete point clouds. *)
#[export] Program Instance bytes_pickle : Pickle (list Byte.byte) := {
  dumps b := b;
  loads b := Some b
}.
Next Obligation. reflexivity. Qed.

(** What an operator puts on a write stream: [erdos.Message(t, d)], the
    bytes of [send_pickled(t, b)], or [erdos.WatermarkMessage(t)]. *)
Inductive Message (D : Type) : Type :=
| Msg (t : Timestamp) (d : D)
| PickledMsg (t : Timestamp) (b : list Byte.byte)
| WatermarkMessage (t : Timestamp).
Arguments Msg {D} t d.
Arguments PickledMsg {D} t b.
Arguments WatermarkMessage {D} t.

(** The payload a receiver reads from a message, unpickling if needed. *)
Definition received_data {D} `{Pickle D} (m : Message D) : option (Timestamp * D) :=
  match m with
  | Msg t d => Some (t, d)
  | PickledMsg t b => (fun d => (t, d)) <$> loads b
  | WatermarkMessage _ => None
  end.

(** [true] when [m] carries a payload (plain or pickled) for time [t]. *)
Definition is_payload_for {D} (t : Timestamp) (m : Message D) : bool :=
  match m with
  | Msg t' _ | PickledMsg t' _ => bool_decide (t' = t)
  | WatermarkMessage _ => false
  end.

(** The number of payloads for [t] sent on a stream. *)
Definition payloads_for {D} (t : Timestamp) (l : list (Message D)) : nat :=
  length (filter (fun m => is_payload_for t m = true) l).

(** The timestamps of the watermarks of a stream, in order. *)
Definition watermarks_of {D} (l : list (Message D)) : list Timestamp :=
  omap (fun m => match m with WatermarkMessage t => Some t | _ => None end) l.

(** ** Lemmas *)

Lemma payloads_for_app {D} t (l1 l2 : list (Message D)) :
  payloads_for t (l1 ++ l2) = (payloads_for t l1 + payloads_for t l2)%nat.
Proof. unfold payloads_for. by rewrite filter_app, length_app. Qed.

Lemma payloads_for_watermark {D} t t' :
  payloads_for t [@WatermarkMessage D t'] = 0%nat.
Proof. reflexivity. Qed.

Lemma payloads_for_payload {D} t t' (m : Message D) :
  is_payload_for t m = true -> t' = t ->
  payloads_for t' [m] = 1%nat.
Proof. intros Hm ->. unfold payloads_for. by rewrite filter_cons_True. Qed.

Lemma payloads_for_other {D} t (m : Message D) :
  is_payload_for t m = false -> payloads_for t [m] = 0%nat.
Proof. intros Hm. unfold payloads_for. rewrite filter_cons_False; [done|congruence]. Qed.

Lemma received_pickled {D} `{Pickle D} t (d : D) :
  received_data (PickledMsg t (dumps d)) = Some (t, d).
Proof. simpl. by rewrite loads_dumps. Qed.

(** Python's [int()] of a non-negative rational is its floor. *)
Lemma py_int_nonneg (q : Q) : (0 <= q)%Q -> py_int q = Qfloor q.
Proof.
  destruct q as [n d]. unfold py_int, Qfloor, Qle. simpl. intros Hn.
  apply Z.quot_div_nonneg; lia.
Qed.

(** Simulator times are never top timestamps. *)
Lemma sim_timestamp_not_top t : is_top (sim_timestamp t) = false.
Proof. reflexivity. Qed.

#[export] Hint Resolve payloads_for_watermark received_pickled sim_timestamp_not_top : pylot.
