(* ===== verification/GateSpec.v ===== *)
(** * The release gate's contract

    The contract of spec §4.2 that [CarlaLidarDriverOperator] implements
    (the refinement is proved in [LidarDriver]): a gate in immediate or
    gated mode; [offer] forwards a record with a completion marker at once
    in immediate mode, and in gated mode stores a snapshot and forwards
    only a marker on the secondary path, failing with [DuplicateKeyError]
    when the key already holds an unreleased snapshot; [release] of the
    top key switches the gate to immediate mode for good, and of any
    other key removes and forwards its snapshot with a marker, failing
    with [MissingSnapshotError] when there is none.  The gate is
    abstract in its records: nothing is serialised here. *)

From S2P Require Import Prelude Erdos.

Module GateSpec.

Inductive GateMode : Type := Immediate | Gated.

Inductive GateError : Type := DuplicateKeyError | MissingSnapshotError.

Section GateSpec.

Context {D : Type}.

(** The gate's mode and snapshots, and what it forwarded: records on the
    primary path (each with its marker), markers on the secondary path. *)
Record Gate : Type := mkGate {
  mode : GateMode;
  snapshots : gmap Timestamp D;
  emitted : list (Timestamp * D);
  markers : list Timestamp
}.

Definition gate_init : Gate := mkGate Gated ∅ [] [].

Definition is_immediate (m : GateMode) : bool :=
  match m with Immediate => true | Gated => false end.

Definition offer (g : Gate) (k : Timestamp) (d : D) : GateError + Gate :=
  match mode g with
  | Immediate => inr (mkGate Immediate (snapshots g) (emitted g ++ [(k, d)]) (markers g))
  | Gated =>
      match snapshots g !! k with
      | Some _ => inl DuplicateKeyError
      | None => inr (mkGate Gated (<[k := d]> (snapshots g)) (emitted g) (markers g ++ [k]))
      end
  end.

Definition release (g : Gate) (k : Timestamp) : GateError + Gate :=
  if is_top k then inr (mkGate Immediate (snapshots g) (emitted g) (markers g))
  else
    match snapshots g !! k with
    | None => inl MissingSnapshotError
    | Some d => inr (mkGate (mode g) (delete k (snapshots g)) (emitted g ++ [(k, d)]) (markers g))
    end.

Inductive GateEvent : Type :=
| Offer (k : Timestamp) (d : D)
| Release (k : Timestamp).

Definition gate_step (g : Gate) (e : GateEvent) : GateError + Gate :=
  match e with
  | Offer k d => offer g k d
  | Release k => release g k
  end.

(** A run stops at the first contract violation. *)
Fixpoint gate_run (g : Gate) (evs : list GateEvent) : GateError + Gate :=
  match evs with
  | [] => inr g
  | e :: evs' =>
      match gate_step g e with
      | inl err => inl err
      | inr g' => gate_run g' evs'
      end
  end.

End GateSpec.

Arguments GateEvent : clear implicits.
Arguments Gate : clear implicits.

End GateSpec.
