(* ===== verification/Sync.v ===== *)
(** * The stream synchronizer

    The watermark alignment the operators rely on is done by the ERDOS
    runtime, a library: an operator's [on_watermark] runs for a timestamp
    once every input stream has reported it.  This file models it from
    the contract of spec §4.3: [on_stream_ready(stream, key)] marks a
    stream ready for a key; once all inputs are ready the key fires, once;
    the top key is accepted and never fires; a second report of the same
    stream for the same key fails with [DuplicateReadyError].  Records
    are not carried: a firing stands for the consumer's [on_watermark].
    The lemmas characterise every run on reports from the inputs: it
    succeeds exactly when no report repeats, and then fires exactly the
    keys every input reported, each once; and when each input reports
    its keys in increasing order, no key fires after a greater one (the
    ordering guarantee of §4.3). *)

From S2P Require Import Prelude Erdos.

Module Sync.

Inductive SyncError : Type := DuplicateReadyError.

Section Sync.

Context {S : Type} `{EqDecision S}.

(** The [N] input streams of the synchronizer. *)
Variable inputs : list S.

(** Per key, the inputs ready for it so far; the keys fired, in order. *)
Record SyncState : Type := mkSyncState {
  ready : gmap Timestamp (list S);
  fired : list Timestamp
}.

Definition sync_init : SyncState := mkSyncState ∅ [].

Definition on_stream_ready (st : SyncState) (s : S) (k : Timestamp) : SyncError + SyncState :=
  if is_top k then inr st
  else
    let r := default [] (ready st !! k) in
    if decide (s ∈ r \/ k ∈ fired st) then inl DuplicateReadyError
    else
      let r' := r ++ [s] in
      if decide (Forall (fun i => i ∈ r') inputs)
      then inr (mkSyncState (delete k (ready st)) (fired st ++ [k]))
      else inr (mkSyncState (<[k := r']> (ready st)) (fired st)).

(** A run over the readiness reports, in arrival order. *)
Fixpoint sync_run (st : SyncState) (E : list (S * Timestamp)) : SyncError + SyncState :=
  match E with
  | [] => inr st
  | (s, k) :: E' =>
      match on_stream_ready st s k with
      | inl err => inl err
      | inr st' => sync_run st' E'
      end
  end.

(** The keys stream [s] reported, in order. *)
Definition reports_by (s : S) (E : list (S * Timestamp)) : list Timestamp :=
  omap (fun e : S * Timestamp => if decide (e.1 = s) then Some e.2 else None) E.

(** What the synchronizer knows after the reports [E]: a key has fired
    iff every input reported it, and a key not fired has, as ready
    streams, exactly those that reported it. *)
Definition sync_inv (E : list (S * Timestamp)) (st : SyncState) : Prop :=
  NoDup (fired st) /\
  forall k, (k ∈ fired st <-> Forall (fun i => (i, k) ∈ E) inputs) /\
            (forall s, s ∈ default [] (ready st !! k) <-> (s, k) ∈ E /\ k ∉ fired st).

Lemma sync_run_app st E1 E2 :
  sync_run st (E1 ++ E2) =
  match sync_run st E1 with inl err => inl err | inr st' => sync_run st' E2 end.
Proof.
  revert st. induction E1 as [|[s k] E1 IH]; intros st; [done|]. simpl.
  destruct (on_stream_ready st s k); [done|apply IH].
Qed.

Lemma sync_inv_init : inputs <> [] -> sync_inv [] sync_init.
Proof.
  intros Hne. split; [constructor|]. intros k. split; [|simpl; set_solver].
  split; [set_solver|]. intros Hall. destruct inputs as [|i rest]; [done|].
  apply Forall_cons in Hall as [Hi _]. set_solver.
Qed.

(** A report not made before is accepted, and the invariant follows. *)
Lemma on_stream_ready_fresh E st s k :
  sync_inv E st -> s ∈ inputs -> is_top k = false -> (s, k) ∉ E ->
  exists st', on_stream_ready st s k = inr st' /\ sync_inv (E ++ [(s, k)]) st'.
Proof.
  intros [Hnd Hk] Hs Htop HE. unfold on_stream_ready. rewrite Htop.
  destruct (Hk k) as [Hfk Hrk].
  rewrite decide_False; last first.
  { intros [Hr|Hf]; [by apply Hrk in Hr as []|].
    apply Hfk in Hf. rewrite Forall_forall in Hf. by apply HE, Hf. }
  assert (Hkf : k ∉ fired st).
  { intros Hf. apply Hfk in Hf. rewrite Forall_forall in Hf. by apply HE, Hf. }
  assert (Hr' : forall i, i ∈ default [] (ready st !! k) ++ [s] <-> (i, k) ∈ E ++ [(s, k)]).
  { intros i. rewrite !elem_of_app, !list_elem_of_singleton, Hrk. naive_solver. }
  assert (Hother : forall k' i, k' <> k -> (i, k') ∈ E ++ [(s, k)] <-> (i, k') ∈ E).
  { intros k' i Hne. rewrite elem_of_app, list_elem_of_singleton. naive_solver. }
  assert (Hall_other : forall k', k' <> k ->
            (Forall (fun i => (i, k') ∈ E ++ [(s, k)]) inputs <-> Forall (fun i => (i, k') ∈ E) inputs)).
  { intros k' Hne. rewrite !Forall_forall.
    split; intros H i Hi; specialize (H i Hi); by apply (Hother k' i Hne). }
  case_decide as Hall; eexists; (split; [reflexivity|]); split; simpl.
  - apply NoDup_app. split_and!; [done| |by apply NoDup_singleton].
    intros k' Hk' ->%list_elem_of_singleton. done.
  - intros k'. destruct (decide (k' = k)) as [->|Hne].
    + rewrite lookup_delete_eq. simpl. split; [|set_solver].
      split; [|set_solver]. intros _. rewrite Forall_forall in Hall |- *.
      intros i Hi. by apply Hr', Hall.
    + rewrite lookup_delete_ne by done. destruct (Hk k') as [Hf' Hr2].
      rewrite Hall_other, <- Hf' by done. split; [set_solver|].
      intros i. rewrite Hr2, (Hother k' i Hne). set_solver.
  - exact Hnd.
  - intros k'. destruct (decide (k' = k)) as [->|Hne].
    + rewrite lookup_insert_eq. simpl. split.
      * split; [by intros Hf; exfalso; apply Hkf|]. intros HallE. exfalso. apply Hall.
        rewrite Forall_forall in HallE |- *. intros i Hi. by apply Hr', HallE.
      * intros i. rewrite Hr'. naive_solver.
    + rewrite lookup_insert_ne by done. destruct (Hk k') as [Hf' Hr2].
      rewrite Hall_other by done. split; [exact Hf'|].
      intros i. by rewrite Hr2, (Hother k' i Hne).
Qed.

(** A report made before is a [DuplicateReadyError]. *)
Lemma on_stream_ready_dup E st s k :
  sync_inv E st -> is_top k = false -> (s, k) ∈ E ->
  on_stream_ready st s k = inl DuplicateReadyError.
Proof.
  intros [_ Hk] Htop HE. unfold on_stream_ready. rewrite Htop.
  destruct (Hk k) as [_ Hrk]. rewrite decide_True; [done|].
  destruct (decide (k ∈ fired st)) as [Hf|Hf]; [by right|left]. by apply Hrk.
Qed.

(** Every run on reports from the inputs (none for the top key) succeeds
    exactly when no report repeats, and then satisfies [sync_inv]. *)
Lemma sync_run_spec E :
  inputs <> [] -> Forall (fun e => e.1 ∈ inputs /\ is_top e.2 = false) E ->
  (NoDup E -> exists st, sync_run sync_init E = inr st /\ sync_inv E st) /\
  (~ NoDup E -> sync_run sync_init E = inl DuplicateReadyError).
Proof.
  intros Hne. induction E as [|[s k] E IH] using rev_ind; intros HF.
  - split; [intros _; exists sync_init; split; [done|by apply sync_inv_init]|].
    intros Hnd. exfalso. apply Hnd. constructor.
  - apply Forall_app in HF as [HF [[Hs Htop] _]%Forall_cons]. simpl in Hs, Htop.
    destruct (IH HF) as [Hok Hdup]. rewrite sync_run_app.
    destruct (decide (NoDup E)) as [HndE|HndE].
    + destruct (Hok HndE) as (st & -> & Hinv). simpl.
      destruct (decide ((s, k) ∈ E)) as [Hin|Hin].
      * split; [intros Hnd; exfalso; apply NoDup_app in Hnd as (_ & Hd & _);
                  by apply (Hd (s, k) Hin), list_elem_of_singleton|].
        intros _. by rewrite (on_stream_ready_dup E st s k Hinv Htop Hin).
      * destruct (on_stream_ready_fresh E st s k Hinv Hs Htop Hin) as (st' & -> & Hinv').
        split; [intros _; by exists st'|]. intros Hnd. exfalso. apply Hnd.
        apply NoDup_app. split_and!; [done| |by apply NoDup_singleton].
        by intros x Hx ->%list_elem_of_singleton.
    + rewrite (Hdup HndE). split; [|done]. intros Hnd. exfalso. apply HndE.
      by apply NoDup_app in Hnd as [? _].
Qed.

(** A report fires at most its own key, appended. *)
Lemma on_stream_ready_fired st s k st' :
  on_stream_ready st s k = inr st' -> fired st' = fired st \/ fired st' = fired st ++ [k].
Proof.
  unfold on_stream_ready. destruct (is_top k); [intros [= <-]; by left|].
  repeat case_decide; intros Hst; simplify_eq/=; auto.
Qed.

Lemma reports_by_snoc s' E s k :
  reports_by s' (E ++ [(s, k)]) = reports_by s' E ++ (if decide (s = s') then [k] else []).
Proof. unfold reports_by. rewrite omap_app. simpl. by case_decide. Qed.

(** The ordering guarantee of spec §4.3, for an asymmetric order [R] on
    keys. *)
Section Order.

Variable R : relation Timestamp.
Hypothesis R_asym : forall a b, R a b -> ~ R b a.

(** When each input reports its keys in increasing order, no key fires
    after a key greater than it. *)
Lemma sync_run_in_order E :
  inputs <> [] -> Forall (fun e => e.1 ∈ inputs /\ is_top e.2 = false) E -> NoDup E ->
  (forall s, StronglySorted R (reports_by s E)) ->
  exists st, sync_run sync_init E = inr st /\ sync_inv E st /\
    StronglySorted (fun a b => ~ R b a) (fired st).
Proof.
  intros Hne. induction E as [|[s k] E IH] using rev_ind; intros HF Hnd Hsort.
  - exists sync_init. split_and!; [done|by apply sync_inv_init|constructor].
  - apply Forall_app in HF as [HF [[Hs Htop] _]%Forall_cons]. simpl in Hs, Htop.
    apply NoDup_app in Hnd as (HndE & Hdis & _).
    assert (Hin : (s, k) ∉ E) by (intros H; by apply (Hdis _ H), list_elem_of_singleton).
    destruct (IH HF HndE) as (st & Hrun & Hinv & Hsorted).
    { intros s'. specialize (Hsort s'). rewrite reports_by_snoc in Hsort.
      by apply StronglySorted_app_1_l in Hsort. }
    destruct (on_stream_ready_fresh E st s k Hinv Hs Htop Hin) as (st' & Hst' & Hinv').
    exists st'. rewrite sync_run_app, Hrun. simpl. rewrite Hst'. split_and!; [done|done|].
    destruct (on_stream_ready_fired _ _ _ _ Hst') as [-> | ->]; [done|].
    apply StronglySorted_app_2; [|done|repeat constructor].
    intros a k' Ha ->%list_elem_of_singleton. apply R_asym.
    specialize (Hsort s). rewrite reports_by_snoc, decide_True in Hsort by done.
    apply (StronglySorted_app_1_elem_of _ _ _ _ _ Hsort); [|by left].
    destruct Hinv as [_ Hk]. apply (proj1 (proj1 (Hk a))) in Ha. rewrite Forall_forall in Ha.
    apply list_elem_of_omap. exists (s, a). split; [by apply Ha|]. simpl. by rewrite decide_True.
Qed.

End Order.

End Sync.

(** The readiness reports a send log makes to a synchronizer over the
    streams [ins]: the watermarks sent on them, in order. *)
Definition ready_events {S D} `{EqDecision S} (ins : list S) (log : list (S * Message D))
  : list (S * Timestamp) :=
  omap (fun e : S * Message D =>
          match e.2 with
          | WatermarkMessage t => if decide (e.1 ∈ ins) then Some (e.1, t) else None
          | _ => None
          end) log.

End Sync.
