(* ===== verification/Detection.v ===== *)
(** * Obstacles, bounding boxes and precision/recall at an IoU threshold

    The detection types the operators read ([Obstacle] with its label and
    bounding box, [BoundingBox2D.calculate_iou]) and the primitive
    [get_precision_recall_at_iou] of [pylot.perception.detection.utils].
    None of these is under [src/]: they follow the spec (§4.4, §6),
    which fixes the greedy one-to-one matching and the two ratios.  The
    matching is written against an [Overlap] interface so the bounding-box
    IoU is one instance of it. *)

From S2P Require Import Prelude.

(** [BoundingBox2D(x_min, x_max, y_min, y_max)] in pixels. *)
Record BoundingBox2D : Type := mkBoundingBox2D {
  x_min : Z; x_max : Z; y_min : Z; y_max : Z
}.

#[export] Instance BoundingBox2D_eq_dec : EqDecision BoundingBox2D.
Proof. solve_decision. Defined.

(** [Obstacle]: the tracker's id, the detector's label and the box. *)
Record Obstacle : Type := mkObstacle {
  obstacle_id : Z;
  label : string;
  bounding_box : BoundingBox2D
}.

(** The labels [is_vehicle()] accepts. *)
Definition VEHICLE_LABELS : list string :=
  ["car"; "bicycle"; "motorcycle"; "bus"; "truck"; "vehicle"].

(** [is_person()] and [is_vehicle()] of obstacles and predictions, by label. *)
Definition is_person_label (l : string) : bool := String.eqb l "person".
Definition is_vehicle_label (l : string) : bool := existsb (String.eqb l) VEHICLE_LABELS.

(** [Obstacle.is_person()]. *)
Definition is_person (o : Obstacle) : bool := is_person_label (label o).
(** [Obstacle.is_vehicle()]. *)
Definition is_vehicle (o : Obstacle) : bool := is_vehicle_label (label o).

(** An overlap fraction between two detected entities. *)
Class Overlap (E : Type) := overlap : E -> E -> Q.

(** The area of a box, and of the intersection of two boxes. *)
Definition bbox_area (b : BoundingBox2D) : Z :=
  (x_max b - x_min b) * (y_max b - y_min b).

Definition inter_area (a b : BoundingBox2D) : Z :=
  Z.max 0 (Z.min (x_max a) (x_max b) - Z.max (x_min a) (x_min b)) *
  Z.max 0 (Z.min (y_max a) (y_max b) - Z.max (y_min a) (y_min b)).

(** [BoundingBox2D.calculate_iou]: intersection over union. *)
Definition calculate_iou (a b : BoundingBox2D) : Q :=
  let inter := inter_area a b in
  let union := (bbox_area a + bbox_area b - inter)%Z in
  if decide (union <= 0)%Z then 0%Q else (inject_Z inter / inject_Z union)%Q.

#[export] Instance bbox_overlap : Overlap BoundingBox2D := calculate_iou.

(** A box whose corners are ordered and whose area is positive. *)
Definition well_formed (b : BoundingBox2D) : Prop :=
  (x_min b < x_max b)%Z /\ (y_min b < y_max b)%Z.

Section PrecisionRecall.
Context {E : Type} `{Overlap E}.

(** Remove the first element of [l] satisfying [p], if any. *)
Fixpoint remove_first (p : E -> bool) (l : list E) : option (list E) :=
  match l with
  | [] => None
  | x :: l' => if p x then Some l' else (fun r => x :: r) <$> remove_first p l'
  end.

(** Greedy one-to-one matching: each entity of [first] takes the first
    still unmatched entity of [second] it overlaps by at least [thr]. *)
Fixpoint true_positives (thr : Q) (first second : list E) : nat :=
  match first with
  | [] => 0
  | e :: rest =>
      match remove_first (fun e' => Qle_bool thr (overlap e e')) second with
      | Some second' => S (true_positives thr rest second')
      | None => true_positives thr rest second
      end
  end.

(** [tp / n], zero when [n] is zero. *)
Definition ratio (tp n : nat) : Q :=
  if decide (n = 0%nat) then 0%Q else (inject_Z (Z.of_nat tp) / inject_Z (Z.of_nat n))%Q.

(** [get_precision_recall_at_iou(first, second, thr)]: (precision, recall). *)
Definition get_precision_recall_at_iou (first second : list E) (thr : Q) : Q * Q :=
  let tp := true_positives thr first second in
  (ratio tp (length first), ratio tp (length second)).

(** ** Lemmas *)

Lemma remove_first_length p l l' :
  remove_first p l = Some l' -> length l = S (length l').
Proof.
  revert l'. induction l as [|x l IH]; intros l' Hr; simpl in Hr; [discriminate|].
  destruct (p x); [by simplify_eq|].
  destruct (remove_first p l) eqn:Hl; simpl in Hr; [|discriminate].
  simplify_eq. simpl. by rewrite (IH _ eq_refl).
Qed.

Lemma true_positives_le_first thr first second :
  (true_positives thr first second <= length first)%nat.
Proof.
  revert second. induction first as [|e rest IH]; intros second; simpl; [lia|].
  destruct (remove_first _ second); [specialize (IH l)|specialize (IH second)]; lia.
Qed.

Lemma true_positives_le_second thr first second :
  (true_positives thr first second <= length second)%nat.
Proof.
  revert second. induction first as [|e rest IH]; intros second; simpl; [lia|].
  destruct (remove_first _ second) eqn:Hr; [|apply IH].
  apply remove_first_length in Hr. specialize (IH l). lia.
Qed.

Lemma ratio_bounds tp n : (tp <= n)%nat -> (0 <= ratio tp n <= 1)%Q.
Proof.
  intros Hle. unfold ratio. case_decide; [lra|].
  apply (Qdiv_len_bounds 0 1 (inject_Z (Z.of_nat tp)) n); [lia|].
  rewrite Qmult_0_r, Qmult_1_r. split.
  - change 0%Q with (inject_Z 0). rewrite <- Zle_Qle. lia.
  - rewrite <- Zle_Qle. lia.
Qed.

Lemma ratio_full n : n <> 0%nat -> (ratio n n == 1)%Q.
Proof.
  intros Hn. unfold ratio. rewrite decide_False by done. field.
  change 0%Q with (inject_Z 0). rewrite inject_Z_injective. lia.
Qed.

(** Matching a list against itself pairs every entity with itself when
    each overlaps itself by at least the threshold. *)
Lemma true_positives_self thr l :
  (forall e, e ∈ l -> (thr <= overlap e e)%Q) -> true_positives thr l l = length l.
Proof.
  induction l as [|e l IH]; intros Hself; [done|]. simpl.
  rewrite (proj2 (Qle_bool_iff _ _)) by (apply Hself; set_solver).
  f_equal. apply IH. intros e' He'. apply Hself. set_solver.
Qed.

End PrecisionRecall.

(** A well-formed box overlaps itself completely. *)
Lemma iou_self b : well_formed b -> (calculate_iou b b == 1)%Q.
Proof.
  intros [Hx Hy]. unfold calculate_iou, inter_area, bbox_area.
  rewrite !Z.min_id, !Z.max_id.
  rewrite (Z.max_r 0 (x_max b - x_min b)), (Z.max_r 0 (y_max b - y_min b)) by lia.
  set (a := ((x_max b - x_min b) * (y_max b - y_min b))%Z).
  assert (0 < a)%Z by (unfold a; nia).
  replace (a + a - a)%Z with a by lia.
  rewrite decide_False by lia.
  unfold Qdiv. apply Qmult_inv_r.
  change 0%Q with (inject_Z 0). rewrite inject_Z_injective. lia.
Qed.
