(* ===== verification/LidarDriver.v ===== *)
(** * The lidar driver's release gate

    [CarlaLidarDriverOperator] of
    [src/pylot/drivers/carla_lidar_driver_operator.py]: its state
    ([_release_data], [_pickled_messages] and the two write streams), the
    simulator callback [process_point_clouds] and [on_watermark], a step
    function over the two kinds of events, runs of event traces and the
    reachable states.  The theorems show exactly-once release of gated
    point clouds, the one-way switch to immediate mode, the invariant of
    the pending snapshots, the [KeyError] of a release without snapshot, and that a watermark handled
    inside the callback's window (the callback is split at its one read
    of [_release_data]) equals a serial order. *)

From S2P Require Import Prelude Erdos GateSpec.

(** The simulator's point cloud as far as the callback reads it:
    [simulator_pc.timestamp] (seconds) and [simulator_pc.raw_data]. *)
Record SimPointCloud : Type := mkSimPointCloud {
  pc_timestamp : Q;
  raw_data : list Byte.byte
}.

Module ReleaseGate.
Section ReleaseGate.

Context {PointCloud : Type} `{Pickle PointCloud}.

(** [PointCloud.from_simulator_point_cloud(simulator_pc, self._lidar_setup)]:
    decoding is outside the modelled core. *)
Variable from_simulator_point_cloud : SimPointCloud -> PointCloud.

(** The operator's mutable fields and what it has sent so far. *)
Record LidarState : Type := mkLidarState {
  release_data : bool;
  pickled_messages : gmap Timestamp (list Byte.byte);
  left_stream : list (Message PointCloud);
  right_stream : list (Message PointCloud)
}.

(** [__init__]: [_release_data = False], [_pickled_messages = {}]. *)
Definition lidar_init : LidarState := mkLidarState false ∅ [] [].

(** [process_point_clouds(simulator_pc, left_write_stream, right_write_stream)]. *)
Definition process_point_clouds (s : LidarState) (pc : SimPointCloud) : res LidarState :=
  let timestamp := sim_timestamp (pc_timestamp pc) in
  let watermark_msg := WatermarkMessage timestamp in
  if decide (length (raw_data pc) = 0%nat) then raise AssertionError
  else
    let data := from_simulator_point_cloud pc in
    if release_data s then
      Ok (mkLidarState (release_data s) (pickled_messages s)
            (left_stream s ++ [Msg timestamp data; watermark_msg])
            (right_stream s))
    else
      let pickled_msg := dumps data in
      Ok (mkLidarState (release_data s)
            (<[timestamp := pickled_msg]> (pickled_messages s))
            (left_stream s)
            (right_stream s ++ [watermark_msg])).

(** [on_watermark(context)] at [context.timestamp = t]. *)
Definition on_watermark (s : LidarState) (t : Timestamp) : res LidarState :=
  if is_top t then
    Ok (mkLidarState true (pickled_messages s) (left_stream s) (right_stream s))
  else
    match pickled_messages s !! t with
    | None => raise KeyError
    | Some b =>
        Ok (mkLidarState (release_data s) (delete t (pickled_messages s))
              (left_stream s ++ [PickledMsg t b; WatermarkMessage t])
              (right_stream s))
    end.

(** The callback split where [on_watermark], which does not take
    [self._lock], can interleave with it: the assertion and the single
    read of [self._release_data] (lines 61-68), then the branch taken on
    the value read (lines 69-77). *)
Definition callback_read (s : LidarState) (pc : SimPointCloud) : res bool :=
  if decide (length (raw_data pc) = 0%nat) then raise AssertionError else Ok (release_data s).

Definition callback_finish (s : LidarState) (pc : SimPointCloud) (release : bool) : LidarState :=
  let timestamp := sim_timestamp (pc_timestamp pc) in
  let watermark_msg := WatermarkMessage timestamp in
  let data := from_simulator_point_cloud pc in
  if release then
    mkLidarState (release_data s) (pickled_messages s)
      (left_stream s ++ [Msg timestamp data; watermark_msg]) (right_stream s)
  else
    mkLidarState (release_data s) (<[timestamp := dumps data]> (pickled_messages s))
      (left_stream s) (right_stream s ++ [watermark_msg]).

(** A watermark [w] handled between the two halves of a callback. *)
Definition interleaved (s : LidarState) (pc : SimPointCloud) (w : Timestamp) : res LidarState :=
  release ← callback_read s pc;
  s1 ← on_watermark s w;
  Ok (callback_finish s1 pc release).

(** The two entry points the runtime and the simulator invoke. *)
Inductive LidarEvent : Type :=
| PointCloudCallback (pc : SimPointCloud)
| WatermarkCallback (t : Timestamp).

Definition lidar_step (s : LidarState) (e : LidarEvent) : res LidarState :=
  match e with
  | PointCloudCallback pc => process_point_clouds s pc
  | WatermarkCallback t => on_watermark s t
  end.

(** A run of an interleaving of events; the first exception stops it. *)
Fixpoint lidar_run (s : LidarState) (evs : list LidarEvent) : res LidarState :=
  match evs with
  | [] => Ok s
  | e :: evs' => s' ← lidar_step s e; lidar_run s' evs'
  end.

(** The states the operator can reach without raising. *)
Inductive reachable : LidarState -> Prop :=
| reach_init : reachable lidar_init
| reach_step s e s' : reachable s -> lidar_step s e = Ok s' -> reachable s'.

(** The timestamp a callback produces its data for. *)
Definition callback_time (e : LidarEvent) : option Timestamp :=
  match e with
  | PointCloudCallback pc => Some (sim_timestamp (pc_timestamp pc))
  | WatermarkCallback _ => None
  end.

(** How many callbacks of a trace produce data for [t]. *)
Definition count_callbacks (t : Timestamp) (evs : list LidarEvent) : nat :=
  length (filter (fun e => callback_time e = Some t) evs).

(** One if a snapshot for [t] is pending release. *)
Definition pending (s : LidarState) (t : Timestamp) : nat :=
  match pickled_messages s !! t with Some _ => 1 | None => 0 end.

(** Payloads already released for [t] plus the pending one. *)
Definition budget (s : LidarState) (t : Timestamp) : nat :=
  (payloads_for t (left_stream s) + pending s t)%nat.

(** Every pending snapshot is the pickled form of a point cloud received
    for its (non-top) timestamp, whose watermark went out on the right stream. *)
Definition lidar_inv (s : LidarState) : Prop :=
  forall t b, pickled_messages s !! t = Some b ->
    is_top t = false /\ WatermarkMessage t ∈ right_stream s /\
    exists pc, sim_timestamp (pc_timestamp pc) = t /\ b = dumps (from_simulator_point_cloud pc).

(** Whether a trace contains a top watermark. *)
Definition has_top_watermark (evs : list LidarEvent) : bool :=
  existsb (fun e => match e with WatermarkCallback t => is_top t | _ => false end) evs.

(** The refinement relation with the contract of [GateSpec]: the flag is
    the mode, the pickled snapshots are the abstract ones serialised, the
    left stream carries the emitted records (once unpickled), each with
    its watermark, and the right stream only the markers. *)
Definition gate_rel (s : LidarState) (g : GateSpec.Gate PointCloud) : Prop :=
  release_data s = GateSpec.is_immediate (GateSpec.mode g) /\
  pickled_messages s = dumps <$> GateSpec.snapshots g /\
  omap received_data (left_stream s) = GateSpec.emitted g /\
  watermarks_of (left_stream s) = (GateSpec.emitted g).*1 /\
  omap received_data (right_stream s) = [] /\
  watermarks_of (right_stream s) = GateSpec.markers g.

(** The contract operation each entry point performs. *)
Definition gate_event (e : LidarEvent) : GateSpec.GateEvent PointCloud :=
  match e with
  | PointCloudCallback pc =>
      GateSpec.Offer (sim_timestamp (pc_timestamp pc)) (from_simulator_point_cloud pc)
  | WatermarkCallback t => GateSpec.Release t
  end.

(** Callbacks whose point cloud passes the callback's assertion, which
    the contract does not have. *)
Definition nonempty_callback (e : LidarEvent) : Prop :=
  match e with PointCloudCallback pc => raw_data pc <> [] | WatermarkCallback _ => True end.

(** ** Equations of the handlers *)

Lemma process_gated s pc :
  raw_data pc <> [] -> release_data s = false ->
  process_point_clouds s pc =
  Ok (mkLidarState false
        (<[sim_timestamp (pc_timestamp pc) := dumps (from_simulator_point_cloud pc)]>
           (pickled_messages s))
        (left_stream s)
        (right_stream s ++ [WatermarkMessage (sim_timestamp (pc_timestamp pc))])).
Proof.
  intros Hraw Hrel. unfold process_point_clouds.
  rewrite decide_False by (destruct (raw_data pc); simpl; congruence).
  by rewrite Hrel.
Qed.

Lemma process_immediate s pc :
  raw_data pc <> [] -> release_data s = true ->
  process_point_clouds s pc =
  Ok (mkLidarState true (pickled_messages s)
        (left_stream s ++ [Msg (sim_timestamp (pc_timestamp pc)) (from_simulator_point_cloud pc);
                           WatermarkMessage (sim_timestamp (pc_timestamp pc))])
        (right_stream s)).
Proof.
  intros Hraw Hrel. unfold process_point_clouds.
  rewrite decide_False by (destruct (raw_data pc); simpl; congruence).
  by rewrite Hrel.
Qed.

Lemma on_watermark_release s t b :
  is_top t = false -> pickled_messages s !! t = Some b ->
  on_watermark s t =
  Ok (mkLidarState (release_data s) (delete t (pickled_messages s))
        (left_stream s ++ [PickledMsg t b; WatermarkMessage t]) (right_stream s)).
Proof. intros Htop Hb. unfold on_watermark. by rewrite Htop, Hb. Qed.

Lemma lidar_run_app s evs1 evs2 :
  lidar_run s (evs1 ++ evs2) = (s' ← lidar_run s evs1; lidar_run s' evs2).
Proof.
  revert s. induction evs1 as [|e evs1 IH]; intros s; simpl; [done|].
  destruct (lidar_step s e); simpl; [apply IH|done].
Qed.

Lemma lidar_run_reachable s evs s' :
  reachable s -> lidar_run s evs = Ok s' -> reachable s'.
Proof.
  revert s. induction evs as [|e evs IH]; intros s Hs Hrun; simpl in Hrun.
  - by res_inv.
  - bind_ok Hrun. eapply IH; [|exact Hrun]. by eapply reach_step.
Qed.

(** ** Exactly-once release *)

Lemma pending_insert s t t' b r l1 l2 :
  pending (mkLidarState r (<[t' := b]> (pickled_messages s)) l1 l2) t =
  if decide (t' = t) then 1%nat else pending s t.
Proof. unfold pending; simpl. case_decide; subst; [by simplify_map_eq|by simplify_map_eq]. Qed.

Lemma pending_delete s t t' r l1 l2 :
  pending (mkLidarState r (delete t' (pickled_messages s)) l1 l2) t =
  if decide (t' = t) then 0%nat else pending s t.
Proof. unfold pending; simpl. case_decide; subst; [by simplify_map_eq|by simplify_map_eq]. Qed.

Lemma payloads_for_pair t t' m :
  payloads_for t [m; @WatermarkMessage PointCloud t'] = payloads_for t [m].
Proof.
  change [m; WatermarkMessage t'] with ([m] ++ [@WatermarkMessage PointCloud t']).
  by rewrite payloads_for_app, payloads_for_watermark, Nat.add_0_r.
Qed.

Lemma payloads_for_one_msg t t' (m : Message PointCloud) :
  is_payload_for t' m = true ->
  payloads_for t [m] = if decide (t' = t) then 1%nat else 0%nat.
Proof.
  intros Hm. case_decide as Heq.
  - subst. by eapply payloads_for_payload.
  - apply payloads_for_other. destruct m; simpl in *; try done;
      apply bool_decide_eq_true in Hm; subst; by apply bool_decide_eq_false.
Qed.

(** One step adds to the budget of [t] at most the callbacks for [t]. *)
Lemma step_budget s e s' t :
  lidar_step s e = Ok s' ->
  (budget s' t <= budget s t + if decide (callback_time e = Some t) then 1 else 0)%nat.
Proof.
  unfold budget. destruct e as [pc|t']; simpl; intros Hstep.
  - unfold process_point_clouds in Hstep. case_decide; [discriminate|].
    destruct (release_data s); res_inv; simpl.
    + rewrite payloads_for_app, payloads_for_pair,
        (payloads_for_one_msg _ (sim_timestamp (pc_timestamp pc))) by (simpl; by rewrite bool_decide_eq_true).
      unfold pending; simpl. repeat case_decide; simplify_eq; lia.
    + rewrite pending_insert. unfold pending.
      repeat case_decide; simplify_eq; try lia; destruct (pickled_messages s !! t); lia.
  - unfold on_watermark in Hstep. destruct (is_top t'); [res_inv; simpl; unfold pending; simpl; lia|].
    destruct (pickled_messages s !! t') as [b|] eqn:Hb; res_inv; simpl.
    rewrite pending_delete, payloads_for_app, payloads_for_pair,
      (payloads_for_one_msg _ t') by (simpl; by rewrite bool_decide_eq_true).
    unfold pending. repeat case_decide; subst; rewrite ?Hb; lia.
Qed.

Lemma run_budget s evs s' t :
  lidar_run s evs = Ok s' -> (budget s' t <= budget s t + count_callbacks t evs)%nat.
Proof.
  revert s. induction evs as [|e evs IH]; intros s Hrun; simpl in Hrun.
  - res_inv. lia.
  - bind_ok Hrun. apply step_budget with (t := t) in Hm. apply IH in Hrun.
    unfold count_callbacks in *. rewrite filter_cons.
    case_decide; simpl in *; lia.
Qed.

Lemma count_callbacks_NoDup t evs :
  NoDup (omap callback_time evs) -> (count_callbacks t evs <= 1)%nat.
Proof.
  unfold count_callbacks. induction evs as [|e evs IH]; simpl; [lia|].
  rewrite filter_cons. destruct (callback_time e) as [t'|] eqn:He; simpl.
  - intros [Hnot Hnd]%NoDup_cons.
    case_decide as Heq; simpl; [|by apply IH].
    simplify_eq.
    enough (filter (fun e => callback_time e = Some t) evs = []) as ->; [simpl; lia|].
    apply filter_none. intros e' He' Hc. apply Hnot.
    apply list_elem_of_omap. eauto.
  - intros Hnd. repeat case_decide; try congruence. by apply IH.
Qed.

(** ** The invariant of pending snapshots *)

Lemma lidar_inv_init : lidar_inv lidar_init.
Proof. intros t b Hb. simpl in Hb. by rewrite lookup_empty in Hb. Qed.

Lemma lidar_inv_step s e s' : lidar_inv s -> lidar_step s e = Ok s' -> lidar_inv s'.
Proof.
  intros Hinv Hstep t b Hb. destruct e as [pc|t']; simpl in Hstep.
  - unfold process_point_clouds in Hstep. case_decide; [discriminate|].
    destruct (release_data s); res_inv; simpl in *; [by apply Hinv|].
    destruct (decide (sim_timestamp (pc_timestamp pc) = t)) as [<-|Hne].
    + rewrite lookup_insert_eq in Hb. simplify_eq.
      split; [done|]. split; [apply elem_of_app; right; by left|]. by exists pc.
    + rewrite lookup_insert_ne in Hb by done.
      destruct (Hinv t b Hb) as (Htop & Hin & Hpc). split_and!; [done|apply elem_of_app; by left|done].
  - unfold on_watermark in Hstep. destruct (is_top t'); [res_inv; by apply Hinv|].
    destruct (pickled_messages s !! t') eqn:Ht'; res_inv; simpl in *.
    destruct (decide (t' = t)) as [<-|Hne]; [by rewrite lookup_delete_eq in Hb|].
    rewrite lookup_delete_ne in Hb by done. by apply Hinv.
Qed.

Lemma reachable_inv s : reachable s -> lidar_inv s.
Proof.
  induction 1; [apply lidar_inv_init|]. eauto using lidar_inv_step.
Qed.

(** ** Properties of the release gate *)

(** C1. Exactly-once emission per timestamp: along any run from the
    initial state in which the simulator callbacks carry pairwise distinct
    timestamps, at most one payload (plain or pickled) for each timestamp
    is ever sent on the left stream. *)
Theorem release_at_most_once evs s t :
  lidar_run lidar_init evs = Ok s ->
  NoDup (omap callback_time evs) ->
  (payloads_for t (left_stream s) <= 1)%nat.
Proof.
  intros Hrun Hnd. apply run_budget with (t := t) in Hrun.
  apply count_callbacks_NoDup with (t := t) in Hnd.
  unfold budget, pending in *. simpl in *. rewrite lookup_empty in Hrun. lia.
Qed.

(** C2. Gated offer then release: in gated mode a point cloud is pickled
    and only its watermark goes out on the right stream; the release
    watermark for its timestamp then sends exactly one payload, which
    unpickles to the point cloud, followed by the watermark, and a second
    release of the same timestamp raises [KeyError]. *)
Theorem gated_offer_release s pc :
  release_data s = false -> raw_data pc <> [] ->
  let t := sim_timestamp (pc_timestamp pc) in
  exists s',
    lidar_run s [PointCloudCallback pc; WatermarkCallback t] = Ok s' /\
    left_stream s' = left_stream s ++ [PickledMsg t (dumps (from_simulator_point_cloud pc));
                                       WatermarkMessage t] /\
    right_stream s' = right_stream s ++ [WatermarkMessage t] /\
    payloads_for t (left_stream s') = S (payloads_for t (left_stream s)) /\
    received_data (PickledMsg t (dumps (from_simulator_point_cloud pc))) =
      Some (t, from_simulator_point_cloud pc) /\
    lidar_step s' (WatermarkCallback t) = raise KeyError.
Proof.
  intros Hrel Hraw. cbv zeta. simpl. rewrite process_gated by done. simpl.
  rewrite (on_watermark_release _ _ (dumps (from_simulator_point_cloud pc))) by
    (done || (simpl; by rewrite lookup_insert_eq)).
  eexists; split; [reflexivity|]. simpl. split_and!; try done.
  - rewrite payloads_for_app, payloads_for_pair,
      (payloads_for_one_msg _ (sim_timestamp (pc_timestamp pc)))
      by (simpl; by rewrite bool_decide_eq_true).
    rewrite decide_True by done. lia.
  - apply received_pickled.
  - unfold on_watermark. simpl. by rewrite delete_insert_eq, lookup_delete_eq.
Qed.

(** C21. The switch to immediate mode is one-way: after any run, the
    operator releases data immediately iff it did so before or the run
    contained a top watermark. *)
Theorem release_data_one_way s evs s' :
  lidar_run s evs = Ok s' ->
  release_data s' = release_data s || has_top_watermark evs.
Proof.
  revert s. induction evs as [|e evs IH]; intros s Hrun; simpl in Hrun.
  - res_inv. simpl. by rewrite orb_false_r.
  - bind_ok Hrun. apply IH in Hrun. rewrite Hrun. simpl.
    destruct e as [pc|t]; simpl in Hm.
    + unfold process_point_clouds in Hm. case_decide; [discriminate|].
      destruct (release_data s) eqn:Hr; res_inv; simpl; by rewrite ?Hr.
    + unfold on_watermark in Hm. destruct (is_top t); [res_inv; simpl; by rewrite orb_true_r|].
      destruct (pickled_messages s !! t); res_inv. reflexivity.
Qed.

(** C22. The pending snapshots of every reachable state are sound: each is
    keyed by a non-top timestamp whose watermark was sent on the right
    stream, and is the pickled form of a point cloud received for it. *)
Theorem pending_snapshots_sound s t b :
  reachable s -> pickled_messages s !! t = Some b ->
  is_top t = false /\ WatermarkMessage t ∈ right_stream s /\
  exists pc, sim_timestamp (pc_timestamp pc) = t /\ b = dumps (from_simulator_point_cloud pc).
Proof. intros Hs Hb. exact (reachable_inv s Hs t b Hb). Qed.

(** C27. A pending snapshot is always releasable: in a reachable state, the
    watermark for a pending timestamp succeeds, sends the snapshot (which
    unpickles to the original point cloud) and its watermark on the left
    stream, and removes the snapshot. *)
Theorem pending_release_succeeds s t b :
  reachable s -> pickled_messages s !! t = Some b ->
  exists pc s',
    lidar_step s (WatermarkCallback t) = Ok s' /\
    left_stream s' = left_stream s ++ [PickledMsg t b; WatermarkMessage t] /\
    pickled_messages s' !! t = None /\
    received_data (PickledMsg (D := PointCloud) t b) = Some (t, from_simulator_point_cloud pc).
Proof.
  intros Hs Hb. destruct (reachable_inv s Hs t b Hb) as (Htop & _ & pc & _ & ->).
  exists pc. eexists. simpl. rewrite (on_watermark_release _ _ _ Htop Hb).
  split_and!; [reflexivity|reflexivity|apply lookup_delete_eq|apply received_pickled].
Qed.

(** ** A watermark racing a callback *)

Lemma process_point_clouds_split s pc :
  process_point_clouds s pc = (release ← callback_read s pc; Ok (callback_finish s pc release)).
Proof.
  unfold process_point_clouds, callback_read, callback_finish.
  case_decide; [done|]. by destruct (release_data s).
Qed.

(** [on_watermark] changes the flag only on the top watermark. *)
Lemma on_watermark_flag s w s' :
  on_watermark s w = Ok s' -> release_data s' = release_data s || is_top w.
Proof.
  unfold on_watermark. destruct (is_top w); [intros [= <-]; by rewrite orb_true_r|].
  destruct (pickled_messages s !! w); intros; simplify_eq; by rewrite orb_false_r.
Qed.

(** C5. A watermark racing a callback: [on_watermark] does not take the
    callback's lock, so it can run between the callback's read of
    [_release_data] and the branch it takes on the value read.  Every
    such interleaving ends exactly as a serial order: as the callback
    followed by the watermark when the watermark is the top one (the
    callback still gates its point cloud, released later) or the point
    cloud is empty, and otherwise as the watermark followed by the
    callback. *)
Theorem callback_watermark_race s pc w :
  interleaved s pc w =
  if is_top w || bool_decide (raw_data pc = [])
  then (s' ← process_point_clouds s pc; on_watermark s' w)
  else (s' ← on_watermark s w; process_point_clouds s' pc).
Proof.
  unfold interleaved. rewrite !process_point_clouds_split. unfold callback_read.
  destruct (decide (length (raw_data pc) = 0%nat)) as [Hz|Hz].
  - apply nil_length_inv in Hz.
    assert (Hb : bool_decide (raw_data pc = []) = true) by (by apply bool_decide_true).
    by rewrite Hb, orb_true_r.
  - assert (Hb : bool_decide (raw_data pc = []) = false)
      by (apply bool_decide_false; intros Hr; apply Hz; by rewrite Hr).
    rewrite Hb, orb_false_r.
    simpl. destruct (is_top w) eqn:Htop.
    + unfold on_watermark. rewrite Htop. simpl.
      unfold callback_finish. by destruct (release_data s).
    + destruct (on_watermark s w) as [s1|e] eqn:Hw; simpl; [|done].
      rewrite process_point_clouds_split. unfold callback_read.
      rewrite decide_False by done. simpl.
      by rewrite (on_watermark_flag _ _ _ Hw), Htop, orb_false_r.
Qed.

(** ** Refinement of the gate contract *)

Lemma gate_rel_init : gate_rel lidar_init GateSpec.gate_init.
Proof. unfold gate_rel. simpl. by rewrite fmap_empty. Qed.

(** Sending a payload and its watermark adds one record and one marker. *)
Lemma stream_pair_app (l : list (Message PointCloud)) m t :
  omap received_data (l ++ [m; WatermarkMessage t]) = omap received_data l ++ omap received_data [m] /\
  watermarks_of (l ++ [m; WatermarkMessage t]) =
    watermarks_of l ++ watermarks_of [m] ++ [t].
Proof. unfold watermarks_of. rewrite !omap_app. by destruct m. Qed.

(** One step of the operator simulates the corresponding contract step;
    a missing snapshot is a [KeyError]. *)
Lemma gate_step_sim s g e :
  gate_rel s g -> nonempty_callback e ->
  match GateSpec.gate_step g (gate_event e) with
  | inr g' => exists s', lidar_step s e = Ok s' /\ gate_rel s' g'
  | inl GateSpec.MissingSnapshotError => lidar_step s e = raise KeyError
  | inl GateSpec.DuplicateKeyError => True
  end.
Proof.
  intros (Hm & Hp & Hl & Hlw & Hr & Hrw) He. destruct e as [pc|t]; simpl in *.
  - unfold GateSpec.offer. destruct (GateSpec.mode g) eqn:Hmode; simpl in Hm.
    + eexists. rewrite process_immediate by done. split; [reflexivity|].
      unfold gate_rel. simpl. destruct (stream_pair_app (left_stream s)
        (Msg (sim_timestamp (pc_timestamp pc)) (from_simulator_point_cloud pc))
        (sim_timestamp (pc_timestamp pc))) as [-> ->].
      rewrite Hl, Hlw, fmap_app. split_and!; done.
    + destruct (GateSpec.snapshots g !! _) eqn:Hk; [done|].
      eexists. rewrite process_gated by done. split; [reflexivity|].
      unfold gate_rel. simpl. unfold watermarks_of in *.
      rewrite !omap_app, Hr, Hrw, Hp, fmap_insert. split_and!; done.
  - unfold GateSpec.release, on_watermark. destruct (is_top t).
    + eexists. split; [reflexivity|]. unfold gate_rel. simpl. split_and!; done.
    + rewrite Hp, lookup_fmap. destruct (GateSpec.snapshots g !! t) as [d|] eqn:Ht; simpl; [|done].
      eexists. split; [reflexivity|]. unfold gate_rel. simpl.
      destruct (stream_pair_app (left_stream s) (PickledMsg t (dumps d)) t) as [-> ->].
      rewrite Hl, Hlw, fmap_app, fmap_delete. cbn. rewrite loads_dumps.
      split_and!; done.
Qed.

(** C3. The operator refines the release-gate contract of spec §4.2: from
    related states, on any trace of watermarks and callbacks with
    non-empty point clouds, when the contract accepts the corresponding
    offers and releases the operator runs without raising to a related
    state (same mode, same pending snapshots once pickled, the same
    records emitted on the left stream each with its watermark, the same
    markers on the right stream), and when the contract's first violation
    is a missing snapshot the operator raises [KeyError]. *)
Theorem lidar_refines_gate s g evs :
  gate_rel s g -> Forall nonempty_callback evs ->
  (forall g', GateSpec.gate_run g (gate_event <$> evs) = inr g' ->
     exists s', lidar_run s evs = Ok s' /\ gate_rel s' g') /\
  (GateSpec.gate_run g (gate_event <$> evs) = inl GateSpec.MissingSnapshotError ->
     lidar_run s evs = raise KeyError).
Proof.
  revert s g. induction evs as [|e evs IH]; intros s g Hrel Hne.
  - split; [intros g' [= <-]; by exists s | discriminate].
  - apply Forall_cons in Hne as [He Hne]. simpl.
    pose proof (gate_step_sim s g e Hrel He) as Hstep.
    destruct (GateSpec.gate_step g (gate_event e)) as [[]|g1].
    + split; discriminate.
    + split; [discriminate|intros _]. by rewrite Hstep.
    + destruct Hstep as (s1 & -> & Hrel1). by apply IH.
Qed.

(** C36. Duplicate timestamps are not rejected: from any state in gated
    mode, two callbacks whose simulator times truncate to the same
    millisecond get the same timestamp; both succeed and send their
    watermark, the second snapshot replaces the first in
    [_pickled_messages], and the release watermark sends only the second
    point cloud and removes the key, so the first point cloud is never
    sent (the spec's [DuplicateKeyError] is not raised). *)
Theorem duplicate_timestamp_overwrites s pc1 pc2 :
  release_data s = false -> raw_data pc1 <> [] -> raw_data pc2 <> [] ->
  game_time_of (pc_timestamp pc1) = game_time_of (pc_timestamp pc2) ->
  exists s',
    lidar_run s [PointCloudCallback pc1; PointCloudCallback pc2;
                 WatermarkCallback (sim_timestamp (pc_timestamp pc2))] = Ok s' /\
    left_stream s' = left_stream s ++
      [PickledMsg (sim_timestamp (pc_timestamp pc2)) (dumps (from_simulator_point_cloud pc2));
       WatermarkMessage (sim_timestamp (pc_timestamp pc2))] /\
    pickled_messages s' = delete (sim_timestamp (pc_timestamp pc2)) (pickled_messages s) /\
    right_stream s' = right_stream s ++
      [WatermarkMessage (sim_timestamp (pc_timestamp pc2));
       WatermarkMessage (sim_timestamp (pc_timestamp pc2))].
Proof.
  intros Hrel H1 H2 Hg. assert (Ht : sim_timestamp (pc_timestamp pc1) = sim_timestamp (pc_timestamp pc2))
    by (unfold sim_timestamp; by rewrite Hg).
  simpl. rewrite (process_gated _ _ H1 Hrel). simpl. rewrite process_gated; [|exact H2|reflexivity]. simpl.
  rewrite Ht, (on_watermark_release _ _ (dumps (from_simulator_point_cloud pc2))) by
    (reflexivity || (simpl; by rewrite lookup_insert_eq)).
  eexists. split_and!; [reflexivity|reflexivity| |simpl; by rewrite <- app_assoc].
  simpl. by rewrite !delete_insert_eq.
Qed.

End ReleaseGate.

(** ** Concrete runs

    Point clouds are raw bytes and pickle to themselves ([bytes_pickle]);
    the conversion [from_simulator_point_cloud] is [raw_data]. *)

Lemma release_at_most_once_witness :
  let evs := [PointCloudCallback (mkSimPointCloud (1#100) [Byte.x01]);
              PointCloudCallback (mkSimPointCloud (2#100) [Byte.x02]);
              WatermarkCallback (timestamp_of 10); WatermarkCallback (timestamp_of 20)] in
  exists s, lidar_run raw_data lidar_init evs = Ok s /\
    (payloads_for (timestamp_of 10) (left_stream s) <= 1)%nat.
Proof.
  intros evs. eexists. split; [vm_compute; reflexivity|].
  apply (release_at_most_once raw_data evs); [vm_compute; reflexivity|].
  apply (bool_decide_unpack _). vm_compute. exact I.
Defined.

Lemma lidar_refines_gate_witness :
  let evs := [PointCloudCallback (mkSimPointCloud (1#100) [Byte.x01]);
              WatermarkCallback (timestamp_of 10); WatermarkCallback (timestamp_of 10)] in
  GateSpec.gate_run GateSpec.gate_init (gate_event raw_data <$> evs) =
    inl GateSpec.MissingSnapshotError /\
  lidar_run raw_data lidar_init evs = raise KeyError.
Proof.
  intros evs.
  assert (Hg : GateSpec.gate_run GateSpec.gate_init (gate_event raw_data <$> evs) =
                 inl GateSpec.MissingSnapshotError) by (vm_compute; reflexivity).
  split; [exact Hg|].
  refine (proj2 (lidar_refines_gate raw_data lidar_init GateSpec.gate_init evs
                   gate_rel_init _) Hg).
  repeat (constructor || (simpl; discriminate)).
Defined.

Lemma gated_offer_release_witness :
  exists s',
    lidar_run raw_data lidar_init
      [PointCloudCallback (mkSimPointCloud (1#100) [Byte.x01]);
       WatermarkCallback (timestamp_of 10)] = Ok s' /\
    left_stream s' = [PickledMsg (timestamp_of 10) [Byte.x01]; WatermarkMessage (timestamp_of 10)] /\
    lidar_step raw_data s' (WatermarkCallback (timestamp_of 10)) = raise KeyError.
Proof.
  destruct (gated_offer_release raw_data lidar_init (mkSimPointCloud (1#100) [Byte.x01])
              eq_refl ltac:(discriminate)) as (s' & Hrun & Hleft & _ & _ & _ & Hkey).
  exists s'. split_and!; [exact Hrun|exact Hleft|exact Hkey].
Defined.

Lemma release_data_one_way_witness :
  exists s',
    lidar_run raw_data lidar_init
      [PointCloudCallback (mkSimPointCloud (1#100) [Byte.x01]);
       WatermarkCallback top_timestamp;
       WatermarkCallback (timestamp_of 10)] = Ok s' /\
    release_data s' = true.
Proof.
  eexists. split; [vm_compute; reflexivity|].
  erewrite (release_data_one_way raw_data lidar_init
    [PointCloudCallback (mkSimPointCloud (1#100) [Byte.x01]);
     WatermarkCallback top_timestamp; WatermarkCallback (timestamp_of 10)]);
    [reflexivity|vm_compute; reflexivity].
Defined.

Lemma pending_snapshots_sound_witness :
  let s := mkLidarState (PointCloud := list Byte.byte) true {[timestamp_of 10 := [Byte.x01]]} []
             [WatermarkMessage (timestamp_of 10)] in
  is_top (timestamp_of 10) = false /\
  WatermarkMessage (timestamp_of 10) ∈ right_stream s /\
  exists pc, sim_timestamp (pc_timestamp pc) = timestamp_of 10 /\ [Byte.x01] = dumps (raw_data pc).
Proof.
  apply (pending_snapshots_sound raw_data).
  - eapply reach_step; [eapply reach_step; [apply reach_init|]|].
    + exact (eq_refl (Ok (mkLidarState false {[timestamp_of 10 := [Byte.x01]]} []
               [WatermarkMessage (timestamp_of 10)])) :
               lidar_step raw_data lidar_init
                 (PointCloudCallback (mkSimPointCloud (1#100) [Byte.x01])) = _).
    + exact (eq_refl : lidar_step raw_data _ (WatermarkCallback top_timestamp) = _).
  - reflexivity.
Defined.

Lemma pending_release_succeeds_witness :
  exists pc s',
    lidar_step raw_data (mkLidarState false {[timestamp_of 10 := [Byte.x01]]} []
                           [WatermarkMessage (timestamp_of 10)])
      (WatermarkCallback (timestamp_of 10)) = Ok s' /\
    left_stream s' = [PickledMsg (timestamp_of 10) [Byte.x01]; WatermarkMessage (timestamp_of 10)] /\
    pickled_messages s' !! timestamp_of 10 = None /\
    received_data (PickledMsg (D := list Byte.byte) (timestamp_of 10) [Byte.x01]) =
      Some (timestamp_of 10, raw_data pc).
Proof.
  apply (pending_release_succeeds raw_data
           (mkLidarState false {[timestamp_of 10 := [Byte.x01]]} []
              [WatermarkMessage (timestamp_of 10)]) (timestamp_of 10) [Byte.x01]).
  - eapply reach_step; [apply reach_init|].
    exact (eq_refl : lidar_step raw_data lidar_init
                       (PointCloudCallback (mkSimPointCloud (1#100) [Byte.x01])) = _).
  - reflexivity.
Defined.

Lemma duplicate_timestamp_overwrites_witness :
  exists s',
    lidar_run raw_data lidar_init
      [PointCloudCallback (mkSimPointCloud (10#1000) [Byte.x01]);
       PointCloudCallback (mkSimPointCloud (105#10000) [Byte.x02]);
       WatermarkCallback (sim_timestamp (105#10000))] = Ok s' /\
    left_stream s' = [] ++ [PickledMsg (sim_timestamp (105#10000)) [Byte.x02];
                             WatermarkMessage (sim_timestamp (105#10000))].
Proof.
  destruct (duplicate_timestamp_overwrites raw_data lidar_init (mkSimPointCloud (10#1000) [Byte.x01])
              (mkSimPointCloud (105#10000) [Byte.x02]) eq_refl ltac:(discriminate) ltac:(discriminate)
              ltac:(vm_compute; reflexivity)) as (s' & Hrun & Hleft & _).
  exists s'. split; [exact Hrun|exact Hleft].
Defined.

End ReleaseGate.
