(* ===== verification/LidarRun.v ===== *)
(** * The set-up of the lidar driver

    [CarlaLidarDriverOperator.run] of
    [src/pylot/drivers/carla_lidar_driver_operator.py]: the simulator
    handles it acquires first ([get_world], [set_simulation_mode],
    [get_vehicle_handle] on the vehicle id read from the stream, each a
    library call that may raise, so section variables returning [res]),
    the lidar setup switched out of legacy mode on simulators from
    0.9.10, the lidar blueprint's attributes, the spawn of the lidar
    and the registration of [process_point_clouds] as its callback.
    [check_simulator_version] and [LidarSetup.get_range_in_meters] are
    library functions and are section variables.  The blueprint's
    attributes are a dictionary from names to the Python values passed to
    [str()].  The theorems show the set-up's one error path (a lidar
    frequency of [0] divides by zero before the lidar exists) and that
    the range attribute is computed after the legacy switch.  The
    blueprint lookup, [set_attribute], [spawn_actor] and [listen] are
    taken not to raise: which simulator calls fail is not modelled
    beyond the handle acquisitions of [run_connect]. *)

From S2P Require Import Prelude Erdos.

(** [pylot.drivers.sensor_setup.LidarSetup]: the fields [run] reads. *)
Record LidarSetup : Type := mkLidarSetup {
  lidar_type : string;
  channels : Z;
  lidar_range : Q;
  points_per_second : Z;
  rotation_frequency : Z;
  upper_fov : Q;
  lower_fov : Q;
  legacy : bool
}.

(** [LidarSetup.set_legacy(legacy)]. *)
Definition set_legacy (b : bool) (setup : LidarSetup) : LidarSetup :=
  mkLidarSetup (lidar_type setup) (channels setup) (lidar_range setup) (points_per_second setup)
    (rotation_frequency setup) (upper_fov setup) (lower_fov setup) b.

Module LidarRun.
Section LidarRun.

(** The simulator's client version, as [client.get_client_version()] returns it. *)
Context {SimVersion : Type}.
(** [check_simulator_version(version, required_minor, required_patch)]:
    whether the version is at least [0.minor.patch]. *)
Variable check_simulator_version : SimVersion -> nat -> nat -> bool.
(** [LidarSetup.get_range_in_meters()]. *)
Variable get_range_in_meters : LidarSetup -> Q.

(** The simulator handles [run] acquires first (lines 90-96), each call
    possibly raising: [get_world(host, port, timeout)] with the client's
    version ([client.get_client_version()]), [set_simulation_mode(world,
    flags)] and [get_vehicle_handle(world, vehicle_id)]. *)
Context {World Vehicle : Type}.
Variable get_world : res (SimVersion * World).
Variable set_simulation_mode : World -> res unit.
Variable get_vehicle_handle : World -> Z -> res Vehicle.

(** [lidar_blueprint.set_attribute(name, str(value))] for each attribute
    (lines 104-129); [1.0 / self._flags.simulator_lidar_frequency]
    divides by the flag. *)
Definition lidar_blueprint (setup : LidarSetup) (version : SimVersion)
    (simulator_lidar_frequency : Z) : res (gmap string AttrValue) :=
  let bp := <["channels" := AttrInt (channels setup)]> ∅ in
  let bp := if check_simulator_version version 9 7
            then <["range" := AttrFloat (get_range_in_meters setup)]> bp
            else <["range" := AttrFloat (lidar_range setup)]> bp in
  let bp := <["points_per_second" := AttrInt (points_per_second setup)]> bp in
  let bp := <["rotation_frequency" := AttrInt (rotation_frequency setup)]> bp in
  let bp := <["upper_fov" := AttrFloat (upper_fov setup)]> bp in
  let bp := <["lower_fov" := AttrFloat (lower_fov setup)]> bp in
  if decide (simulator_lidar_frequency = -1)%Z then Ok (<["sensor_tick" := AttrStr "0.0"]> bp)
  else
    tick ← py_truediv 1 simulator_lidar_frequency;
    Ok (<["sensor_tick" := AttrFloat tick]> bp).

(** What [run] leaves behind: the (possibly updated) lidar setup, the
    attributes of the spawned lidar, and whether [process_point_clouds]
    is registered with [self._lidar.listen]. *)
Record LidarRunState : Type := mkLidarRunState {
  run_setup : LidarSetup;
  spawned_lidar : option (gmap string AttrValue);
  listening : bool
}.

(** [run] from the version check (lines 98-147): [set_legacy(False)] on
    0.9.10 and later, the blueprint, [spawn_actor] and [listen]. *)
Definition run (setup : LidarSetup) (version : SimVersion) (simulator_lidar_frequency : Z)
  : LidarRunState * option PyError :=
  let setup := if check_simulator_version version 9 10 then set_legacy false setup else setup in
  match lidar_blueprint setup version simulator_lidar_frequency with
  | Ok bp => (mkLidarRunState setup (Some bp) true, None)
  | Err e => (mkLidarRunState setup None false, Some e)
  end.

(** The operator's state after [run]: [self._vehicle] and the rest. *)
Record LidarOperatorState : Type := mkLidarOperatorState {
  op_vehicle : option Vehicle;
  op_run : LidarRunState
}.

(** The whole of [run] (lines 81-147) on the vehicle id read from
    [read_stream]: an exception of a handle acquisition ends [run] before
    anything is set, otherwise the set-up of [run] above, with the
    lidar attached to [self._vehicle]. *)
Definition run_connect (vehicle_id : Z) (setup : LidarSetup) (simulator_lidar_frequency : Z)
  : LidarOperatorState * option PyError :=
  let fail e := (mkLidarOperatorState None (mkLidarRunState setup None false), Some e) in
  match get_world with
  | Err e => fail e
  | Ok (simulator_version, world) =>
      match set_simulation_mode world with
      | Err e => fail e
      | Ok _ =>
          match get_vehicle_handle world vehicle_id with
          | Err e => fail e
          | Ok vehicle =>
              let '(st, err) := run setup simulator_version simulator_lidar_frequency in
              (mkLidarOperatorState (Some vehicle) st, err)
          end
      end
  end.

(** ** Properties of the set-up *)

(** C18. The set-up's outcome: with [--simulator_lidar_frequency 0] the
    sensor tick [1.0 / 0] raises [ZeroDivisionError] before the lidar is
    spawned, so [process_point_clouds] is never registered and the driver
    never receives a point cloud; with any other frequency the lidar is
    spawned and listened to, with sensor tick ["0.0"] for [-1] and
    [1 / frequency] otherwise, and with its range computed after the
    switch out of legacy mode that simulators from 0.9.10 get. *)
Theorem run_setup_outcome setup version freq :
  ((freq = 0)%Z ->
   (run setup version freq).2 = Some ZeroDivisionError /\
   spawned_lidar (run setup version freq).1 = None /\
   listening (run setup version freq).1 = false) /\
  ((freq <> 0)%Z ->
   (run setup version freq).2 = None /\ listening (run setup version freq).1 = true /\
   (check_simulator_version version 9 10 = true -> legacy (run_setup (run setup version freq).1) = false) /\
   exists bp, spawned_lidar (run setup version freq).1 = Some bp /\
     bp !! "sensor_tick" =
       Some (if decide (freq = -1)%Z then AttrStr "0.0" else AttrFloat (1 / inject_Z freq)%Q) /\
     bp !! "range" =
       Some (AttrFloat (if check_simulator_version version 9 7
                        then get_range_in_meters (run_setup (run setup version freq).1)
                        else lidar_range setup))).
Proof.
  unfold run, lidar_blueprint, py_truediv.
  destruct (check_simulator_version version 9 10), (check_simulator_version version 9 7);
    split; intros Hf; simpl;
    repeat case_decide; simplify_eq; simpl;
    first [by split_and! | split_and!; try done; eexists; split; [reflexivity|]; by simplify_map_eq].
Qed.

End LidarRun.

Lemma run_setup_outcome_witness :
  let setup := mkLidarSetup "sensor.lidar.ray_cast" 32 5000 100000 20 15 (-30) true in
  (run (fun _ _ _ => true) (fun s => if legacy s then lidar_range s / 100 else lidar_range s)%Q
       setup tt 0).2 = Some ZeroDivisionError /\
  (run (fun _ _ _ => true) (fun s => if legacy s then lidar_range s / 100 else lidar_range s)%Q
       setup tt 10).2 = None.
Proof.
  intros setup.
  destruct (run_setup_outcome (fun _ _ _ => true)
              (fun s => if legacy s then lidar_range s / 100 else lidar_range s)%Q setup tt 0)
    as [H0 _].
  destruct (run_setup_outcome (fun _ _ _ => true)
              (fun s => if legacy s then lidar_range s / 100 else lidar_range s)%Q setup tt 10)
    as [_ H10].
  split; [apply H0; reflexivity|apply H10; discriminate].
Defined.

End LidarRun.
