(* ===== verification/DetectionDecay.v ===== *)
(** * The detection-decay window

    [DetectionDecayOperator.on_data] of
    [src/pylot/perception/detection/detection_decay_operator.py]: the deque
    [_ground_bboxes] of (game time, person boxes), the eviction loop at its
    front, the scoring of the current frame against every retained frame
    (precision averaged over [_iou_thresholds]) and the append at its back.
    The eviction loop is a structural recursion on the deque.  The
    theorems show that the eviction loop pops a stale prefix and equals a
    filter on sorted windows, that the window keeps
    exactly the frames within the latency bound of the newest key when
    keys are monotone (and not otherwise), that the messages sent are the
    abstract window's observations, and what each observation holds. *)

From S2P Require Import Prelude Erdos Detection.

Module DecayWindow.
Section DecayWindow.

(** [self._flags.decay_max_latency]. *)
Variable decay_max_latency : Z.

(** [self._ground_bboxes], and what [context.write_stream] has been sent:
    [(latency, avg_precision)] messages. *)
Record DecayState : Type := mkDecayState {
  ground_bboxes : list (Z * list BoundingBox2D);
  write_stream : list (Message (Z * Q))
}.

(** [__init__]: an empty deque. *)
Definition decay_init : DecayState := mkDecayState [] [].

(** [self._iou_thresholds = [0.1 * i for i in range(1, 10)]]. *)
Definition iou_thresholds : list Q :=
  map (fun i => (inject_Z i * (1#10))%Q) (seqZ 1 9).

(** The person boxes of a frame (lines 31-35). *)
Definition person_bboxes (obstacles : list Obstacle) : list BoundingBox2D :=
  map bounding_box (filter (fun o => is_person o = true) obstacles).

(** [while len(q) > 0 and game_time - q[0][0] > decay_max_latency: q.popleft()]. *)
Fixpoint evict_old (game_time : Z) (q : list (Z * list BoundingBox2D))
  : list (Z * list BoundingBox2D) :=
  match q with
  | (t, b) :: q' =>
      if decide (decay_max_latency < game_time - t)%Z then evict_old game_time q' else q
  | [] => []
  end.

(** [avg_precision = float(sum(precisions)) / len(precisions)]. *)
Definition average_precision (bboxes old_bboxes : list BoundingBox2D) : Q :=
  let precisions :=
    map (fun iou => fst (get_precision_recall_at_iou bboxes old_bboxes iou)) iou_thresholds in
  (Qsum precisions / inject_Z (Z.of_nat (length precisions)))%Q.

(** The scoring loop over the retained frames (lines 44-64). *)
Definition score_window (timestamp : Timestamp) (game_time : Z)
    (bboxes : list BoundingBox2D) (q : list (Z * list BoundingBox2D))
  : list (Message (Z * Q)) :=
  flat_map (fun '((old_game_time, old_bboxes) : Z * list BoundingBox2D) =>
      if bool_decide (bboxes <> [] \/ old_bboxes <> []) then
        [Msg timestamp ((game_time - old_game_time)%Z, average_precision bboxes old_bboxes)]
      else []) q.

(** [on_data(context, data)] with [data['obstacles'] = obstacles]. *)
Definition on_data (s : DecayState) (timestamp : Timestamp) (obstacles : list Obstacle)
  : res DecayState :=
  match coordinates timestamp with
  | [game_time] =>
      let bboxes := person_bboxes obstacles in
      let q := evict_old game_time (ground_bboxes s) in
      Ok (mkDecayState (q ++ [(game_time, bboxes)])
            (write_stream s ++ score_window timestamp game_time bboxes q))
  | _ => raise AssertionError
  end.

(** A sequence of frames delivered to [on_data], oldest first. *)
Fixpoint run_frames (s : DecayState) (frames : list (Z * list Obstacle)) : res DecayState :=
  match frames with
  | [] => Ok s
  | (g, obs) :: frames' => s' ← on_data s (timestamp_of g) obs; run_frames s' frames'
  end.

(** Whether a buffered frame is within the latency bound of [game_time]. *)
Definition within (game_time : Z) (entry : Z * list BoundingBox2D) : Prop :=
  (game_time - entry.1 <= decay_max_latency)%Z.

(** The window invariant at the newest key [g]: keys sorted, none newer
    than [g], none older than the latency bound. *)
Definition window_inv (g : Z) (q : list (Z * list BoundingBox2D)) : Prop :=
  StronglySorted (fun a b => a.1 <= b.1)%Z q /\ Forall (fun e => e.1 <= g /\ within g e)%Z q.

(** The frames of a sequence as the deque stores them. *)
Definition frame_entries (frames : list (Z * list Obstacle)) : list (Z * list BoundingBox2D) :=
  map (fun '(g, obs) => (g, person_bboxes obs)) frames.

(** Keys that never decrease. *)
Definition monotone_keys (frames : list (Z * list Obstacle)) : Prop :=
  StronglySorted (fun a b => a.1 <= b.1)%Z frames.

(** The key of the newest frame of a sequence. *)
Definition last_key (frames : list (Z * list Obstacle)) : Z :=
  default 0%Z (last (map fst frames)).

#[local] Instance within_dec g e : Decision (within g e).
Proof. unfold within. apply _. Defined.

(** The observations of the abstract window (spec §4.4): each frame is
    scored against every earlier frame within the latency bound of its
    key, oldest first. *)
Fixpoint observe_from (earlier : list (Z * list BoundingBox2D)) (frames : list (Z * list Obstacle))
  : list (Message (Z * Q)) :=
  match frames with
  | [] => []
  | (g, obs) :: frames' =>
      score_window (timestamp_of g) g (person_bboxes obs)
        (filter (within g) earlier) ++
      observe_from (earlier ++ [(g, person_bboxes obs)]) frames'
  end.

Definition decay_observations (frames : list (Z * list Obstacle)) : list (Message (Z * Q)) :=
  observe_from [] frames.

(** ** The eviction loop *)

Lemma evict_old_filter g q :
  StronglySorted (fun a b => a.1 <= b.1)%Z q -> evict_old g q = filter (within g) q.
Proof.
  induction 1 as [|[t b] q _ IH HF]; [done|]. simpl.
  case_decide as Hold.
  - rewrite filter_cons_False by (unfold within; simpl; lia). exact IH.
  - symmetry. apply filter_all. intros e He%elem_of_cons. unfold within.
    destruct He as [->|He]; simpl; [lia|].
    rewrite Forall_forall in HF. specialize (HF e He). simpl in HF. lia.
Qed.

Lemma evict_old_prefix g q :
  exists pre, q = pre ++ evict_old g q /\ Forall (fun e => ~ within g e) pre.
Proof.
  induction q as [|[t b] q (pre & IH & Hpre)]; [by exists []|]. simpl.
  case_decide as Hold.
  - exists ((t, b) :: pre). split; [simpl; by f_equal|].
    constructor; [unfold within; simpl; lia|exact Hpre].
  - by exists [].
Qed.

Lemma within_mono g g' e : (g <= g')%Z -> within g' e -> within g e.
Proof. unfold within. lia. Qed.

Lemma filter_within_twice g g' (q : list (Z * list BoundingBox2D)) :
  (g <= g')%Z -> filter (within g') (filter (within g) q) = filter (within g') q.
Proof. intros Hg. apply list_filter_filter_l. intros e. by apply within_mono. Qed.

Lemma run_frames_app s fs1 fs2 :
  run_frames s (fs1 ++ fs2) = (s' ← run_frames s fs1; run_frames s' fs2).
Proof.
  revert s. induction fs1 as [|[g obs] fs1 IH]; intros s; simpl; [done|].
  destruct (on_data s (timestamp_of g) obs); simpl; [apply IH|done].
Qed.

Lemma frame_entries_sorted frames :
  monotone_keys frames -> StronglySorted (fun a b => a.1 <= b.1)%Z (frame_entries frames).
Proof.
  induction 1 as [|[g obs] frames _ IH HF]; [constructor|]. simpl. constructor; [exact IH|].
  unfold frame_entries. apply List.Forall_map.
  eapply Forall_impl; [exact HF|]. by intros [g' obs'].
Qed.

Lemma frame_entries_app frames g obs :
  frame_entries (frames ++ [(g, obs)]) = frame_entries frames ++ [(g, person_bboxes obs)].
Proof. unfold frame_entries. by rewrite map_app. Qed.

Lemma observe_from_snoc earlier frames g obs :
  observe_from earlier (frames ++ [(g, obs)]) =
  observe_from earlier frames ++
    score_window (timestamp_of g) g (person_bboxes obs)
      (filter (within g) (earlier ++ frame_entries frames)).
Proof.
  revert earlier. induction frames as [|[g' obs'] frames IH]; intros earlier; simpl.
  - by rewrite !app_nil_r.
  - rewrite IH, <- app_assoc. by rewrite <- app_assoc.
Qed.

Lemma last_key_snoc frames g obs : last_key (frames ++ [(g, obs)]) = g.
Proof. unfold last_key. rewrite map_app. cbn [map fst]. by rewrite last_snoc. Qed.

Lemma last_key_le frames g obs :
  frames <> [] -> monotone_keys (frames ++ [(g, obs)]) -> (last_key frames <= g)%Z.
Proof.
  intros Hne Hmono. unfold last_key.
  destruct (last (map fst frames)) as [k|] eqn:Hk.
  - apply last_Some_elem_of, list_elem_of_fmap in Hk as ([k' obs'] & -> & Hin).
    eapply (StronglySorted_app_1_elem_of _ _ _ _ (g, obs) Hmono Hin). by left.
  - apply last_None in Hk. destruct frames; simpl in *; congruence.
Qed.

(** ** The averaged precision *)

Lemma iou_thresholds_length : length iou_thresholds = 9%nat.
Proof. reflexivity. Qed.

Lemma average_precision_bounds bboxes old :
  (0 <= average_precision bboxes old <= 1)%Q.
Proof.
  unfold average_precision. apply Qdiv_len_bounds.
  - rewrite length_map, iou_thresholds_length. lia.
  - apply Qsum_bounds. apply List.Forall_map, Forall_forall. intros thr _.
    simpl. apply ratio_bounds, true_positives_le_first.
Qed.

(** The scoring loop emits one bounded observation per retained frame
    with a person on either side. *)
Lemma score_window_spec ts g bboxes q :
  Forall (fun e => e.1 <= g /\ within g e)%Z q ->
  length (score_window ts g bboxes q) =
    length (filter (fun e => bboxes <> [] \/ e.2 <> []) q) /\
  Forall (fun m => exists lat p, m = Msg ts (lat, p) /\
            (0 <= lat <= decay_max_latency)%Z /\ (0 <= p <= 1)%Q)
         (score_window ts g bboxes q).
Proof.
  induction 1 as [|[t old] q [Ht Hw] _ [IHlen IHall]]; [done|].
  unfold within in Hw. simpl in *. rewrite filter_cons.
  case_bool_decide as Hside; case_decide; simpl; try tauto.
  split; [by f_equal|]. constructor; [|exact IHall].
  eexists _, _. split; [reflexivity|]. split; [lia|apply average_precision_bounds].
Qed.

Lemma iou_thresholds_le_1 : Forall (fun thr => (thr <= 1)%Q) iou_thresholds.
Proof. repeat constructor; discriminate. Qed.

(** ** Properties of the decay window *)

(** C23. The eviction loop pops exactly a prefix of frames older than the
    latency bound, and on a deque sorted by key it keeps exactly the
    frames within the bound: it equals a filter. *)
Theorem evict_old_equiv_filter g q :
  StronglySorted (fun a b => a.1 <= b.1)%Z q ->
  evict_old g q = filter (within g) q /\
  exists pre, q = pre ++ evict_old g q /\ Forall (fun e => ~ within g e) pre.
Proof. intros Hs. split; [by apply evict_old_filter|apply evict_old_prefix]. Qed.

(** C9. The window invariant is preserved: if the deque is sorted, no
    newer than [g] and within the bound of [g], then after [on_data] at a
    key [g' >= g] it is sorted, no newer than [g'] and within the bound
    of [g'] (for a non-negative bound). *)
Theorem on_data_window_inv s g g' obs s' :
  (0 <= decay_max_latency)%Z ->
  window_inv g (ground_bboxes s) -> (g <= g')%Z ->
  on_data s (timestamp_of g') obs = Ok s' ->
  window_inv g' (ground_bboxes s').
Proof.
  intros HL [Hsort Hall] Hg Hon. unfold on_data in Hon. simpl in Hon. res_inv. simpl.
  rewrite evict_old_filter by exact Hsort.
  rewrite Forall_forall in Hall.
  split.
  - apply StronglySorted_app_2; [|by apply StronglySorted_filter|repeat constructor].
    intros e1 e2 He1%list_elem_of_filter ->%list_elem_of_singleton.
    destruct (Hall e1 (proj2 He1)). simpl. lia.
  - apply Forall_app. split.
    + apply Forall_forall. intros e He%list_elem_of_filter.
      destruct (Hall e (proj2 He)). split; [lia|apply He].
    + repeat constructor; unfold within; simpl; lia.
Qed.

(** C4. Refinement of the abstract window: for frames with
    non-decreasing keys and a non-negative bound, [on_data] never fails;
    the deque after the last frame is exactly the subsequence of all
    frames seen that lie within the latency bound of the newest key; and
    the messages sent are exactly the abstract observations: each frame
    scored, in order, against every earlier frame within the bound of its
    key. *)
Theorem run_frames_refines frames :
  (0 <= decay_max_latency)%Z -> monotone_keys frames ->
  exists s, run_frames decay_init frames = Ok s /\
    ground_bboxes s = filter (within (last_key frames)) (frame_entries frames) /\
    write_stream s = decay_observations frames.
Proof.
  intros HL. induction frames as [|[g obs] frames IH] using rev_ind; intros Hmono.
  - by exists decay_init.
  - pose proof (StronglySorted_app_1_l _ _ _ Hmono) as Hpre.
    destruct (IH Hpre) as (s & Hrun & Hwin & Hout).
    assert (Hq : evict_old g (ground_bboxes s) = filter (within g) (frame_entries frames)).
    { rewrite Hwin, evict_old_filter by (apply StronglySorted_filter, frame_entries_sorted, Hpre).
      destruct frames as [|f frames]; [done|].
      apply filter_within_twice, (last_key_le _ _ obs); [done|exact Hmono]. }
    rewrite run_frames_app, Hrun. simpl. unfold on_data. simpl.
    eexists. split; [reflexivity|]. simpl. rewrite Hq. split.
    + rewrite last_key_snoc, frame_entries_app, filter_app.
      rewrite filter_cons_True by (unfold within; simpl; lia). by rewrite filter_nil.
    + unfold decay_observations. by rewrite observe_from_snoc, Hout.
Qed.

(** C25. What each call emits: from a state satisfying the window
    invariant at [g], [on_data] at [g' >= g] appends one message per
    retained frame in which either frame has a person, each carrying a
    latency in [[0, decay_max_latency]] and an averaged precision in
    [[0, 1]]. *)
Theorem on_data_observations s g g' obs s' :
  window_inv g (ground_bboxes s) -> (g <= g')%Z ->
  on_data s (timestamp_of g') obs = Ok s' ->
  exists out,
    write_stream s' = write_stream s ++ out /\
    length out = length (filter (fun e => person_bboxes obs <> [] \/ e.2 <> [])
                           (evict_old g' (ground_bboxes s))) /\
    Forall (fun m => exists lat p, m = Msg (timestamp_of g') (lat, p) /\
              (0 <= lat <= decay_max_latency)%Z /\ (0 <= p <= 1)%Q) out.
Proof.
  intros [Hsort Hall] Hg Hon. unfold on_data in Hon. simpl in Hon. res_inv. simpl.
  eexists. split; [reflexivity|]. apply score_window_spec.
  rewrite evict_old_filter by exact Hsort. rewrite Forall_forall in Hall |- *.
  intros e He%list_elem_of_filter. destruct (Hall e (proj2 He)). split; [lia|apply He].
Qed.

(** C31. A static scene scores perfectly: a non-empty frame of
    well-formed boxes compared with an identical earlier frame has
    averaged precision [1]. *)
Theorem static_scene_full_precision bboxes :
  bboxes <> [] -> Forall well_formed bboxes ->
  (average_precision bboxes bboxes == 1)%Q.
Proof.
  intros Hne Hwf. unfold average_precision. rewrite length_map, iou_thresholds_length.
  rewrite (Qsum_ext _ (fun _ => 1%Q)).
  - rewrite Qsum_map_const, iou_thresholds_length. reflexivity.
  - intros thr Hthr. simpl. rewrite true_positives_self.
    + apply ratio_full. by destruct bboxes.
    + intros e He. rewrite Forall_forall in Hwf.
      change (overlap e e) with (calculate_iou e e). rewrite iou_self by (apply Hwf, He).
      exact (proj1 (Forall_forall _ _) iou_thresholds_le_1 thr Hthr).
Qed.

(** C37. Eviction inspects only the front of the deque: from any deque
    whose front frame is within the latency bound of the new key,
    [on_data] evicts nothing, so every frame behind the front, stale ones
    included, stays buffered, and each stale frame (key [k] with
    [game_time - k > decay_max_latency]) with a person on either side is
    scored into an observation whose latency exceeds the bound.  Keys
    that decrease make such deques: the window invariant holds only under
    the spec's monotone keys. *)
Theorem nonmonotone_keys_keep_stale s g obs e q s' :
  ground_bboxes s = e :: q -> (g - e.1 <= decay_max_latency)%Z ->
  on_data s (timestamp_of g) obs = Ok s' ->
  ground_bboxes s' = e :: q ++ [(g, person_bboxes obs)] /\
  forall k old, (k, old) ∈ q -> (decay_max_latency < g - k)%Z ->
    person_bboxes obs <> [] \/ old <> [] ->
    exists p, Msg (timestamp_of g) ((g - k)%Z, p) ∈ write_stream s'.
Proof.
  intros Hq He Hrun. unfold on_data in Hrun. simpl in Hrun. rewrite Hq in Hrun.
  destruct e as [t b]. simpl in He, Hrun. rewrite decide_False in Hrun by lia.
  injection Hrun as <-. cbn [ground_bboxes write_stream]. split; [done|].
  intros k old Hin _ Hne. exists (average_precision (person_bboxes obs) old).
  apply elem_of_app. right. unfold score_window. cbn [flat_map]. apply elem_of_app. right.
  apply list_elem_of_In, in_flat_map. exists (k, old).
  split; [by apply list_elem_of_In|]. rewrite bool_decide_true by done. by left.
Qed.

End DecayWindow.

#[export] Existing Instance within_dec.

(** Frames of one person in the same box. *)
Lemma run_frames_refines_witness :
  let frames := [(0%Z, [mkObstacle 1 "person" (mkBoundingBox2D 0 10 0 10)]);
                 (50%Z, [mkObstacle 1 "person" (mkBoundingBox2D 0 10 0 10)]);
                 (120%Z, [mkObstacle 1 "person" (mkBoundingBox2D 0 10 0 10)])] in
  exists s,
    run_frames 100 decay_init frames = Ok s /\
    ground_bboxes s = filter (within 100 (last_key frames)) (frame_entries frames) /\
    write_stream s = decay_observations 100 frames.
Proof.
  intros frames. apply (run_frames_refines 100 frames); [lia|].
  repeat constructor; simpl; lia.
Defined.

Lemma evict_old_equiv_filter_witness :
  evict_old 100 260 [(0%Z, []); (50%Z, []); (120%Z, []); (260%Z, [])] =
    filter (within 100 260) [(0%Z, []); (50%Z, []); (120%Z, []); (260%Z, [])] /\
  exists pre, [(0%Z, []); (50%Z, []); (120%Z, []); (260%Z, [])] =
      pre ++ evict_old 100 260 [(0%Z, []); (50%Z, []); (120%Z, []); (260%Z, [])] /\
    Forall (fun e => ~ within 100 260 e) pre.
Proof. apply evict_old_equiv_filter. repeat constructor; simpl; lia. Defined.

Lemma on_data_window_inv_witness :
  exists s',
    on_data 100 (mkDecayState [(0%Z, []); (50%Z, [])] []) (timestamp_of 120) [] = Ok s' /\
    window_inv 100 120 (ground_bboxes s').
Proof.
  eexists. split; [reflexivity|].
  apply (on_data_window_inv 100 (mkDecayState [(0%Z, []); (50%Z, [])] []) 50 120 []);
    [lia| |lia|reflexivity].
  split; repeat constructor; unfold within; simpl; lia.
Defined.

Lemma on_data_observations_witness :
  exists s',
    on_data 100 (mkDecayState [(0%Z, [mkBoundingBox2D 0 10 0 10]);
                               (50%Z, [mkBoundingBox2D 0 10 0 10])] [])
      (timestamp_of 120) [mkObstacle 1 "person" (mkBoundingBox2D 0 10 0 10)] = Ok s' /\
    exists out, write_stream s' = [] ++ out /\
    length out = length (filter (fun e => person_bboxes [mkObstacle 1 "person" (mkBoundingBox2D 0 10 0 10)] <> [] \/ e.2 <> [])
                           (evict_old 100 120 [(0%Z, [mkBoundingBox2D 0 10 0 10]);
                                               (50%Z, [mkBoundingBox2D 0 10 0 10])])) /\
    Forall (fun m => exists lat p, m = Msg (timestamp_of 120) (lat, p) /\
              (0 <= lat <= 100)%Z /\ (0 <= p <= 1)%Q) out.
Proof.
  eexists. split; [reflexivity|].
  apply (on_data_observations 100 (mkDecayState [(0%Z, [mkBoundingBox2D 0 10 0 10]);
                                                 (50%Z, [mkBoundingBox2D 0 10 0 10])] [])
           50 120); [|lia|reflexivity].
  split; repeat constructor; unfold within; simpl; lia.
Defined.

Lemma static_scene_full_precision_witness :
  (average_precision [mkBoundingBox2D 0 10 0 10; mkBoundingBox2D 20 30 0 5]
                     [mkBoundingBox2D 0 10 0 10; mkBoundingBox2D 20 30 0 5] == 1)%Q.
Proof.
  apply static_scene_full_precision; [discriminate|].
  repeat constructor; simpl; lia.
Defined.

Lemma nonmonotone_keys_keep_stale_witness :
  let box := mkBoundingBox2D 0 10 0 10 in
  exists s', on_data 100 (mkDecayState [(200%Z, [box]); (50%Z, [box])] []) (timestamp_of 160)
               [mkObstacle 1 "person" box] = Ok s' /\
    exists p, Msg (timestamp_of 160) ((160 - 50)%Z, p) ∈ write_stream s'.
Proof.
  intros box. eexists. split; [vm_compute; reflexivity|].
  eapply (proj2 (nonmonotone_keys_keep_stale 100 (mkDecayState [(200%Z, [box]); (50%Z, [box])] [])
                   160 [mkObstacle 1 "person" box] (200%Z, [box]) [(50%Z, [box])] _
                   eq_refl ltac:(simpl; lia) eq_refl)).
  - by left.
  - lia.
  - right. discriminate.
Defined.

End DecayWindow.
