(* ===== verification/Trajectory.v ===== *)
(** * Trajectory metrics of the prediction evaluator

    [PredictionEvalOperator._calculate_metrics] of
    [src/pylot/prediction/prediction_eval_operator.py]: for every obstacle
    prediction, its predicted and ground-truth trajectories reduced to 2D
    points, compared pairwise from the most recent point backwards with
    Python's negative indexing, giving MSD, ADE and FDE; the per-class
    (vehicle, person) running sums and counts; and the CSV rows logged.
    [Vector2D] and its distances are not under [src/] and follow the spec
    (§4.5: MSD sums squared distances, ADE and FDE Manhattan distances).
    The theorems give the metrics on uniformly offset trajectories,
    the equivalence of the index loop with a reference over aligned
    suffixes, and the errors the code raises. *)

From S2P Require Import Prelude Erdos Detection.

(** [pylot.utils.Location] and [Transform]; only the location is read. *)
Record Location : Type := mkLocation { loc_x : Q; loc_y : Q; loc_z : Q }.
Record Transform : Type := mkTransform {
  location : Location;
  pitch : Q; yaw : Q; roll : Q
}.

(** [pylot.utils.Vector2D]. *)
Record Vector2D : Type := mkVector2D { vec_x : Q; vec_y : Q }.

(** [Vector2D.l1_distance]: Manhattan distance. *)
Definition l1_distance (a b : Vector2D) : Q :=
  (Qabs (vec_x a - vec_x b) + Qabs (vec_y a - vec_y b))%Q.

(** [Vector2D.l2_distance] as the spec reads it for MSD: squared distance. *)
Definition l2_distance (a b : Vector2D) : Q :=
  ((vec_x a - vec_x b) ^ 2 + (vec_y a - vec_y b) ^ 2)%Q.

(** An [ObstaclePrediction]: tracker id, label, predicted transforms. *)
Record ObstaclePrediction : Type := mkObstaclePrediction {
  pred_id : Z;
  pred_label : string;
  predicted_trajectory : list Transform
}.

(** An [ObstacleTrajectory]: tracker id, label, past transforms. *)
Record ObstacleTrajectory : Type := mkObstacleTrajectory {
  traj_id : Z;
  traj_label : string;
  trajectory : list Transform
}.

(** One CSV row [time,sim_time,prediction,<metric>,<value>]; the wall-clock
    column and the 4-digit rounding of the value are not modelled. *)
Record CsvRow : Type := mkCsvRow {
  row_sim_time : Z;
  row_metric : string;
  row_value : Q
}.

Module Metrics.

(** [Vector2D(transform.location.x, transform.location.y)]: altitude dropped. *)
Definition to_vector2d (t : Transform) : Vector2D :=
  mkVector2D (loc_x (location t)) (loc_y (location t)).

(** The loop [for idx in range(1, n + 1)] accumulating [l2_distance] and
    [l1_distance] of [predicted[-idx]] and [ground[-idx]]. *)
Fixpoint displacement_sums (predicted ground : list Vector2D) (n : nat) : res (Q * Q) :=
  match n with
  | O => Ok (0%Q, 0%Q)
  | S k =>
      '(l2, l1) ← displacement_sums predicted ground k;
      p ← py_index_neg predicted (S k);
      g ← py_index_neg ground (S k);
      Ok ((l2 + l2_distance p g)%Q, (l1 + l1_distance p g)%Q)
  end.

(** MSD, ADE and FDE of one obstacle (lines 140-151). *)
Definition obstacle_metrics (predicted ground : list Vector2D) : res (Q * Q * Q) :=
  '(l2, l1) ← displacement_sums predicted ground (length predicted);
  msd ← py_div l2 (length predicted);
  ade ← py_div l1 (length predicted);
  p ← py_index_neg predicted 1;
  g ← py_index_neg ground 1;
  Ok (msd, ade, l1_distance p g).

(** The running count and sums of one class. *)
Record ClassSums : Type := mkClassSums {
  cnt : nat; msd_sum : Q; ade_sum : Q; fde_sum : Q
}.

Definition empty_sums : ClassSums := mkClassSums 0 0 0 0.

Definition add_sums (s : ClassSums) (m : Q * Q * Q) : ClassSums :=
  let '(msd, ade, fde) := m in
  mkClassSums (S (cnt s)) (msd_sum s + msd)%Q (ade_sum s + ade)%Q (fde_sum s + fde)%Q.

(** One iteration of [for obstacle_prediction in predictions] on the
    (vehicle, person) sums. *)
Definition score_prediction (ground_trajectories : gmap Z ObstacleTrajectory)
    (acc : ClassSums * ClassSums) (op : ObstaclePrediction) : res (ClassSums * ClassSums) :=
  let predicted := map to_vector2d (predicted_trajectory op) in
  gt ← (match ground_trajectories !! pred_id op with
        | Some gt => Ok gt | None => raise KeyError end);
  let ground := map to_vector2d (trajectory gt) in
  if is_vehicle_label (pred_label op) then
    m ← obstacle_metrics predicted ground; Ok (add_sums acc.1 m, acc.2)
  else if is_person_label (pred_label op) then
    m ← obstacle_metrics predicted ground; Ok (acc.1, add_sums acc.2 m)
  else raise ValueError.

(** The loop over all predictions; the first exception aborts it. *)
Fixpoint score_predictions (ground_trajectories : gmap Z ObstacleTrajectory)
    (acc : ClassSums * ClassSums) (preds : list ObstaclePrediction)
  : res (ClassSums * ClassSums) :=
  match preds with
  | [] => Ok acc
  | op :: preds' =>
      acc' ← score_prediction ground_trajectories acc op;
      score_predictions ground_trajectories acc' preds'
  end.

(** The three rows of one scope, each sum divided by the count. *)
Definition class_rows (sim_time : Z) (scope : string) (n : nat) (msd ade fde : Q)
  : list CsvRow :=
  let d := inject_Z (Z.of_nat n) in
  [mkCsvRow sim_time (scope +:+ "MSD") (msd / d)%Q;
   mkCsvRow sim_time (scope +:+ "ADE") (ade / d)%Q;
   mkCsvRow sim_time (scope +:+ "FDE") (fde / d)%Q].

(** The CSV rows of lines 164-202: combined, then person, then vehicle. *)
Definition report_rows (sim_time : Z) (vehicle person : ClassSums) : list CsvRow :=
  let actor_cnt := (cnt person + cnt vehicle)%nat in
  (if decide (0 < actor_cnt)%nat then
     class_rows sim_time "" actor_cnt
       (msd_sum person + msd_sum vehicle) (ade_sum person + ade_sum vehicle)
       (fde_sum person + fde_sum vehicle)
   else []) ++
  (if decide (0 < cnt person)%nat then
     class_rows sim_time "person-" (cnt person) (msd_sum person) (ade_sum person) (fde_sum person)
   else []) ++
  (if decide (0 < cnt vehicle)%nat then
     class_rows sim_time "vehicle-" (cnt vehicle) (msd_sum vehicle) (ade_sum vehicle) (fde_sum vehicle)
   else []).

(** [_calculate_metrics(timestamp, ground_trajectories, predictions)]:
    the CSV rows it logs. *)
Definition calculate_metrics (timestamp : Timestamp)
    (ground_trajectories : gmap Z ObstacleTrajectory) (predictions : list ObstaclePrediction)
  : res (list CsvRow) :=
  '(vehicle, person) ← score_predictions ground_trajectories (empty_sums, empty_sums) predictions;
  sim_time ← (match coordinates timestamp with
              | g :: _ => Ok g | [] => raise IndexError end);
  Ok (report_rows sim_time vehicle person).

(** The reference metrics: [IndexError] when the ground truth is shorter
    than the prediction, [ZeroDivisionError] on an empty prediction, and
    otherwise the last [length predicted] ground points aligned with the
    predicted ones, averaged, with FDE on the two last points. *)
Definition reference_metrics (predicted ground : list Vector2D) : res (Q * Q * Q) :=
  if decide (length ground < length predicted)%nat then raise IndexError
  else match last predicted, last ground with
       | Some p, Some g =>
           let aligned := lastn (length predicted) ground in
           let n := inject_Z (Z.of_nat (length predicted)) in
           Ok (Qsum (zip_with l2_distance predicted aligned) / n,
               Qsum (zip_with l1_distance predicted aligned) / n,
               l1_distance p g)%Q
       | _, _ => raise ZeroDivisionError
       end.

(** The value logged under a metric name, if any. *)
Definition row_value_of (name : string) (rows : list CsvRow) : option Q :=
  row_value <$> List.find (fun r => String.eqb (row_metric r) name) rows.

(** Every point of the ground truth displaced by [(dx, dy)]. *)
Definition shift (dx dy : Q) (v : Vector2D) : Vector2D :=
  mkVector2D (vec_x v + dx)%Q (vec_y v + dy)%Q.

(** ** The index loop against sums over aligned suffixes *)

(** The index loop and the per-obstacle metrics raise only [IndexError]
    and [ZeroDivisionError]. *)
Lemma displacement_sums_raises p g k :
  raises_only (fun e => e = IndexError) (displacement_sums p g k).
Proof.
  induction k as [|k IH]; simpl; [apply raises_only_ret|].
  apply raises_only_bind; [exact IH|]. intros [l2 l1].
  apply raises_only_bind; [apply py_index_neg_raises|intros x].
  apply raises_only_bind; [apply py_index_neg_raises|intros y]. apply raises_only_ret.
Qed.

Lemma obstacle_metrics_raises p g :
  raises_only (fun e => e = IndexError \/ e = ZeroDivisionError) (obstacle_metrics p g).
Proof.
  unfold obstacle_metrics.
  apply raises_only_bind; [intros e He; left; by apply (displacement_sums_raises p g (length p))|].
  intros [l2 l1].
  apply raises_only_bind; [intros e He; right; by eapply py_div_raises|intros msd].
  apply raises_only_bind; [intros e He; right; by eapply py_div_raises|intros ade].
  apply raises_only_bind; [intros e He; left; by eapply py_index_neg_raises|intros x].
  apply raises_only_bind; [intros e He; left; by eapply py_index_neg_raises|intros y].
  apply raises_only_ret.
Qed.

Lemma displacement_sums_ok p g k :
  (k <= length p)%nat -> (k <= length g)%nat ->
  exists a b, displacement_sums p g k = Ok (a, b) /\
    (a == Qsum (zip_with l2_distance (lastn k p) (lastn k g)))%Q /\
    (b == Qsum (zip_with l1_distance (lastn k p) (lastn k g)))%Q.
Proof.
  induction k as [|k IH]; intros Hp Hg.
  - exists 0%Q, 0%Q. rewrite !lastn_0. split; [reflexivity|]. split; reflexivity.
  - destruct IH as (a & b & Hk & Ha & Hb); [lia|lia|].
    destruct (lastn_S p k) as (x & Hx & Hpx); [lia|].
    destruct (lastn_S g k) as (y & Hy & Hgy); [lia|].
    simpl. rewrite Hk. simpl. rewrite Hx, Hy. simpl.
    eexists _, _. split; [reflexivity|].
    rewrite Hpx, Hgy. cbn [zip_with]. rewrite !Qsum_cons, Ha, Hb. split; ring.
Qed.

Lemma displacement_sums_short p g k :
  (length g < k)%nat -> (k <= length p)%nat -> displacement_sums p g k = raise IndexError.
Proof.
  induction k as [|k IH]; intros Hg Hp; [lia|]. simpl.
  destruct (decide (length g < k)%nat) as [Hlt|Hge].
  - rewrite IH by lia. reflexivity.
  - destruct (displacement_sums_ok p g k) as (a & b & Hk & _ & _); [lia|lia|].
    rewrite Hk. simpl. destruct (py_index_neg_lookup p (S k)) as (x & Hx & _); [lia|].
    rewrite Hx. simpl. rewrite py_index_neg_out by lia. reflexivity.
Qed.

Lemma last_Some_ne {A} (l : list A) : l <> [] -> exists x, last l = Some x.
Proof. intros Hne. destruct (last l) eqn:Hl; [by eexists|]. by apply last_None in Hl. Qed.

Lemma zip_with_map_r {A B C} (f : A -> B -> C) (s : A -> B) (l : list A) :
  zip_with f l (map s l) = map (fun x => f x (s x)) l.
Proof. induction l as [|x l IH]; simpl; [done|]. by rewrite IH. Qed.

Lemma last_map {A B} (s : A -> B) (l : list A) : last (map s l) = s <$> last l.
Proof. induction l as [|x [|y l] IH]; simpl in *; done. Qed.

(** A ground truth that is a pointwise image of the prediction, with
    constant squared and Manhattan distances [c2] and [c1], gives
    MSD [c2] and ADE and FDE [c1]. *)
Lemma obstacle_metrics_pointwise p (s : Vector2D -> Vector2D) c2 c1 :
  p <> [] ->
  (forall x, l2_distance x (s x) == c2)%Q -> (forall x, l1_distance x (s x) == c1)%Q ->
  res_rel Qeq3 (obstacle_metrics p (map s p)) (Ok (c2, c1, c1)).
Proof.
  intros Hne H2 H1. unfold obstacle_metrics.
  destruct (displacement_sums_ok p (map s p) (length p)) as (a & b & Hk & Ha & Hb);
    [lia|rewrite length_map; lia|].
  rewrite Hk. simpl. assert (Hn : length p <> 0%nat) by (destruct p; simpl; congruence).
  rewrite !py_div_Ok by exact Hn. simpl.
  destruct (last_Some_ne p Hne) as [x Hx].
  rewrite (py_index_neg_1_last p x Hx), (py_index_neg_1_last (map s p) (s x))
    by (rewrite last_map, Hx; reflexivity).
  simpl. rewrite (lastn_all (length p) p) in Ha, Hb by lia.
  rewrite (lastn_all (length p) (map s p)) in Ha, Hb by (rewrite length_map; lia).
  rewrite zip_with_map_r in Ha, Hb.
  rewrite (Qsum_ext _ (fun _ => c2)) in Ha by (intros; apply H2).
  rewrite (Qsum_ext _ (fun _ => c1)) in Hb by (intros; apply H1).
  rewrite Qsum_map_const in Ha, Hb. unfold Qeq3; simpl.
  rewrite Ha, Hb, !Qdiv_len_mult by exact Hn. split_and!; [reflexivity|reflexivity|apply H1].
Qed.

Lemma score_prediction_class gt acc op acc' :
  score_prediction gt acc op = Ok acc' ->
  (is_vehicle_label (pred_label op) = true /\ cnt acc'.1 = S (cnt acc.1) /\ cnt acc'.2 = cnt acc.2) \/
  (is_vehicle_label (pred_label op) = false /\ is_person_label (pred_label op) = true /\
   cnt acc'.1 = cnt acc.1 /\ cnt acc'.2 = S (cnt acc.2)).
Proof.
  unfold score_prediction. intros H. bind_ok H.
  destruct (is_vehicle_label _) eqn:Hv; [|destruct (is_person_label _) eqn:Hp]; [| |discriminate].
  - bind_ok H. res_inv. left. destruct a0 as [[? ?] ?]. simpl. auto.
  - bind_ok H. res_inv. right. destruct a0 as [[? ?] ?]. simpl. auto.
Qed.

(** ** Properties of the trajectory metrics *)

(** C8. The index loop refines the reference: for any predicted and
    ground trajectories, the metrics computed with [predicted[-idx]] and
    [ground[-idx]] equal (up to [Qeq]) the averages over the prediction
    aligned with the last points of the ground truth, and the code raises
    exactly when the reference does: [IndexError] for a shorter ground
    truth, [ZeroDivisionError] for an empty prediction.  A longer ground
    truth is accepted. *)
Theorem obstacle_metrics_refines p g :
  res_rel Qeq3 (obstacle_metrics p g) (reference_metrics p g).
Proof.
  unfold reference_metrics. case_decide as Hlen.
  - unfold obstacle_metrics. rewrite displacement_sums_short by lia. reflexivity.
  - destruct (last p) as [lp|] eqn:Hlp.
    2:{ apply last_None in Hlp. subst p. reflexivity. }
    assert (Hp : p <> []) by (intros ->; discriminate).
    destruct (last_Some_ne g) as [lg Hlg]; [intros ->; destruct p; simpl in *; [congruence|lia]|].
    rewrite Hlg. unfold obstacle_metrics.
    destruct (displacement_sums_ok p g (length p)) as (a & b & Hk & Ha & Hb); [lia|lia|].
    rewrite Hk. simpl. assert (Hn : length p <> 0%nat) by (destruct p; simpl; congruence).
    rewrite !py_div_Ok by exact Hn. simpl.
    rewrite (py_index_neg_1_last p lp Hlp), (py_index_neg_1_last g lg Hlg). simpl.
    rewrite (lastn_all (length p) p) in Ha, Hb by lia.
    unfold Qeq3; simpl. rewrite Ha, Hb. split_and!; reflexivity.
Qed.

(** C24. A constant offset: when every ground point is the predicted
    point moved by [(dx, dy)], MSD is [dx^2 + dy^2] and ADE and FDE are
    [|dx| + |dy|]. *)
Theorem constant_offset_metrics p dx dy :
  p <> [] ->
  res_rel Qeq3 (obstacle_metrics p (map (shift dx dy) p))
    (Ok (dx ^ 2 + dy ^ 2, Qabs dx + Qabs dy, Qabs dx + Qabs dy)%Q).
Proof.
  intros Hne. apply obstacle_metrics_pointwise; [exact Hne| |]; intros [x y];
    unfold l2_distance, l1_distance, shift; cbn [vec_x vec_y].
  - ring.
  - setoid_replace (x - (x + dx))%Q with (- dx)%Q using relation Qeq by ring.
    setoid_replace (y - (y + dy))%Q with (- dy)%Q using relation Qeq by ring.
    rewrite !Qabs_opp. reflexivity.
Qed.

(** C35. Errors of one prediction: a prediction whose id has no ground
    trajectory raises [KeyError]; one whose label is neither a vehicle
    nor a person raises [ValueError]. *)
Theorem score_prediction_errors gt acc op :
  (gt !! pred_id op = None -> score_prediction gt acc op = raise KeyError) /\
  (is_Some (gt !! pred_id op) -> is_vehicle_label (pred_label op) = false ->
   is_person_label (pred_label op) = false -> score_prediction gt acc op = raise ValueError).
Proof.
  unfold score_prediction. split.
  - intros Hn. by rewrite Hn.
  - intros [t Ht] Hv Hp. by rewrite Ht, Hv, Hp.
Qed.

(** C28. Classification is exhaustive and exclusive: when scoring all
    predictions succeeds, every prediction was counted exactly once, as a
    vehicle if its label is a vehicle label and as a person otherwise. *)
Theorem score_predictions_counts gt preds v p :
  score_predictions gt (empty_sums, empty_sums) preds = Ok (v, p) ->
  cnt v = length (filter (fun op => is_vehicle_label (pred_label op) = true) preds) /\
  cnt p = length (filter (fun op => is_vehicle_label (pred_label op) = false) preds) /\
  (cnt v + cnt p = length preds)%nat.
Proof.
  enough (Hgen : forall acc, score_predictions gt acc preds = Ok (v, p) ->
    cnt v = (cnt acc.1 + length (filter (fun op => is_vehicle_label (pred_label op) = true) preds))%nat /\
    cnt p = (cnt acc.2 + length (filter (fun op => is_vehicle_label (pred_label op) = false) preds))%nat).
  { intros H. destruct (Hgen _ H) as [Hv Hp]. simpl in Hv, Hp. split_and!; [done|done|].
    rewrite Hv, Hp. clear. induction preds as [|op preds IH]; [done|].
    rewrite !filter_cons. destruct (is_vehicle_label (pred_label op)); simpl;
      repeat case_decide; simpl in *; try congruence; lia. }
  induction preds as [|op preds IH]; intros acc H; simpl in H.
  - res_inv. simpl. lia.
  - bind_ok H. apply IH in H. apply score_prediction_class in Hm.
    rewrite !filter_cons.
    destruct Hm as [(Hv & H1 & H2)|(Hv & _ & H1 & H2)]; rewrite Hv in *;
      repeat case_decide; simpl in *; try congruence; lia.
Qed.

(** C30. The combined row is the count-weighted mean of the class rows:
    when both classes were scored, the logged [MSD] (and likewise [ADE],
    [FDE]) equals [(n_person * person-MSD + n_vehicle * vehicle-MSD) /
    (n_person + n_vehicle)]. *)
Theorem combined_row_weighted_mean sim_time v p :
  (0 < cnt v)%nat -> (0 < cnt p)%nat ->
  exists c pm vm,
    row_value_of "MSD" (report_rows sim_time v p) = Some c /\
    row_value_of "person-MSD" (report_rows sim_time v p) = Some pm /\
    row_value_of "vehicle-MSD" (report_rows sim_time v p) = Some vm /\
    (c == (inject_Z (Z.of_nat (cnt p)) * pm + inject_Z (Z.of_nat (cnt v)) * vm) /
          inject_Z (Z.of_nat (cnt p + cnt v)))%Q.
Proof.
  intros Hv Hp. unfold report_rows.
  rewrite !decide_True by lia.
  eexists _, _, _. split_and!; [reflexivity|reflexivity|reflexivity|].
  rewrite Nat2Z.inj_add, inject_Z_plus.
  assert (Hcp : ~ inject_Z (Z.of_nat (cnt p)) == 0%Q).
  { change 0%Q with (inject_Z 0). rewrite inject_Z_injective. lia. }
  assert (Hcv : ~ inject_Z (Z.of_nat (cnt v)) == 0%Q).
  { change 0%Q with (inject_Z 0). rewrite inject_Z_injective. lia. }
  assert (Hsum : ~ inject_Z (Z.of_nat (cnt p)) + inject_Z (Z.of_nat (cnt v)) == 0%Q).
  { rewrite <- inject_Z_plus. change 0%Q with (inject_Z 0). rewrite inject_Z_injective. lia. }
  simpl. field. split_and!; assumption.
Qed.

Lemma constant_offset_metrics_witness :
  res_rel Qeq3 (obstacle_metrics [mkVector2D 0 0; mkVector2D 1 2]
                  (map (shift 3 (-4)) [mkVector2D 0 0; mkVector2D 1 2]))
    (Ok (3 ^ 2 + (-4) ^ 2, Qabs 3 + Qabs (-4), Qabs 3 + Qabs (-4))%Q).
Proof. apply constant_offset_metrics. discriminate. Defined.

Lemma score_prediction_errors_witness :
  score_prediction ∅ (empty_sums, empty_sums) (mkObstaclePrediction 1 "car" []) = raise KeyError /\
  score_prediction {[1%Z := mkObstacleTrajectory 1 "tree" []]} (empty_sums, empty_sums)
    (mkObstaclePrediction 1 "tree" []) = raise ValueError.
Proof.
  split.
  - apply (score_prediction_errors ∅). reflexivity.
  - apply (score_prediction_errors {[1%Z := mkObstacleTrajectory 1 "tree" []]});
      [by eexists|reflexivity|reflexivity].
Defined.

Lemma score_predictions_counts_witness :
  let tr := [mkTransform (mkLocation 0 0 0) 0 0 0] in
  let gt : gmap Z ObstacleTrajectory :=
    {[1%Z := mkObstacleTrajectory 1 "car" tr; 2%Z := mkObstacleTrajectory 2 "person" tr]} in
  let preds := [mkObstaclePrediction 1 "car" tr; mkObstaclePrediction 2 "person" tr] in
  exists v p, score_predictions gt (empty_sums, empty_sums) preds = Ok (v, p) /\
    cnt v = length (filter (fun op => is_vehicle_label (pred_label op) = true) preds) /\
    cnt p = length (filter (fun op => is_vehicle_label (pred_label op) = false) preds) /\
    (cnt v + cnt p = length preds)%nat.
Proof.
  intros tr gt preds. eexists _, _. split; [vm_compute; reflexivity|].
  apply (score_predictions_counts gt preds). vm_compute. reflexivity.
Defined.

Lemma combined_row_weighted_mean_witness :
  exists c pm vm,
    row_value_of "MSD" (report_rows 10 (mkClassSums 1 2 0 0) (mkClassSums 3 6 0 0)) = Some c /\
    row_value_of "person-MSD" (report_rows 10 (mkClassSums 1 2 0 0) (mkClassSums 3 6 0 0)) = Some pm /\
    row_value_of "vehicle-MSD" (report_rows 10 (mkClassSums 1 2 0 0) (mkClassSums 3 6 0 0)) = Some vm /\
    (c == (inject_Z (Z.of_nat 3) * pm + inject_Z (Z.of_nat 1) * vm) /
          inject_Z (Z.of_nat (3 + 1)))%Q.
Proof. apply (combined_row_weighted_mean 10 (mkClassSums 1 2 0 0) (mkClassSums 3 6 0 0)); simpl; lia. Defined.

End Metrics.
