(* ===== verification/PredictionEval.v ===== *)
(** * The prediction evaluator's alignment state machine

    [PredictionEvalOperator] of
    [src/pylot/prediction/prediction_eval_operator.py] apart from
    [_calculate_metrics] (in [Trajectory]): the three FIFO buffers filled by
    [on_data], the bounded deque [_predictions] of the last
    [prediction_num_future_steps] prediction batches, and [on_watermark],
    which pops one message of each stream and, once the deque is full,
    scores its oldest batch against the current ground truth.  The state
    also records the calls of [_calculate_metrics] (timestamp and scored
    batch), which is how the schedule of the state machine is observed.
    The theorems show the whole run as one equation (pops, deque, scoring
    passes and the CSV rows they log), the warm-up/scoring schedule, the
    bound on the deque,
    the starvation and zero-horizon errors, and the round trip of the
    ground-truth dictionary with the [KeyError] it makes [_calculate_metrics]
    raise. *)

From S2P Require Import Prelude Erdos Detection Trajectory.

(** [pylot.utils.Pose]: the ego transform and speed. *)
Record Pose : Type := mkPose { pose_transform : Transform; forward_speed : Q }.

(** The three payload types [on_data] dispatches on, and anything else. *)
Inductive EvalInput : Type :=
| PoseInput (p : Pose)
| TrackingInput (obstacle_trajectories : list ObstacleTrajectory)
| PredictionInput (preds : list ObstaclePrediction)
| OtherInput.

Module Evaluator.
Section Evaluator.

(** [self._flags.prediction_num_future_steps]. *)
Variable prediction_num_future_steps : nat.

(** [ego_transform * transform] ([Transform.__mul__], outside [src/]). *)
Variable transform_mul : Transform -> Transform -> Transform.

Record EvalState : Type := mkEvalState {
  prediction_msgs : list (list ObstaclePrediction);
  tracking_msgs : list (list ObstacleTrajectory);
  pose_msgs : list Pose;
  predictions : list (list ObstaclePrediction);
  csv_rows : list CsvRow;
  metric_calls : list (Timestamp * list ObstaclePrediction)
}.

(** [__init__]: empty buffers and an empty bounded deque. *)
Definition eval_init : EvalState := mkEvalState [] [] [] [] [] [].

(** [_on_prediction_update], [_on_tracking_update], [_on_pose_update]. *)
Definition on_prediction_update (s : EvalState) (d : list ObstaclePrediction) : EvalState :=
  mkEvalState (prediction_msgs s ++ [d]) (tracking_msgs s) (pose_msgs s)
    (predictions s) (csv_rows s) (metric_calls s).

Definition on_tracking_update (s : EvalState) (d : list ObstacleTrajectory) : EvalState :=
  mkEvalState (prediction_msgs s) (tracking_msgs s ++ [d]) (pose_msgs s)
    (predictions s) (csv_rows s) (metric_calls s).

Definition on_pose_update (s : EvalState) (d : Pose) : EvalState :=
  mkEvalState (prediction_msgs s) (tracking_msgs s) (pose_msgs s ++ [d])
    (predictions s) (csv_rows s) (metric_calls s).

(** [on_data]: dispatch on the payload type. *)
Definition on_data (s : EvalState) (d : EvalInput) : res EvalState :=
  match d with
  | PoseInput p => Ok (on_pose_update s p)
  | TrackingInput t => Ok (on_tracking_update s t)
  | PredictionInput p => Ok (on_prediction_update s p)
  | OtherInput => raise ValueError
  end.

(** [ObstacleTrajectory.to_world_coordinates(vehicle_transform)]. *)
Definition trajectory_to_world (ego : Transform) (t : ObstacleTrajectory) : ObstacleTrajectory :=
  mkObstacleTrajectory (traj_id t) (traj_label t) (map (transform_mul ego) (trajectory t)).

(** [ObstaclePrediction.to_world_coordinates(vehicle_transform)]. *)
Definition prediction_to_world (ego : Transform) (p : ObstaclePrediction) : ObstaclePrediction :=
  mkObstaclePrediction (pred_id p) (pred_label p)
    (map (transform_mul ego) (predicted_trajectory p)).

(** [ground_trajectories_dict]: later ids overwrite earlier ones. *)
Definition ground_trajectories_dict (ego : Transform) (ts : list ObstacleTrajectory)
  : gmap Z ObstacleTrajectory :=
  foldl (fun m t => <[traj_id t := trajectory_to_world ego t]> m) ∅ ts.

(** [on_watermark(context)] at [context.timestamp = timestamp]. *)
Definition on_watermark (s : EvalState) (timestamp : Timestamp) : res EvalState :=
  if is_top timestamp then Ok s
  else
    '(tracking_msg, tracking') ← popleft (tracking_msgs s);
    '(prediction_msg, prediction') ← popleft (prediction_msgs s);
    '(pose, pose') ← popleft (pose_msgs s);
    let vehicle_transform := pose_transform pose in
    '(rows, calls) ←
      (if decide (length (predictions s) = prediction_num_future_steps) then
         let gt := ground_trajectories_dict vehicle_transform tracking_msg in
         oldest ← (match predictions s with p :: _ => Ok p | [] => raise IndexError end);
         rows ← Metrics.calculate_metrics timestamp gt oldest;
         Ok (rows, [(timestamp, oldest)])
       else Ok ([], []));
    let prediction_msg' := map (prediction_to_world vehicle_transform) prediction_msg in
    Ok (mkEvalState prediction' tracking' pose'
          (deque_append prediction_num_future_steps (predictions s) prediction_msg')
          (csv_rows s ++ rows) (metric_calls s ++ calls)).

(** A sequence of watermarks. *)
Fixpoint run_watermarks (s : EvalState) (tss : list Timestamp) : res EvalState :=
  match tss with
  | [] => Ok s
  | t :: tss' => s' ← on_watermark s t; run_watermarks s' tss'
  end.

(** The prediction batch appended at a watermark, in world coordinates
    of the pose popped at the same watermark. *)
Definition converted_batch (pose : Pose) (batch : list ObstaclePrediction)
  : list ObstaclePrediction :=
  map (prediction_to_world (pose_transform pose)) batch.

(** The ground truth built at each watermark: the tracking message popped
    with the pose, in the pose's world coordinates. *)
Definition ground_dicts (T : list (list ObstacleTrajectory)) (Po : list Pose)
  : list (gmap Z ObstacleTrajectory) :=
  zip_with (fun po tr => ground_trajectories_dict (pose_transform po) tr) Po T.

(** The arguments of the scoring passes of the watermarks [tss]: at the
    [k]-th watermark, [k >= prediction_num_future_steps], its timestamp,
    the [k]-th ground truth and the batch of the
    [(k - prediction_num_future_steps)]-th watermark. *)
Definition scoring_inputs P T Po (tss : list Timestamp)
  : list (Timestamp * (gmap Z ObstacleTrajectory * list ObstaclePrediction)) :=
  zip (drop prediction_num_future_steps tss)
      (zip (drop prediction_num_future_steps (take (length tss) (ground_dicts T Po)))
           (take (length tss - prediction_num_future_steps) (zip_with converted_batch Po P))).

Definition score_input (x : Timestamp * (gmap Z ObstacleTrajectory * list ObstaclePrediction))
  : res (list CsvRow) :=
  Metrics.calculate_metrics x.1 x.2.1 x.2.2.

(** ** One watermark *)

Lemma on_watermark_step s t p P' tr T' po Po' s' :
  is_top t = false ->
  tracking_msgs s = tr :: T' -> prediction_msgs s = p :: P' -> pose_msgs s = po :: Po' ->
  on_watermark s t = Ok s' ->
  prediction_msgs s' = P' /\ tracking_msgs s' = T' /\ pose_msgs s' = Po' /\
  predictions s' = deque_append prediction_num_future_steps (predictions s) (converted_batch po p) /\
  (length (predictions s) = prediction_num_future_steps -> exists oldest rest, predictions s = oldest :: rest /\
     metric_calls s' = metric_calls s ++ [(t, oldest)]) /\
  (length (predictions s) <> prediction_num_future_steps -> metric_calls s' = metric_calls s).
Proof.
  intros Htop Ht Hp Hpo H. unfold on_watermark in H. rewrite Htop, Ht, Hp, Hpo in H.
  simpl in H. case_decide as Hlen.
  - destruct (predictions s) as [|oldest rest] eqn:Hpr; simpl in H; [discriminate|].
    apply bind_Ok in H as (rc & Hrc & H).
    apply bind_Ok in Hrc as (rows & Hrows & Hret). res_inv.
    simpl. split_and!; try done.
    all: intros; first [by eexists _, _ | contradiction].
  - simpl in H. res_inv. simpl. split_and!; try done.
    all: intros; first [contradiction | by rewrite app_nil_r].
Qed.

Lemma run_watermarks_app s tss1 tss2 :
  run_watermarks s (tss1 ++ tss2) = (s' ← run_watermarks s tss1; run_watermarks s' tss2).
Proof.
  revert s. induction tss1 as [|t tss1 IH]; intros s; simpl; [done|].
  destruct (on_watermark s t); simpl; [apply IH|done].
Qed.

(** ** The schedule of scoring passes *)

Lemma sched_calls_scoring (tss : list Timestamp) t (C : list (list ObstaclePrediction)) c :
  (prediction_num_future_steps <= length tss)%nat -> (length tss < length C)%nat -> C !! (length tss - prediction_num_future_steps)%nat = Some c ->
  zip (drop prediction_num_future_steps (tss ++ [t])) (take (S (length tss) - prediction_num_future_steps) C) =
  zip (drop prediction_num_future_steps tss) (take (length tss - prediction_num_future_steps) C) ++ [(t, c)].
Proof.
  intros HW HC Hc. rewrite drop_app_le by lia.
  replace (S (length tss) - prediction_num_future_steps)%nat with (S (length tss - prediction_num_future_steps)) by lia.
  rewrite (take_S_r _ _ _ Hc), zip_with_app; [reflexivity|].
  rewrite length_drop, length_take. lia.
Qed.

Lemma sched_calls_warmup (tss : list Timestamp) t (C : list (list ObstaclePrediction)) :
  (length tss < prediction_num_future_steps)%nat ->
  zip (drop prediction_num_future_steps (tss ++ [t])) (take (S (length tss) - prediction_num_future_steps) C) =
  zip (drop prediction_num_future_steps tss) (take (length tss - prediction_num_future_steps) C).
Proof.
  intros HW. rewrite !drop_ge by (rewrite ?length_app; simpl; lia).
  replace (S (length tss) - prediction_num_future_steps)%nat with 0%nat by lia.
  replace (length tss - prediction_num_future_steps)%nat with 0%nat by lia. reflexivity.
Qed.

Lemma sched_predictions (C : list (list ObstaclePrediction)) k c :
  C !! k = Some c -> deque_append prediction_num_future_steps (lastn prediction_num_future_steps (take k C)) c = lastn prediction_num_future_steps (take (S k) C).
Proof.
  intros Hc. unfold deque_append. rewrite lastn_lastn_snoc. by rewrite (take_S_r _ _ _ Hc).
Qed.

Lemma drop_cons_lookup {A} (l : list A) k :
  (k < length l)%nat -> exists x, l !! k = Some x /\ drop k l = x :: drop (S k) l.
Proof.
  intros Hk. destruct (lookup_lt_is_Some_2 l k Hk) as [x Hx].
  exists x. split; [exact Hx|]. by apply drop_S.
Qed.

(** The state after [n] watermarks over buffered streams: [n] messages
    popped from each buffer, the deque holding the last [prediction_num_future_steps] converted
    batches, and one [_calculate_metrics] call per watermark after the
    first [prediction_num_future_steps], on the batch received [prediction_num_future_steps] watermarks earlier. *)
Lemma run_schedule P T Po tss rows0 calls0 s :
  Forall (fun t => is_top t = false) tss ->
  (length tss <= length P)%nat -> (length tss <= length T)%nat -> (length tss <= length Po)%nat ->
  run_watermarks (mkEvalState P T Po [] rows0 calls0) tss = Ok s ->
  prediction_msgs s = drop (length tss) P /\ tracking_msgs s = drop (length tss) T /\
  pose_msgs s = drop (length tss) Po /\
  predictions s = lastn prediction_num_future_steps (take (length tss) (zip_with converted_batch Po P)) /\
  metric_calls s = calls0 ++ zip (drop prediction_num_future_steps tss) (take (length tss - prediction_num_future_steps) (zip_with converted_batch Po P)).
Proof.
  revert s. induction tss as [|t tss IH] using rev_ind; intros s Htop HP HT HPo Hrun.
  - simpl in Hrun. res_inv. simpl. rewrite drop_nil. simpl. rewrite app_nil_r.
    split_and!; reflexivity.
  - rewrite length_app in HP, HT, HPo. simpl in HP, HT, HPo.
    apply Forall_app in Htop as [Htop [Ht _]%Forall_cons].
    rewrite run_watermarks_app in Hrun. bind_ok Hrun. simpl in Hrun.
    bind_ok Hrun. simpl in Hrun. res_inv.
    destruct (IH a Htop ltac:(lia) ltac:(lia) ltac:(lia) Hm) as (HP1 & HT1 & HPo1 & Hpr1 & Hc1).
    destruct (drop_cons_lookup P (length tss)) as (p & Hp & HdP); [lia|].
    destruct (drop_cons_lookup T (length tss)) as (tr & Htr & HdT); [lia|].
    destruct (drop_cons_lookup Po (length tss)) as (po & Hpo & HdPo); [lia|].
    rewrite HdP in HP1. rewrite HdT in HT1. rewrite HdPo in HPo1.
    destruct (on_watermark_step _ _ _ _ _ _ _ _ _ Ht HT1 HP1 HPo1 Hm0)
      as (HP2 & HT2 & HPo2 & Hpr2 & Hscore & Hwarm).
    assert (Hlen : length (zip_with converted_batch Po P) = Nat.min (length Po) (length P))
      by apply length_zip_with.
    rewrite length_app. simpl. rewrite Nat.add_1_r. split_and!; [done|done|done| |].
    + rewrite Hpr2, Hpr1. apply sched_predictions.
      rewrite lookup_zip_with, Hpo, Hp. reflexivity.
    + rewrite Hpr1, lastn_length, length_take, Hlen in Hscore, Hwarm.
      destruct (decide (prediction_num_future_steps <= length tss)%nat) as [HW|HW].
      * destruct Hscore as (oldest & rest & Hold & Hcalls); [lia|].
        assert (Hold2 : (prediction_num_future_steps <= length tss)%nat) by lia.
        rewrite Hcalls, Hc1, <- app_assoc. f_equal. symmetry.
        apply sched_calls_scoring; [lia|lia|].
        apply (lastn_take_head _ _ _ _ rest Hold2); [rewrite Hlen; lia|exact Hold].
      * rewrite Hwarm by lia. rewrite Hc1. f_equal. symmetry. apply sched_calls_warmup. lia.
Qed.

(** ** The arguments of the scoring passes *)

Lemma scoring_inputs_warmup P T Po tss t :
  (length tss < prediction_num_future_steps)%nat ->
  scoring_inputs P T Po (tss ++ [t]) = [] /\ scoring_inputs P T Po tss = [].
Proof.
  intros HW. unfold scoring_inputs.
  rewrite !(drop_ge (_ ++ [_])), !(drop_ge tss) by (rewrite ?length_app; simpl; lia). done.
Qed.

Lemma scoring_inputs_snoc P T Po tss t g c :
  (prediction_num_future_steps <= length tss)%nat ->
  (length tss < length P)%nat -> (length tss < length T)%nat -> (length tss < length Po)%nat ->
  ground_dicts T Po !! length tss = Some g ->
  zip_with converted_batch Po P !! (length tss - prediction_num_future_steps)%nat = Some c ->
  scoring_inputs P T Po (tss ++ [t]) = scoring_inputs P T Po tss ++ [(t, (g, c))].
Proof.
  intros HW HP HT HPo Hg Hc. unfold scoring_inputs. rewrite length_app, Nat.add_1_r. simpl.
  assert (HG : length (ground_dicts T Po) = Nat.min (length Po) (length T)) by apply length_zip_with.
  assert (HC : length (zip_with converted_batch Po P) = Nat.min (length Po) (length P))
    by apply length_zip_with.
  replace (S (length tss) - prediction_num_future_steps)%nat
    with (S (length tss - prediction_num_future_steps)) by lia.
  rewrite (take_S_r _ _ _ Hg), (take_S_r _ _ _ Hc), !drop_app_le by (rewrite ?length_take; lia).
  rewrite (zip_with_app _ _ [g]), zip_with_app; [done| |];
    rewrite ?length_zip_with, !length_drop, ?length_take; lia.
Qed.

(** ** The ground-truth dictionary *)

Lemma ground_trajectories_dict_snoc ego ts t :
  ground_trajectories_dict ego (ts ++ [t]) =
  <[traj_id t := trajectory_to_world ego t]> (ground_trajectories_dict ego ts).
Proof. unfold ground_trajectories_dict. by rewrite foldl_app. Qed.

(** Scoring a prediction raises [KeyError] exactly when its id is
    missing from the dictionary. *)
Lemma score_prediction_key gt acc op :
  Metrics.score_prediction gt acc op = raise KeyError <-> gt !! pred_id op = None.
Proof.
  unfold Metrics.score_prediction. destruct (gt !! pred_id op) as [g|]; simpl; [|done].
  split; [|done]. intros H.
  destruct (Metrics.obstacle_metrics _ _) as [m|e] eqn:Hm.
  - destruct (is_vehicle_label (pred_label op)), (is_person_label (pred_label op)); simpl in H; discriminate.
  - destruct (Metrics.obstacle_metrics_raises _ _ e Hm) as [-> | ->];
      destruct (is_vehicle_label (pred_label op)), (is_person_label (pred_label op)); simpl in H; discriminate.
Qed.

(** Looking an id up in the dictionary gives the world-frame trajectory
    of the last tracked obstacle with that id. *)
Lemma ground_trajectories_dict_lookup ego ts id :
  ground_trajectories_dict ego ts !! id =
  trajectory_to_world ego <$> last (filter (fun t => traj_id t = id) ts).
Proof.
  induction ts as [|t ts IH] using rev_ind; [done|].
  rewrite ground_trajectories_dict_snoc, filter_app.
  destruct (decide (traj_id t = id)) as [<-|Hne].
  - rewrite filter_cons_True, filter_nil, last_snoc by done. by rewrite lookup_insert_eq.
  - rewrite filter_cons_False, filter_nil, app_nil_r by done. by rewrite lookup_insert_ne.
Qed.

(** ** Properties of the evaluator *)

(** C6. The whole run of the evaluator's alignment state machine: with
    a positive horizon [W], [n] non-top watermarks over buffered streams
    pop [n] messages from each buffer, leave the last [W] converted
    batches in the deque, and call [_calculate_metrics] once per
    watermark from the [(W+1)]-th on, at the [k]-th watermark on the
    [k]-th ground truth and the batch received [W] watermarks earlier,
    converted with its own pose; the CSV log grows by exactly the rows of
    these calls, in order, and the first exception one of them raises is
    the run's. *)
Theorem run_watermarks_schedule P T Po tss rows0 calls0 :
  (0 < prediction_num_future_steps)%nat ->
  Forall (fun t => is_top t = false) tss ->
  (length tss <= length P)%nat -> (length tss <= length T)%nat -> (length tss <= length Po)%nat ->
  run_watermarks (mkEvalState P T Po [] rows0 calls0) tss =
  (rows ← mapM score_input (scoring_inputs P T Po tss);
   Ok (mkEvalState (drop (length tss) P) (drop (length tss) T) (drop (length tss) Po)
         (lastn prediction_num_future_steps (take (length tss) (zip_with converted_batch Po P)))
         (rows0 ++ concat rows)
         (calls0 ++ zip (drop prediction_num_future_steps tss)
                         (take (length tss - prediction_num_future_steps) (zip_with converted_batch Po P))))).
Proof.
  intros H0. induction tss as [|t tss IH] using rev_ind; intros Htop HP HT HPo.
  - simpl. unfold scoring_inputs, lastn. simpl. rewrite !drop_nil. simpl. by rewrite !app_nil_r.
  - rewrite length_app in HP, HT, HPo. simpl in HP, HT, HPo.
    apply Forall_app in Htop as [Htop [Ht _]%Forall_cons].
    rewrite run_watermarks_app, IH by first [exact Htop | lia].
    destruct (drop_cons_lookup P (length tss)) as (p & Hp & HdP); [lia|].
    destruct (drop_cons_lookup T (length tss)) as (tr & Htr & HdT); [lia|].
    destruct (drop_cons_lookup Po (length tss)) as (po & Hpo & HdPo); [lia|].
    set (C := zip_with converted_batch Po P).
    assert (HC : length C = Nat.min (length Po) (length P)) by apply length_zip_with.
    assert (HCn : C !! length tss = Some (converted_batch po p))
      by (unfold C; rewrite lookup_zip_with, Hpo, Hp; reflexivity).
    assert (Hgn : ground_dicts T Po !! length tss = Some (ground_trajectories_dict (pose_transform po) tr))
      by (unfold ground_dicts; rewrite lookup_zip_with, Hpo, Htr; reflexivity).
    rewrite length_app, Nat.add_1_r.
    destruct (decide (prediction_num_future_steps <= length tss)%nat) as [HW|HW].
    + destruct (lookup_lt_is_Some_2 C (length tss - prediction_num_future_steps)) as [c Hc]; [lia|].
      rewrite (scoring_inputs_snoc P T Po tss t _ c HW ltac:(lia) ltac:(lia) ltac:(lia) Hgn Hc).
      rewrite mapM_res_snoc.
      destruct (mapM score_input (scoring_inputs P T Po tss)) as [rows|e]; simpl; [|done].
      unfold on_watermark. rewrite Ht. simpl. rewrite HdT, HdP, HdPo. simpl.
      rewrite decide_True by (rewrite lastn_length, length_take; lia).
      destruct (lastn prediction_num_future_steps (take (length tss) C)) as [|oldest rest] eqn:Hl.
      { apply (f_equal length) in Hl. rewrite lastn_length, length_take in Hl. simpl in Hl. lia. }
      assert (Ho : C !! (length tss - prediction_num_future_steps)%nat = Some oldest)
        by (apply (lastn_take_head _ _ _ _ rest HW); [lia|exact Hl]).
      rewrite Hc in Ho. injection Ho as <-. rewrite <- Hl. unfold score_input. simpl.
      destruct (Metrics.calculate_metrics t _ c) as [r|e]; simpl; [|done].
      change (map (prediction_to_world (pose_transform po)) p) with (converted_batch po p).
      rewrite (sched_predictions _ _ _ HCn), (sched_calls_scoring tss t C c), concat_app
        by (try lia; exact Hc).
      simpl. by rewrite app_nil_r, !app_assoc.
    + destruct (scoring_inputs_warmup P T Po tss t) as [-> ->]; [lia|]. simpl.
      unfold on_watermark. rewrite Ht. simpl. rewrite HdT, HdP, HdPo. simpl.
      rewrite decide_False by (rewrite lastn_length, length_take; lia).
      simpl. change (map (prediction_to_world (pose_transform po)) p) with (converted_batch po p).
      rewrite (sched_predictions _ _ _ HCn), (sched_calls_warmup tss t C) by lia.
      by rewrite !app_nil_r.
Qed.

(** C16. Insert/lookup round trip of the ground-truth dictionary, and its
    use by [_calculate_metrics]: the dictionary built from a tracking
    message maps each id to the world-frame trajectory of the last
    obstacle of the message with that id (later ones overwrite earlier
    ones), and scoring a prediction against it raises [KeyError] exactly
    when no obstacle of the message has the prediction's id. *)
Theorem ground_dict_roundtrip ego ts acc op :
  ground_trajectories_dict ego ts !! pred_id op =
    trajectory_to_world ego <$> last (filter (fun t => traj_id t = pred_id op) ts) /\
  (Metrics.score_prediction (ground_trajectories_dict ego ts) acc op = raise KeyError <->
   Forall (fun t => traj_id t <> pred_id op) ts).
Proof.
  rewrite score_prediction_key, ground_trajectories_dict_lookup.
  split; [done|]. rewrite fmap_None, last_None, Forall_forall. split.
  - intros Hnil t Ht Hid. by apply (filter_nil_not_elem_of _ _ t Hnil Hid).
  - intros Hall. apply filter_none. intros t Ht. by apply Hall.
Qed.

(** C10. The warm-up count: from a fresh deque, [n] watermarks lead to
    exactly [n - W] (that is [max(0, n - W)]) scoring passes; the first
    pass happens at the [(W+1)]-th watermark, not at the [W]-th. *)
Theorem scoring_pass_count P T Po tss s :
  Forall (fun t => is_top t = false) tss ->
  (length tss <= length P)%nat -> (length tss <= length T)%nat -> (length tss <= length Po)%nat ->
  run_watermarks (mkEvalState P T Po [] [] []) tss = Ok s ->
  length (metric_calls s) = (length tss - prediction_num_future_steps)%nat.
Proof.
  intros Htop HP HT HPo Hrun.
  destruct (run_schedule P T Po tss [] [] s) as (_ & _ & _ & _ & Hc); try assumption.
  rewrite Hc. simpl. rewrite length_zip_with, length_drop, length_take, length_zip_with. lia.
Qed.

(** C26. The deque never exceeds the horizon: after any successful
    watermark, [_predictions] holds at most [W] batches, and a non-top
    watermark grows it by one until it is full. *)
Theorem predictions_bounded s t s' :
  on_watermark s t = Ok s' ->
  (length (predictions s) <= prediction_num_future_steps)%nat ->
  (length (predictions s') <= prediction_num_future_steps)%nat /\
  (is_top t = false ->
   length (predictions s') = Nat.min prediction_num_future_steps (S (length (predictions s)))).
Proof.
  intros H Hle. unfold on_watermark in H. destruct (is_top t) eqn:Htop.
  - res_inv. split; [exact Hle|discriminate].
  - destruct (tracking_msgs s) as [|tr T']; simpl in H; [discriminate|].
    destruct (prediction_msgs s) as [|p P']; simpl in H; [discriminate|].
    destruct (pose_msgs s) as [|po Po']; simpl in H; [discriminate|].
    apply bind_Ok in H as (rc & _ & H). destruct rc. res_inv. simpl.
    rewrite deque_append_length. split; [lia|done].
Qed.

(** C33. Watermark guards: the top watermark changes nothing, and a
    non-top watermark finding any of the three buffers empty raises
    [IndexError] (a starved stream aborts the watermark). *)
Theorem on_watermark_guards s t :
  (is_top t = true -> on_watermark s t = Ok s) /\
  (is_top t = false ->
   tracking_msgs s = [] \/ prediction_msgs s = [] \/ pose_msgs s = [] ->
   on_watermark s t = raise IndexError).
Proof.
  unfold on_watermark. split; intros Htop; rewrite Htop; [done|].
  intros [Hs|[Hs|Hs]]; rewrite Hs; simpl; [done| |].
  - by destruct (tracking_msgs s).
  - destruct (tracking_msgs s); simpl; [done|]. by destruct (prediction_msgs s).
Qed.

(** C32. A zero horizon crashes: with [prediction_num_future_steps = 0]
    the bounded deque stays empty, so its length always equals the
    horizon and the first non-top watermark with data reads
    [self._predictions[0]] of an empty deque and raises [IndexError]. *)
Theorem zero_horizon_crash s t :
  prediction_num_future_steps = 0%nat -> predictions s = [] -> is_top t = false ->
  tracking_msgs s <> [] -> prediction_msgs s <> [] -> pose_msgs s <> [] ->
  on_watermark s t = raise IndexError.
Proof.
  intros HW Hpr Htop Ht Hp Hpo. unfold on_watermark. rewrite Htop.
  destruct (tracking_msgs s) as [|tr T']; [done|]. destruct (prediction_msgs s) as [|p P']; [done|].
  destruct (pose_msgs s) as [|po Po']; [done|]. simpl.
  rewrite Hpr, HW. reflexivity.
Qed.

(** C34. Warm-up progress: while the deque is not full, a non-top
    watermark with one message buffered on each stream always succeeds,
    pops one message of each stream and makes no scoring pass. *)
Theorem warmup_progress s t p P' tr T' po Po' :
  is_top t = false ->
  tracking_msgs s = tr :: T' -> prediction_msgs s = p :: P' -> pose_msgs s = po :: Po' ->
  (length (predictions s) < prediction_num_future_steps)%nat ->
  exists s', on_watermark s t = Ok s' /\
    prediction_msgs s' = P' /\ tracking_msgs s' = T' /\ pose_msgs s' = Po' /\
    metric_calls s' = metric_calls s /\
    predictions s' = predictions s ++ [converted_batch po p].
Proof.
  intros Htop Ht Hp Hpo Hlt. unfold on_watermark. rewrite Htop, Ht, Hp, Hpo. simpl.
  rewrite decide_False by lia. simpl. eexists. split; [reflexivity|]. simpl.
  split_and!; try done.
  - by rewrite app_nil_r.
  - by apply deque_append_not_full.
Qed.

End Evaluator.

(** ** Concrete runs: horizon 2, identity frame change, one car per
    batch whose ground truth is its own single point. *)

Lemma run_watermarks_schedule_witness :
  let tf := mkTransform (mkLocation 0 0 0) 0 0 0 in
  let po := mkPose tf 0 in
  let P := [[mkObstaclePrediction 1 "car" [tf]]; [mkObstaclePrediction 1 "car" [tf]];
            [mkObstaclePrediction 1 "car" [tf]]] in
  let T := [[mkObstacleTrajectory 1 "car" [tf]]; [mkObstacleTrajectory 1 "car" [tf]];
            [mkObstacleTrajectory 1 "car" [tf]]] in
  let tss := [timestamp_of 1; timestamp_of 2; timestamp_of 3] in
  let C := zip_with (converted_batch (fun _ t => t)) [po; po; po] P in
  (exists rows, mapM score_input (scoring_inputs 2 (fun _ t => t) P T [po; po; po] tss) = Ok rows /\
     length rows = 1%nat) /\
  run_watermarks 2 (fun _ t => t) (mkEvalState P T [po; po; po] [] [] []) tss =
  (rows ← mapM score_input (scoring_inputs 2 (fun _ t => t) P T [po; po; po] tss);
   Ok (mkEvalState (drop 3 P) (drop 3 T) (drop 3 [po; po; po]) (lastn 2 (take 3 C))
         ([] ++ concat rows) ([] ++ zip (drop 2 tss) (take (3 - 2) C)))).
Proof.
  intros tf po P T tss C. split; [eexists; split; vm_compute; reflexivity|].
  apply (run_watermarks_schedule 2 (fun _ t => t) P T [po; po; po] tss [] []);
    [lia|repeat constructor|simpl; lia|simpl; lia|simpl; lia].
Defined.

Lemma scoring_pass_count_witness :
  let tf := mkTransform (mkLocation 0 0 0) 0 0 0 in
  let po := mkPose tf 0 in
  let P := [[mkObstaclePrediction 1 "car" [tf]]; [mkObstaclePrediction 1 "car" [tf]];
            [mkObstaclePrediction 1 "car" [tf]]] in
  let T := [[mkObstacleTrajectory 1 "car" [tf]]; [mkObstacleTrajectory 1 "car" [tf]];
            [mkObstacleTrajectory 1 "car" [tf]]] in
  let tss := [timestamp_of 1; timestamp_of 2; timestamp_of 3] in
  exists s, run_watermarks 2 (fun _ t => t) (mkEvalState P T [po; po; po] [] [] []) tss = Ok s /\
    length (metric_calls s) = (length tss - 2)%nat.
Proof.
  intros tf po P T tss. eexists. split; [vm_compute; reflexivity|].
  apply (scoring_pass_count 2 (fun _ t => t) P T [po; po; po] tss);
    [repeat constructor|simpl; lia|simpl; lia|simpl; lia|vm_compute; reflexivity].
Defined.

Lemma predictions_bounded_witness :
  let tf := mkTransform (mkLocation 0 0 0) 0 0 0 in
  let s := mkEvalState [[]] [[]] [mkPose tf 0] [[]; []] [] [] in
  exists s', on_watermark 2 (fun _ t => t) s (timestamp_of 5) = Ok s' /\
    (length (predictions s') <= 2)%nat /\
    (is_top (timestamp_of 5) = false -> length (predictions s') = Nat.min 2 (S (length (predictions s)))).
Proof.
  intros tf s. eexists. split; [vm_compute; reflexivity|].
  apply (predictions_bounded 2 (fun _ t => t) s (timestamp_of 5)); [vm_compute; reflexivity|simpl; lia].
Defined.

Lemma on_watermark_guards_witness :
  on_watermark 2 (fun _ t => t) (mkEvalState [] [] [] [] [] []) top_timestamp =
    Ok (mkEvalState [] [] [] [] [] []) /\
  on_watermark 2 (fun _ t => t) (mkEvalState [[]] [] [] [] [] []) (timestamp_of 5) = raise IndexError.
Proof.
  split.
  - apply (on_watermark_guards 2 (fun _ t => t)). reflexivity.
  - apply (on_watermark_guards 2 (fun _ t => t)); [reflexivity|]. by left.
Defined.

Lemma zero_horizon_crash_witness :
  let tf := mkTransform (mkLocation 0 0 0) 0 0 0 in
  on_watermark 0 (fun _ t => t) (mkEvalState [[]] [[]] [mkPose tf 0] [] [] []) (timestamp_of 5) =
    raise IndexError.
Proof. intros tf. apply zero_horizon_crash; try reflexivity; discriminate. Defined.

Lemma warmup_progress_witness :
  let tf := mkTransform (mkLocation 0 0 0) 0 0 0 in
  exists s', on_watermark 2 (fun _ t => t) (mkEvalState [[]] [[]] [mkPose tf 0] [] [] []) (timestamp_of 5) = Ok s' /\
    prediction_msgs s' = [] /\ tracking_msgs s' = [] /\ pose_msgs s' = [] /\
    metric_calls s' = [] /\ predictions s' = [] ++ [converted_batch (fun _ t => t) (mkPose tf 0) []].
Proof.
  intros tf. apply (warmup_progress 2 (fun _ t => t) (mkEvalState [[]] [[]] [mkPose tf 0] [] [] [])
    (timestamp_of 5) [] [] [] [] (mkPose tf 0) []); try reflexivity. simpl. lia.
Defined.

End Evaluator.
