(* ===== verification/EvalHeap.v ===== *)
(** * The prediction evaluator with its objects in a heap

    [PredictionEvalOperator.on_watermark] converts the tracked
    trajectories and the predictions to world coordinates in place:
    [obstacle_trajectory.to_world_coordinates(vehicle_transform)]
    (line 85) and [obstacle_prediction.to_world_coordinates(...)]
    (line 97) mutate the objects the buffers and the deque
    [_predictions] refer to, and the ground-truth dictionary stores
    references.  [PredictionEval] models these objects as values.  This
    file models them as the code has them: two heaps, from locations to
    predictions and to trajectories, messages and deque entries as lists
    of locations, the conversion loops as updates of the heap at each
    location, and the dictionary as a map from ids to locations read when
    [_calculate_metrics] runs.

    The theorems show that the value model is exact when no object is
    shared: from a state in which the pending prediction messages and the
    deque have pairwise distinct objects, and so have the pending
    tracking messages, every run of watermarks of the heap model
    dereferences to the run of the value model, errors included.  ERDOS
    delivers each message as a fresh unpickled copy, which gives distinct
    objects across messages; an object listed twice in one message stays
    shared after unpickling, and then the conversion is applied twice
    ([shared_prediction_diverges]). *)

From stdpp Require Import functions.
From S2P Require Import Prelude Erdos Trajectory PredictionEval.

Module EvalHeap.
Import Evaluator.

(** Object locations. *)
Abbreviation Loc := nat.

(** [for x in xs: x.<mutator>()]: the mutation [f] applied at each
    location of [xs] in turn, an object listed twice is mutated twice. *)
Definition alters {A} (f : A -> A) (xs : list Loc) (h : Loc -> A) : Loc -> A :=
  foldl (fun h l => alter f l h) h xs.

(** ** The mutation loops *)

Lemma alters_cons {A} f x xs (h : Loc -> A) : alters f (x :: xs) h = alters f xs (alter f x h).
Proof. reflexivity. Qed.

Lemma alters_notin {A} f xs (h : Loc -> A) l : l ∉ xs -> alters f xs h l = h l.
Proof.
  unfold alters. revert h. induction xs as [|x xs IH]; intros h Hl; [done|]. simpl.
  rewrite IH by set_solver. apply fn_lookup_alter_ne. set_solver.
Qed.

Lemma alters_in {A} f xs (h : Loc -> A) l : NoDup xs -> l ∈ xs -> alters f xs h l = f (h l).
Proof.
  intros Hnd Hl. revert h. induction xs as [|x xs IH]; intros h; [set_solver|].
  apply NoDup_cons in Hnd as [Hx Hnd]. apply elem_of_cons in Hl as [->|Hl].
  - rewrite alters_cons, (alters_notin _ _ _ _ Hx). apply fn_lookup_alter.
  - rewrite alters_cons, (IH Hnd Hl). f_equal.
    apply fn_lookup_alter_ne. set_solver.
Qed.

(** Each object of a list without repetition is mutated once. *)
Lemma map_alters_in {A} f xs (h : Loc -> A) :
  NoDup xs -> map (alters f xs h) xs = map f (map h xs).
Proof.
  intros Hnd. rewrite map_map. apply map_ext_in. intros l Hl.
  apply alters_in; [done|by apply list_elem_of_In].
Qed.

(** Objects outside the list are untouched. *)
Lemma map_map_alters_disjoint {A} f xs (h : Loc -> A) (L : list (list Loc)) :
  (forall l, l ∈ concat L -> l ∉ xs) -> map (map (alters f xs h)) L = map (map h) L.
Proof.
  intros Hdis. apply map_ext_in. intros ys Hys. apply map_ext_in. intros l Hl.
  apply alters_notin, Hdis, list_elem_of_In, in_concat. by exists ys.
Qed.

Lemma map_deque_append {A B} (f : A -> B) n d x :
  map f (deque_append n d x) = deque_append n (map f d) (f x).
Proof.
  unfold deque_append, lastn. rewrite <- skipn_map, map_app, !length_app, length_map. done.
Qed.

(** The no-sharing hypothesis, taken apart around one list. *)
Lemma NoDup_concat_mid (A B : list (list Loc)) x :
  NoDup (concat (A ++ x :: B)) ->
  NoDup x /\ (forall l, l ∈ concat A -> l ∉ x) /\ (forall l, l ∈ concat B -> l ∉ x) /\
  NoDup (concat (A ++ B)).
Proof.
  rewrite !concat_app, concat_cons, !NoDup_app. intros (HA & HAx & Hx & HxB & HB).
  split_and!; try done; set_solver.
Qed.

Lemma NoDup_concat_drop (L R : list (list Loc)) k :
  NoDup (concat (L ++ R)) -> NoDup (concat (drop k L ++ R)).
Proof.
  rewrite <- (take_drop k L), <- app_assoc, concat_app, NoDup_app, take_drop. naive_solver.
Qed.

Section EvalHeap.

Variable prediction_num_future_steps : nat.
Variable transform_mul : Transform -> Transform -> Transform.

(** The operator's fields over the two heaps. *)
Record HeapState : Type := mkHeapState {
  pred_heap : Loc -> ObstaclePrediction;
  traj_heap : Loc -> ObstacleTrajectory;
  h_prediction_msgs : list (list Loc);
  h_tracking_msgs : list (list Loc);
  h_pose_msgs : list Pose;
  h_predictions : list (list Loc);
  h_csv_rows : list CsvRow;
  h_metric_calls : list (Timestamp * list ObstaclePrediction)
}.

(** Lines 83-87: each trajectory converted in place, then stored by
    reference under its id. *)
Definition ground_step (ego : Transform) (hd : (Loc -> ObstacleTrajectory) * gmap Z Loc) (l : Loc)
  : (Loc -> ObstacleTrajectory) * gmap Z Loc :=
  let h' := alter (trajectory_to_world transform_mul ego) l hd.1 in
  (h', <[traj_id (h' l) := l]> hd.2).

Definition ground_dict_heap (ego : Transform) (msg : list Loc) (ht : Loc -> ObstacleTrajectory)
  : (Loc -> ObstacleTrajectory) * gmap Z Loc :=
  foldl (ground_step ego) (ht, ∅) msg.

(** [on_watermark] on the heaps: the same pops and guards as
    [Evaluator.on_watermark]; [_calculate_metrics] reads the dictionary's
    and the oldest batch's objects when it runs; the new batch is
    converted in place after the scoring pass and its list appended. *)
Definition on_watermark_heap (s : HeapState) (timestamp : Timestamp) : res HeapState :=
  if is_top timestamp then Ok s
  else
    '(tracking_msg, tracking') ← popleft (h_tracking_msgs s);
    '(prediction_msg, prediction') ← popleft (h_prediction_msgs s);
    '(pose, pose') ← popleft (h_pose_msgs s);
    let vehicle_transform := pose_transform pose in
    '(ht, rows, calls) ←
      (if decide (length (h_predictions s) = prediction_num_future_steps) then
         let '(ht, gt) := ground_dict_heap vehicle_transform tracking_msg (traj_heap s) in
         oldest ← (match h_predictions s with p :: _ => Ok p | [] => raise IndexError end);
         let preds := map (pred_heap s) oldest in
         rows ← Metrics.calculate_metrics timestamp (ht <$> gt) preds;
         Ok (ht, rows, [(timestamp, preds)])
       else Ok (traj_heap s, [], []));
    let hp := alters (prediction_to_world transform_mul vehicle_transform) prediction_msg (pred_heap s) in
    Ok (mkHeapState hp ht prediction' tracking' pose'
          (deque_append prediction_num_future_steps (h_predictions s) prediction_msg)
          (h_csv_rows s ++ rows) (h_metric_calls s ++ calls)).

Fixpoint run_watermarks_heap (s : HeapState) (tss : list Timestamp) : res HeapState :=
  match tss with
  | [] => Ok s
  | t :: tss' => s' ← on_watermark_heap s t; run_watermarks_heap s' tss'
  end.

(** The objects every field refers to, read in the heaps. *)
Definition deref (s : HeapState) : EvalState :=
  mkEvalState (map (map (pred_heap s)) (h_prediction_msgs s))
    (map (map (traj_heap s)) (h_tracking_msgs s)) (h_pose_msgs s)
    (map (map (pred_heap s)) (h_predictions s)) (h_csv_rows s) (h_metric_calls s).

(** No object shared: between or within the batches of the deque and the
    pending prediction messages, and among the pending tracking messages. *)
Definition unaliased (s : HeapState) : Prop :=
  NoDup (concat (h_predictions s ++ h_prediction_msgs s)) /\ NoDup (concat (h_tracking_msgs s)).

(** ** The ground-truth dictionary by reference *)

Lemma ground_fold ego msg (h g : Loc -> ObstacleTrajectory) d :
  NoDup msg -> (forall l, l ∈ msg -> h l = g l) ->
  foldl (ground_step ego) (h, d) msg =
  (alters (trajectory_to_world transform_mul ego) msg h,
   foldl (fun d l => <[traj_id (g l) := l]> d) d msg).
Proof.
  revert h d. induction msg as [|x msg IH]; intros h d Hnd Hg; [done|].
  apply NoDup_cons in Hnd as [Hx Hnd]. cbn [foldl].
  replace (ground_step ego (h, d) x)
    with (alter (trajectory_to_world transform_mul ego) x h, <[traj_id (g x) := x]> d).
  2:{ unfold ground_step. simpl. rewrite fn_lookup_alter. simpl. rewrite Hg by set_solver. done. }
  rewrite IH; [done|done|]. intros l Hl. rewrite fn_lookup_alter_ne by set_solver.
  apply Hg. set_solver.
Qed.

Lemma ground_fmap ego (H g : Loc -> ObstacleTrajectory) msg (m0 : gmap Z Loc) :
  (forall l, l ∈ msg -> H l = trajectory_to_world transform_mul ego (g l)) ->
  H <$> foldl (fun d l => <[traj_id (g l) := l]> d) m0 msg =
  foldl (fun m t => <[traj_id t := trajectory_to_world transform_mul ego t]> m) (H <$> m0) (map g msg).
Proof.
  revert m0. induction msg as [|x msg IH]; intros m0 HH; [done|]. simpl.
  rewrite IH by set_solver. f_equal. rewrite fmap_insert, HH by set_solver. done.
Qed.

(** Without repetition in the message, the dictionary read through the
    heap is the dictionary of the converted values. *)
Lemma ground_dict_heap_spec ego msg ht :
  NoDup msg ->
  (ground_dict_heap ego msg ht).1 = alters (trajectory_to_world transform_mul ego) msg ht /\
  (ground_dict_heap ego msg ht).1 <$> (ground_dict_heap ego msg ht).2 =
    ground_trajectories_dict transform_mul ego (map ht msg).
Proof.
  intros Hnd. unfold ground_dict_heap. rewrite (ground_fold ego msg ht ht) by done.
  simpl. split; [done|]. unfold ground_trajectories_dict.
  rewrite (ground_fmap ego); [by rewrite fmap_empty|]. intros l Hl. by apply alters_in.
Qed.

(** ** Refinement of the value model *)

Lemma on_watermark_heap_refines s t :
  unaliased s ->
  match on_watermark_heap s t with
  | Ok s' => on_watermark prediction_num_future_steps transform_mul (deref s) t = Ok (deref s') /\
             unaliased s'
  | Err e => on_watermark prediction_num_future_steps transform_mul (deref s) t = Err e
  end.
Proof.
  destruct s as [hp ht P T Po D rows0 calls0]. unfold unaliased, deref. simpl.
  intros [HnP HnT]. unfold on_watermark_heap, on_watermark. simpl.
  destruct (is_top t); [by split|].
  destruct T as [|tr T']; [done|]. destruct P as [|pm P']; [done|].
  destruct Po as [|po Po']; [done|]. simpl.
  pose proof HnP as HnP0. apply NoDup_concat_mid in HnP as (Hpm & HdD & HdP' & _).
  rewrite concat_cons, NoDup_app in HnT. destruct HnT as (Htr & HdT' & HnT').
  assert (HP' : map (map (alters (prediction_to_world transform_mul (pose_transform po)) pm hp)) P' =
                map (map hp) P') by (apply map_map_alters_disjoint; naive_solver).
  assert (HD : map (map (alters (prediction_to_world transform_mul (pose_transform po)) pm hp)) D =
               map (map hp) D) by (apply map_map_alters_disjoint; naive_solver).
  assert (Hinv : NoDup (concat (deque_append prediction_num_future_steps D pm ++ P')) /\
                 NoDup (concat T')).
  { split; [|done]. unfold deque_append, lastn. apply NoDup_concat_drop.
    by rewrite <- app_assoc. }
  rewrite length_map. case_decide as Hlen.
  - destruct (ground_dict_heap_spec (pose_transform po) tr ht Htr) as [Hht Hgt].
    destruct (ground_dict_heap (pose_transform po) tr ht) as [ht' gt]. simpl in Hht, Hgt.
    destruct D as [|oldest rest]; [done|]. simpl. rewrite Hgt.
    destruct (Metrics.calculate_metrics t _ _) as [rows|e]; simpl; [|done].
    split; [|done]. rewrite map_deque_append, HP', HD, map_alters_in by done.
    assert (HT' : map (map ht') T' = map (map ht) T')
      by (rewrite Hht; apply map_map_alters_disjoint; set_solver).
    by rewrite HT'.
  - simpl. split; [|done]. rewrite map_deque_append, HP', HD, map_alters_in by done. done.
Qed.

(** C7. The value model is exact when no object is shared: from a state
    whose deque and pending prediction messages have pairwise distinct
    prediction objects, and whose pending tracking messages have pairwise
    distinct trajectory objects, a run of watermarks of
    [on_watermark] over the heaps, converting in place, reads in the
    heaps as the run of [Evaluator.on_watermark] on the values: the same
    exception, or the same buffers, deque, CSV rows and scoring calls. *)
Theorem run_watermarks_heap_refines s tss :
  unaliased s ->
  deref <$> run_watermarks_heap s tss =
  run_watermarks prediction_num_future_steps transform_mul (deref s) tss.
Proof.
  revert s. induction tss as [|t tss IH]; intros s Hu; [done|]. simpl.
  pose proof (on_watermark_heap_refines s t Hu) as Hstep.
  destruct (on_watermark_heap s t) as [s'|e]; simpl.
  - destruct Hstep as [-> Hu']. simpl. by apply IH.
  - by rewrite Hstep.
Qed.

End EvalHeap.

(** ** Concrete runs: horizon 1, every pose one metre along [x], frame
    change by translation; one car per batch. *)

Definition translate (a b : Transform) : Transform :=
  mkTransform (mkLocation (loc_x (location a) + loc_x (location b))
                          (loc_y (location a) + loc_y (location b))
                          (loc_z (location a) + loc_z (location b))) 0 0 0.

Definition car_state (msgs : list (list Loc)) : HeapState :=
  let tf := mkTransform (mkLocation 0 0 0) 0 0 0 in
  mkHeapState (fun _ => mkObstaclePrediction 1 "car" [tf])
    (fun _ => mkObstacleTrajectory 1 "car" [tf]) msgs [[10]; [11]; [12]]
    [mkPose (mkTransform (mkLocation 1 0 0) 0 0 0) 0; mkPose (mkTransform (mkLocation 1 0 0) 0 0 0) 0;
     mkPose (mkTransform (mkLocation 1 0 0) 0 0 0) 0] [] [] [].

Lemma run_watermarks_heap_refines_witness :
  unaliased (car_state [[0]; [1]; [2]]) /\
 deref <$> run_watermarks_heap 1 translate (car_state [[0]; [1]; [2]])
              [timestamp_of 1; timestamp_of 2; timestamp_of 3] =
  run_watermarks 1 translate (deref (car_state [[0]; [1]; [2]]))
    [timestamp_of 1; timestamp_of 2; timestamp_of 3].
Proof.
  assert (Hu : unaliased (car_state [[0]; [1]; [2]]))
    by (split; apply (bool_decide_unpack _); vm_compute; exact I).
  split; [exact Hu|]. apply run_watermarks_heap_refines. exact Hu.
Defined.

(** One prediction object sent in three consecutive messages: the
    conversion of the second watermark moves the object the deque still
    holds, and the third watermark scores it converted twice, where the
    value model scores the batch converted once. *)
Example shared_prediction_diverges :
  exists s' v,
    run_watermarks_heap 1 translate (car_state [[0]; [0]; [0]])
      [timestamp_of 1; timestamp_of 2; timestamp_of 3] = Ok s' /\
   run_watermarks 1 translate (deref (car_state [[0]; [0]; [0]]))
      [timestamp_of 1; timestamp_of 2; timestamp_of 3] = Ok v /\
   h_metric_calls s' <> metric_calls v.
Proof.
  eexists _, _. split; [vm_compute; reflexivity|]. split; [vm_compute; reflexivity|].
  vm_compute. discriminate.
Qed.

End EvalHeap.
