(* ===== verification/CameraRunner.v ===== *)
(** * The camera callbacks and operator wiring of the detection test driver

    [src/detection_operator_runner.py], function [main]: five simulator
    cameras (center RGB, depth, segmentation, stereo left and right) whose
    [listen] callbacks turn each simulator image into an [erdos.Message]
    on one ingest stream, and the choice, by the [--test_operator] flag,
    of the operator connected to those streams.  The send log is one list
    of [(stream, message)] pairs in send order, so interleavings of
    callbacks are explicit.  The camera setups and frame decoders live in
    [pylot.drivers.sensor_setup] and [pylot.perception], outside [src/]:
    setups are their name, camera type, image size and field of view,
    frames record the image and setup they are decoded from.  The flags
    [main] reads are a record; [setup_camera]'s blueprint attributes are
    a dictionary.  Each callback runs under [_lock] and is one step.  The theorems give the messages each
    stream carries, show that the segmentation stream is never written,
    that only the stereo streams ever carry watermarks, and hence which
    connected operators can never see a watermark (the default
    [--test_operator] among them), that every message is a frame of the
    kind its stream's consumer reads, or a watermark, and that the five
    cameras share one configuration. *)

From S2P Require Import Prelude Erdos.

(** A simulator image as the callbacks read it: [simulator_image.timestamp]
    in seconds, and the raw bytes handed to the frame decoder. *)
Record SimImage : Type := mkSimImage {
  image_timestamp : Q;
  image_raw : list Byte.byte
}.

(** A camera setup of [pylot.drivers.sensor_setup]: name, [camera_type],
    [width], [height] and [fov] (its transform is not read by the
    modelled code). *)
Record CameraSetup : Type := mkCameraSetup {
  setup_name : string;
  camera_type : string;
  image_width : Z;
  image_height : Z;
  fov : Q
}.

Definition RGBCameraSetup (name : string) (width height : Z) (fov : Q) : CameraSetup :=
  mkCameraSetup name "sensor.camera.rgb" width height fov.
Definition DepthCameraSetup (name : string) (width height : Z) (fov : Q) : CameraSetup :=
  mkCameraSetup name "sensor.camera.depth" width height fov.
Definition SegmentedCameraSetup (name : string) (width height : Z) (fov : Q) : CameraSetup :=
  mkCameraSetup name "sensor.camera.semantic_segmentation" width height fov.

(** [create_left_right_camera_setups(name, location, width, height,
    offset, fov)]: two RGB setups of the given size and field of view. *)
Definition create_left_right_camera_setups (name : string) (width height : Z) (fov : Q)
  : CameraSetup * CameraSetup :=
  (RGBCameraSetup (name +:+ "_left") width height fov,
   RGBCameraSetup (name +:+ "_right") width height fov).

(** [setup_camera(world, camera_setup, vehicle)], lines 46-50: the
    blueprint [camera_setup.camera_type] with the attributes set on it. *)
Definition camera_blueprint (setup : CameraSetup) : string * gmap string AttrValue :=
  (camera_type setup,
   <["sensor_tick" := AttrFloat (1 / 20)]>
     (<["fov" := AttrFloat (fov setup)]>
       (<["image_size_y" := AttrInt (image_height setup)]>
         (<["image_size_x" := AttrInt (image_width setup)]> ∅)))).

(** The decoded frames: [CameraFrame.from_simulator_frame(image, setup)],
    [DepthFrame.from_simulator_frame(image, setup, save_original_frame)],
    [SegmentedFrame.from_simulator_image(image, setup)]. *)
Inductive Frame : Type :=
| CameraFrame (img : SimImage) (setup : CameraSetup)
| DepthFrame (img : SimImage) (setup : CameraSetup) (save_original_frame : bool)
| SegmentedFrame (img : SimImage) (setup : CameraSetup).

(** The six [erdos.streams.IngestStream]s of [main]. *)
Inductive IngestStream : Type :=
| rgb_camera | depth_camera | seg_camera | left_camera | right_camera | ttd.

#[export] Instance IngestStream_eq_dec : EqDecision IngestStream.
Proof. solve_decision. Defined.

(** The five physical cameras, each with its [listen] callback. *)
Inductive Camera : Type := RgbCam | DepthCam | SegCam | LeftCam | RightCam.

#[export] Instance Camera_eq_dec : EqDecision Camera.
Proof. solve_decision. Defined.

Module Runner.

(** The setups [main] builds (lines 82-104). *)
Record RunnerSetups : Type := mkRunnerSetups {
  rgb_camera_setup : CameraSetup;
  depth_camera_setup : CameraSetup;
  seg_camera_setup : CameraSetup;
  left_camera_setup : CameraSetup;
  right_camera_setup : CameraSetup
}.

(** The absl flags [main] reads: [--test_operator] (defined at lines
    37-39) and the camera flags of [pylot.flags]. *)
Record RunnerFlags : Type := mkRunnerFlags {
  test_operator : string;
  camera_image_width : Z;
  camera_image_height : Z;
  camera_fov : Q
}.

(** The default of [--test_operator]. *)
Definition default_test_operator : string := "detection_operator".

Definition main_setups (FLAGS : RunnerFlags) : RunnerSetups :=
  let '(left_setup, right_setup) :=
    create_left_right_camera_setups "camera" (camera_image_width FLAGS)
      (camera_image_height FLAGS) (camera_fov FLAGS) in
  mkRunnerSetups
    (RGBCameraSetup "center_camera" (camera_image_width FLAGS) (camera_image_height FLAGS)
       (camera_fov FLAGS))
    (DepthCameraSetup "depth_center_camera" (camera_image_width FLAGS) (camera_image_height FLAGS)
       (camera_fov FLAGS))
    (SegmentedCameraSetup "seg_center_camera" (camera_image_width FLAGS) (camera_image_height FLAGS)
       (camera_fov FLAGS))
    left_setup right_setup.

(** The setup each camera is built from: [setup_camera(world, X_setup,
    vehicle)] at lines 106-111. *)
Definition camera_setup (cfg : RunnerSetups) (c : Camera) : CameraSetup :=
  match c with
  | RgbCam => rgb_camera_setup cfg
  | DepthCam => depth_camera_setup cfg
  | SegCam => seg_camera_setup cfg
  | LeftCam => left_camera_setup cfg
  | RightCam => right_camera_setup cfg
  end.

(** Everything sent on the ingest streams, oldest first. *)
Abbreviation SendLog := (list (IngestStream * Message Frame)).

Section Callbacks.

Variable cfg : RunnerSetups.
(** [FLAGS.visualize_depth_camera]. *)
Variable visualize_depth_camera : bool.

(** [timestamp = erdos.Timestamp(coordinates=[int(simulator_image.timestamp * 1000)])].
    Every callback also builds [watermark_msg]; only the stereo ones send it. *)
Definition image_timestamp_of (img : SimImage) : Timestamp :=
  sim_timestamp (image_timestamp img).

Definition process_rgb_images (log : SendLog) (img : SimImage) : SendLog :=
  let timestamp := image_timestamp_of img in
  if String.eqb (camera_type (rgb_camera_setup cfg)) "sensor.camera.rgb" then
    log ++ [(rgb_camera, Msg timestamp (CameraFrame img (rgb_camera_setup cfg)))]
  else log.

Definition process_depth_images (log : SendLog) (img : SimImage) : SendLog :=
  let timestamp := image_timestamp_of img in
  if String.eqb (camera_type (depth_camera_setup cfg)) "sensor.camera.depth" then
    log ++ [(depth_camera,
             Msg timestamp (DepthFrame img (depth_camera_setup cfg) visualize_depth_camera))]
  else log.

(** The guard reads [depth_camera_setup], not [seg_camera_setup]. *)
Definition process_seg_images (log : SendLog) (img : SimImage) : SendLog :=
  let timestamp := image_timestamp_of img in
  if String.eqb (camera_type (depth_camera_setup cfg)) "sensor.camera.semantic_segmentation" then
    log ++ [(seg_camera, Msg timestamp (SegmentedFrame img (seg_camera_setup cfg)))]
  else log.

(** The stereo callbacks guard on [rgb_camera_setup] and send the frame
    followed by its watermark. *)
Definition process_left_images (log : SendLog) (img : SimImage) : SendLog :=
  let timestamp := image_timestamp_of img in
  let watermark_msg := WatermarkMessage timestamp in
  if String.eqb (camera_type (rgb_camera_setup cfg)) "sensor.camera.rgb" then
    log ++ [(left_camera, Msg timestamp (CameraFrame img (left_camera_setup cfg)));
            (left_camera, watermark_msg)]
  else log.

Definition process_right_images (log : SendLog) (img : SimImage) : SendLog :=
  let timestamp := image_timestamp_of img in
  let watermark_msg := WatermarkMessage timestamp in
  if String.eqb (camera_type (rgb_camera_setup cfg)) "sensor.camera.rgb" then
    log ++ [(right_camera, Msg timestamp (CameraFrame img (right_camera_setup cfg)));
            (right_camera, watermark_msg)]
  else log.

(** [camera.listen(process_..._images)] (lines 282-286): the callback
    each camera invokes. *)
Definition listen (c : Camera) : SendLog -> SimImage -> SendLog :=
  match c with
  | RgbCam => process_rgb_images
  | DepthCam => process_depth_images
  | SegCam => process_seg_images
  | LeftCam => process_left_images
  | RightCam => process_right_images
  end.

(** The callbacks run serially under [_lock]: a run is a list of
    (camera, image) deliveries. *)
Definition runner_run (log : SendLog) (evs : list (Camera * SimImage)) : SendLog :=
  foldl (fun l '(c, img) => listen c l img) log evs.

End Callbacks.

(** The messages sent on one stream, in order. *)
Definition stream_messages (s : IngestStream) (log : SendLog) : list (Message Frame) :=
  snd <$> filter (fun e => e.1 = s) log.

(** The watermark timestamps sent on one stream. *)
Definition watermarks_on (s : IngestStream) (log : SendLog) : list Timestamp :=
  watermarks_of (stream_messages s log).

(** The images a camera delivered during a run. *)
Definition images_from (c : Camera) (evs : list (Camera * SimImage)) : list SimImage :=
  snd <$> filter (fun e => e.1 = c) evs.

(** The frames each ingest stream's consumer reads: camera frames on the
    RGB and stereo streams, depth frames on the depth stream, segmented
    frames on the segmentation stream, each decoded with a setup of the
    matching camera type. *)
Definition frame_fits (s : IngestStream) (f : Frame) : Prop :=
  match s, f with
  | (rgb_camera | left_camera | right_camera), CameraFrame _ setup =>
      camera_type setup = "sensor.camera.rgb"
  | depth_camera, DepthFrame _ setup _ => camera_type setup = "sensor.camera.depth"
  | seg_camera, SegmentedFrame _ setup =>
      camera_type setup = "sensor.camera.semantic_segmentation"
  | _, _ => False
  end.

(** A well-typed message of a stream: an unpickled frame that fits it or a
    watermark, at a non-top timestamp with one coordinate. *)
Definition msg_well_typed (s : IngestStream) (m : Message Frame) : Prop :=
  match m with
  | Msg t f => frame_fits s f /\ is_top t = false /\ length (coordinates t) = 1%nat
  | PickledMsg _ _ => False
  | WatermarkMessage t => is_top t = false /\ length (coordinates t) = 1%nat
  end.

(** Setups of the camera types [main] gives them. *)
Definition setups_typed (cfg : RunnerSetups) : Prop :=
  camera_type (rgb_camera_setup cfg) = "sensor.camera.rgb" /\
  camera_type (depth_camera_setup cfg) = "sensor.camera.depth" /\
  camera_type (seg_camera_setup cfg) = "sensor.camera.semantic_segmentation" /\
  camera_type (left_camera_setup cfg) = "sensor.camera.rgb" /\
  camera_type (right_camera_setup cfg) = "sensor.camera.rgb".

(** The operators [main] connects for [DETECTOR = FLAGS.test_operator]
    (lines 125-193): six independent [if]s, each naming the operator
    config and the ingest streams it reads. *)
Definition connected_operators (DETECTOR : string) : list (string * list IngestStream) :=
  (if String.eqb DETECTOR "detection_operator" then [("detection_op", [rgb_camera; ttd])] else []) ++
  (if String.eqb DETECTOR "traffic_light" then [("traffic_light_op", [rgb_camera; ttd])] else []) ++
  (if String.eqb DETECTOR "efficient_det" then [("efficientdet_operator", [rgb_camera; ttd])] else []) ++
  (if String.eqb DETECTOR "lanenet" then [("lanenet_lane_detection", [rgb_camera])] else []) ++
  (if String.eqb DETECTOR "canny_lane" then [("lane_detection_canny_op", [rgb_camera])] else []) ++
  (if String.eqb DETECTOR "depth_estimation" then
     [("depth_estimation_op", [left_camera; right_camera])] else []).

(** The stream each camera's callback writes. *)
Definition camera_stream (c : Camera) : IngestStream :=
  match c with
  | RgbCam => rgb_camera | DepthCam => depth_camera | SegCam => seg_camera
  | LeftCam => left_camera | RightCam => right_camera
  end.

(** The detector names [main] knows. *)
Definition known_detectors : list string :=
  ["detection_operator"; "traffic_light"; "efficient_det"; "lanenet"; "canny_lane";
   "depth_estimation"].

(** ** Runs as concatenations of per-image sends *)

Lemma listen_app cfg vis c log img :
  listen cfg vis c log img = log ++ listen cfg vis c [] img.
Proof. destruct c; simpl; unfold process_rgb_images, process_depth_images,
  process_seg_images, process_left_images, process_right_images;
  case_match; by rewrite ?app_nil_r. Qed.

Lemma runner_run_flat cfg vis log evs :
  runner_run cfg vis log evs = log ++ flat_map (fun '(c, img) => listen cfg vis c [] img) evs.
Proof.
  revert log. induction evs as [|[c img] evs IH]; intros log; simpl.
  - by rewrite app_nil_r.
  - unfold runner_run in *. simpl. rewrite IH, listen_app. by rewrite app_assoc.
Qed.

Lemma stream_messages_app s l1 l2 :
  stream_messages s (l1 ++ l2) = stream_messages s l1 ++ stream_messages s l2.
Proof. unfold stream_messages. by rewrite filter_app, fmap_app. Qed.

Lemma stream_messages_flat_map {A} s (f : A -> SendLog) (l : list A) :
  stream_messages s (flat_map f l) = flat_map (fun a => stream_messages s (f a)) l.
Proof. induction l as [|a l IH]; [done|]. simpl. by rewrite stream_messages_app, IH. Qed.

Lemma watermarks_on_app s l1 l2 :
  watermarks_on s (l1 ++ l2) = watermarks_on s l1 ++ watermarks_on s l2.
Proof. unfold watermarks_on, watermarks_of. by rewrite stream_messages_app, omap_app. Qed.

Lemma stream_messages_cons s s' m l :
  stream_messages s ((s', m) :: l) =
  (if decide (s' = s) then [m] else []) ++ stream_messages s l.
Proof.
  unfold stream_messages. case_decide.
  - by rewrite filter_cons_True.
  - by rewrite filter_cons_False.
Qed.

Lemma stream_messages_nil s : stream_messages s [] = [].
Proof. reflexivity. Qed.

(** A callback writes its own camera's stream only. *)
Lemma listen_other_stream cfg vis c img s :
  s <> camera_stream c -> stream_messages s (listen cfg vis c [] img) = [].
Proof.
  intros Hs. destruct c; simpl in *; unfold process_rgb_images, process_depth_images,
    process_seg_images, process_left_images, process_right_images;
    case_match; rewrite ?app_nil_l, ?stream_messages_cons, ?stream_messages_nil;
    repeat case_decide; simplify_eq; done.
Qed.

(** The stream of camera [c] over a run: what its callback sends for each
    of the images [c] delivered. *)
Lemma stream_of_run cfg vis c evs :
  stream_messages (camera_stream c) (runner_run cfg vis [] evs) =
  flat_map (fun img => stream_messages (camera_stream c) (listen cfg vis c [] img))
    (images_from c evs).
Proof.
  rewrite runner_run_flat, app_nil_l, stream_messages_flat_map.
  induction evs as [|[c' img] evs IH]; [done|]. unfold images_from in *.
  rewrite filter_cons. cbn [flat_map]. rewrite IH. case_decide as Hc; simpl in Hc.
  - subst c'. reflexivity.
  - rewrite listen_other_stream; [done|]. destruct c, c'; simpl; congruence.
Qed.

(** A stream no camera writes stays empty. *)
Lemma ttd_never_written cfg vis evs : stream_messages ttd (runner_run cfg vis [] evs) = [].
Proof.
  rewrite runner_run_flat, app_nil_l, stream_messages_flat_map.
  induction evs as [|[c img] evs IH]; [done|]. simpl.
  rewrite listen_other_stream by (destruct c; discriminate). exact IH.
Qed.

Lemma watermarks_on_run cfg vis c evs :
  watermarks_on (camera_stream c) (runner_run cfg vis [] evs) =
  flat_map (fun img => watermarks_on (camera_stream c) (listen cfg vis c [] img))
    (images_from c evs).
Proof.
  unfold watermarks_on at 1, watermarks_of. rewrite stream_of_run.
  induction (images_from c evs) as [|img l IH]; [done|]. simpl. by rewrite omap_app, IH.
Qed.

(** The center cameras' streams never carry a watermark. *)
Lemma center_no_watermark cfg vis c evs :
  c <> LeftCam -> c <> RightCam -> watermarks_on (camera_stream c) (runner_run cfg vis [] evs) = [].
Proof.
  intros Hl Hr. rewrite watermarks_on_run. apply flat_map_const_nil. intros img.
  destruct c; try congruence; simpl;
    unfold process_rgb_images, process_depth_images, process_seg_images;
    case_match; reflexivity.
Qed.

(** Only the stereo streams ever carry a watermark. *)
Lemma no_watermark_off_stereo cfg vis evs s :
  s <> left_camera -> s <> right_camera -> watermarks_on s (runner_run cfg vis [] evs) = [].
Proof.
  intros Hl Hr. destruct s; try congruence.
  - by apply (center_no_watermark cfg vis RgbCam).
  - by apply (center_no_watermark cfg vis DepthCam).
  - by apply (center_no_watermark cfg vis SegCam).
  - unfold watermarks_on. by rewrite ttd_never_written.
Qed.

(** With the RGB guard passing, a stereo image gives its frame, then its
    watermark. *)
Lemma stereo_sends cfg vis c img :
  camera_type (rgb_camera_setup cfg) = "sensor.camera.rgb" -> c = LeftCam \/ c = RightCam ->
  stream_messages (camera_stream c) (listen cfg vis c [] img) =
  [Msg (image_timestamp_of img)
     (CameraFrame img (if decide (c = LeftCam) then left_camera_setup cfg else right_camera_setup cfg));
   WatermarkMessage (image_timestamp_of img)].
Proof.
  intros Hrgb [-> | ->]; simpl; unfold process_left_images, process_right_images;
    rewrite Hrgb; reflexivity.
Qed.

(** Case analysis on every string comparison of a variable. *)
Ltac case_string_eqb :=
  repeat match goal with
  | H : context [String.eqb ?a ?b] |- _ => is_var a; destruct (String.eqb_spec a b); subst; simpl in *
  | |- context [String.eqb ?a ?b] => is_var a; destruct (String.eqb_spec a b); subst; simpl in *
  end.

(** The streams each connected operator reads. *)
Lemma connected_inputs d op ins :
  (op, ins) ∈ connected_operators d ->
  (d = "depth_estimation" /\ ins = [left_camera; right_camera]) \/
  (d <> "depth_estimation" /\ Forall (fun s => s <> left_camera /\ s <> right_camera) ins).
Proof.
  intros H. apply list_elem_of_In in H. unfold connected_operators in H.
  case_string_eqb;
    intuition (simplify_eq; first [left; done | right; split; [done|repeat constructor; discriminate]]).
Qed.

(** Every message a callback sends is well typed for its stream. *)
Lemma listen_well_typed cfg vis c img :
  setups_typed cfg ->
  Forall (fun e => msg_well_typed e.1 e.2) (listen cfg vis c [] img).
Proof.
  intros (Hrgb & Hdepth & Hseg & Hl & Hr).
  destruct c; simpl; unfold process_rgb_images, process_depth_images, process_seg_images,
    process_left_images, process_right_images; case_match; simpl;
    repeat constructor; simpl; try done.
  (* the segmentation guard tests the depth setup *)
  all: apply String.eqb_eq in H; congruence.
Qed.

(** ** The callbacks' streams *)

(** C19. The segmentation stream is never written: [process_seg_images]
    tests [depth_camera_setup.camera_type] against the segmentation type,
    which the depth setup [main] builds never has, so with the setups of
    [main] no segmented frame is ever sent, whatever images the cameras
    deliver, although [seg_camera_setup] is a segmentation camera. *)
Theorem seg_images_never_sent FLAGS vis evs :
  camera_type (seg_camera_setup (main_setups FLAGS)) = "sensor.camera.semantic_segmentation" /\
  stream_messages seg_camera (runner_run (main_setups FLAGS) vis [] evs) = [].
Proof.
  split; [reflexivity|]. change seg_camera with (camera_stream SegCam).
  rewrite stream_of_run. apply flat_map_const_nil. intros img. reflexivity.
Qed.

(** C29. The center streams: with the setups of [main], the RGB and depth
    streams carry exactly one data message per image their camera
    delivered, in delivery order, stamped with the image's game time and
    holding the frame decoded with that camera's setup; the [ttd] stream
    is never written. *)
Theorem center_streams_contents FLAGS vis evs :
  stream_messages rgb_camera (runner_run (main_setups FLAGS) vis [] evs) =
    (fun img => Msg (image_timestamp_of img) (CameraFrame img (rgb_camera_setup (main_setups FLAGS))))
      <$> images_from RgbCam evs /\
  stream_messages depth_camera (runner_run (main_setups FLAGS) vis [] evs) =
    (fun img => Msg (image_timestamp_of img) (DepthFrame img (depth_camera_setup (main_setups FLAGS)) vis))
      <$> images_from DepthCam evs /\
  stream_messages ttd (runner_run (main_setups FLAGS) vis [] evs) = [].
Proof.
  split_and!; [change rgb_camera with (camera_stream RgbCam)
              |change depth_camera with (camera_stream DepthCam)|apply ttd_never_written].
  all: rewrite stream_of_run, <- flat_map_singleton; reflexivity.
Qed.

(** C20. The stereo streams: when the RGB setup has the RGB camera type
    (the guard both stereo callbacks test, whatever the types of the left
    and right setups), each of the left and right streams is, image by
    image in delivery order, the frame decoded with its own setup
    followed by the watermark of the same timestamp. *)
Theorem stereo_streams_shape cfg vis evs :
  camera_type (rgb_camera_setup cfg) = "sensor.camera.rgb" ->
  stream_messages left_camera (runner_run cfg vis [] evs) =
    flat_map (fun img => [Msg (image_timestamp_of img) (CameraFrame img (left_camera_setup cfg));
                          WatermarkMessage (image_timestamp_of img)]) (images_from LeftCam evs) /\
  stream_messages right_camera (runner_run cfg vis [] evs) =
    flat_map (fun img => [Msg (image_timestamp_of img) (CameraFrame img (right_camera_setup cfg));
                          WatermarkMessage (image_timestamp_of img)]) (images_from RightCam evs).
Proof.
  intros Hrgb. split; [change left_camera with (camera_stream LeftCam)
                     |change right_camera with (camera_stream RightCam)];
    rewrite stream_of_run; apply flat_map_ext; intros img; by rewrite stereo_sends by auto.
Qed.

(** C11. Watermark supply of the operator under test: for every
    [--test_operator] value, every input stream of a connected operator
    other than the depth estimator never receives a watermark, whatever
    the cameras deliver (so the operator's watermark callback can never
    fire); the depth estimator's two inputs receive exactly the
    timestamps of the images of the stereo camera feeding them. *)
Theorem connected_operator_watermarks FLAGS d op ins s vis evs :
  (op, ins) ∈ connected_operators d -> s ∈ ins ->
  (d <> "depth_estimation" -> watermarks_on s (runner_run (main_setups FLAGS) vis [] evs) = []) /\
  (d = "depth_estimation" -> exists c, s = camera_stream c /\
     watermarks_on s (runner_run (main_setups FLAGS) vis [] evs) = image_timestamp_of <$> images_from c evs).
Proof.
  intros Hop Hs. destruct (connected_inputs _ _ _ Hop) as [[-> ->] | [Hd Hall]].
  - split; [congruence|intros _].
    assert (Hc : exists c, s = camera_stream c /\ (c = LeftCam \/ c = RightCam)).
    { apply list_elem_of_In in Hs. destruct Hs as [<-|[<-|[]]];
        [exists LeftCam | exists RightCam]; auto. }
    destruct Hc as (c & -> & Hc). exists c. split; [done|].
    rewrite watermarks_on_run, <- flat_map_singleton. apply flat_map_ext. intros img.
    by destruct Hc as [-> | ->].
  - split; [intros _|congruence]. rewrite Forall_forall in Hall.
    destruct (Hall s Hs). by apply no_watermark_off_stereo.
Qed.

(** The operator selection: at most one operator is connected, and
    none at all, silently, when [--test_operator] is none of the six
    names [main] tests. *)
Theorem connected_operators_selection d :
  (length (connected_operators d) <= 1)%nat /\
  (connected_operators d = [] <-> d ∉ known_detectors).
Proof.
  unfold connected_operators, known_detectors.
  case_string_eqb; split; try lia;
    split; intros H; first [discriminate | reflexivity
      | exfalso; apply H, list_elem_of_In; simpl; tauto
      | rewrite list_elem_of_In; simpl; intuition congruence].
Qed.

(** C17. Stream typing: when every setup has the camera type [main] gives
    it, every message any run of the callbacks sends is a frame of the
    kind its stream's consumer reads (camera frames on the RGB and stereo
    streams, depth frames on the depth stream, segmented frames on the
    segmentation stream), decoded with a setup of that camera type, or a
    watermark, always at a non-top timestamp with a single coordinate.
    The stereo frames are typed only because their setups are RGB: their
    callbacks test the center RGB setup, not their own. *)
Theorem runner_messages_well_typed cfg vis log evs :
  setups_typed cfg -> Forall (fun e => msg_well_typed e.1 e.2) log ->
  Forall (fun e => msg_well_typed e.1 e.2) (runner_run cfg vis log evs).
Proof.
  intros Hcfg Hlog. rewrite runner_run_flat. apply Forall_app. split; [exact Hlog|].
  induction evs as [|[c img] evs IH]; simpl; [constructor|].
  apply Forall_app. split; [by apply listen_well_typed|exact IH].
Qed.

(** ** The cameras' configuration *)

(** The five cameras [main] spawns share one configuration: each
    blueprint sets the image size and field of view of the flags and a
    [sensor_tick] of [1.0 / 20], so the stereo pair takes images of the
    center cameras' size at the same 20 Hz; only the blueprint ids
    differ, and they are the setups' camera types. *)
Lemma main_camera_blueprints FLAGS c :
  camera_blueprint (camera_setup (main_setups FLAGS) c) =
    (camera_type (camera_setup (main_setups FLAGS) c),
     <["sensor_tick" := AttrFloat (1 / 20)]>
       (<["fov" := AttrFloat (camera_fov FLAGS)]>
         (<["image_size_y" := AttrInt (camera_image_height FLAGS)]>
           (<["image_size_x" := AttrInt (camera_image_width FLAGS)]> ∅)))).
Proof. by destruct c. Qed.

(** With the default [--test_operator], [main] tests the detection
    operator on the center RGB stream and [ttd], neither of which ever
    carries a watermark. *)
Lemma default_operator_starved FLAGS vis evs :
  connected_operators default_test_operator = [("detection_op", [rgb_camera; ttd])] /\
 watermarks_on rgb_camera (runner_run (main_setups FLAGS) vis [] evs) = [] /\
 watermarks_on ttd (runner_run (main_setups FLAGS) vis [] evs) = [].
Proof. split_and!; [reflexivity|apply no_watermark_off_stereo; discriminate..]. Qed.

(** ** Witnesses *)

Lemma stereo_streams_shape_witness :
  let cfg := mkRunnerSetups (RGBCameraSetup "center_camera" 800 600 90) (DepthCameraSetup "depth" 800 600 90)
               (SegmentedCameraSetup "seg" 800 600 90) (DepthCameraSetup "left" 800 600 90) (RGBCameraSetup "right" 800 600 90) in
  let evs := [(LeftCam, mkSimImage (1#10) [Byte.x01]); (RgbCam, mkSimImage (1#10) []);
              (RightCam, mkSimImage (2#10) [])] in
  camera_type (rgb_camera_setup cfg) = "sensor.camera.rgb" /\
  stream_messages left_camera (runner_run cfg false [] evs) =
    [Msg (timestamp_of 100) (CameraFrame (mkSimImage (1#10) [Byte.x01]) (DepthCameraSetup "left" 800 600 90));
     WatermarkMessage (timestamp_of 100)].
Proof.
  intros cfg evs. split; [reflexivity|].
  destruct (stereo_streams_shape cfg false evs) as [Hl _]; [reflexivity|].
  rewrite Hl. vm_compute. reflexivity.
Defined.

Lemma connected_operator_watermarks_witness :
  let FLAGS := mkRunnerFlags default_test_operator 800 600 90 in
  let evs := [(LeftCam, mkSimImage (1#20) []); (RightCam, mkSimImage (1#20) []);
              (RgbCam, mkSimImage (1#10) [])] in
  ("depth_estimation_op", [left_camera; right_camera]) ∈ connected_operators "depth_estimation" /\
  watermarks_on right_camera (runner_run (main_setups FLAGS) false [] evs) = [timestamp_of 50] /\
  ("detection_op", [rgb_camera; ttd]) ∈ connected_operators "detection_operator" /\
  watermarks_on ttd (runner_run (main_setups FLAGS) false [] evs) = [].
Proof.
  intros FLAGS evs.
  assert (H1 : ("depth_estimation_op", [left_camera; right_camera]) ∈
                 connected_operators "depth_estimation") by (vm_compute; left).
  assert (H2 : ("detection_op", [rgb_camera; ttd]) ∈ connected_operators "detection_operator")
    by (vm_compute; left).
  split_and!; [exact H1| |exact H2|].
  - destruct (connected_operator_watermarks FLAGS _ _ _ right_camera false evs H1) as [_ H];
      [by right; left|].
    destruct (H eq_refl) as (c & Hc & ->). destruct c; try discriminate. vm_compute. reflexivity.
  - destruct (connected_operator_watermarks FLAGS _ _ _ ttd false evs H2) as [H _];
      [by right; left|].
    apply H. discriminate.
Defined.

Lemma runner_messages_well_typed_witness :
  let FLAGS := mkRunnerFlags default_test_operator 800 600 90 in
  let evs := [(RgbCam, mkSimImage (1#10) []); (LeftCam, mkSimImage (1#10) [])] in
  setups_typed (main_setups FLAGS) /\
  Forall (fun e => msg_well_typed e.1 e.2) (runner_run (main_setups FLAGS) true [] evs).
Proof.
  intros FLAGS evs. assert (Hcfg : setups_typed (main_setups FLAGS)) by (repeat split).
  split; [exact Hcfg|]. apply runner_messages_well_typed; [exact Hcfg|constructor].
Defined.

End Runner.
