(* ===== verification/RunnerSync.v ===== *)
(** * The test driver's streams through the synchronizer

    The composition of [CameraRunner] with [Sync]: the watermarks the
    camera callbacks of [main] send on the inputs of the connected
    operator are the readiness reports of the synchronizer in front of
    it.  With the depth estimator under test, the stereo callbacks report
    the game time of every image on their stream, so the estimator's
    [on_watermark] fires exactly for the times both cameras delivered an
    image for, once each, and the synchronizer rejects a run in which one
    camera delivers two images in the same millisecond; when both cameras
    deliver in capture order, the estimator's watermarks fire in
    increasing game time. *)

From S2P Require Import Prelude Erdos CameraRunner Sync.

Module RunnerSync.
Import Runner.

(** The report each delivery makes to a synchronizer over the stereo
    streams, with the setups of [main]. *)
Definition stereo_report (e : Camera * SimImage) : list (IngestStream * Timestamp) :=
  match e.1 with
  | LeftCam => [(left_camera, image_timestamp_of e.2)]
  | RightCam => [(right_camera, image_timestamp_of e.2)]
  | _ => []
  end.

(** The game times of the images a camera delivered. *)
Definition image_times (c : Camera) (evs : list (Camera * SimImage)) : list Timestamp :=
  image_timestamp_of <$> images_from c evs.

(** The game time of a key, [context.timestamp.coordinates[0]]. *)
Definition game_time (t : Timestamp) : Z :=
  match coordinates t with [g] => g | _ => 0%Z end.

(** ** The reports of a run *)

Lemma ready_events_app {S D} `{EqDecision S} (ins : list S) (l1 l2 : list (S * Message D)) :
  Sync.ready_events ins (l1 ++ l2) = Sync.ready_events ins l1 ++ Sync.ready_events ins l2.
Proof. unfold Sync.ready_events. apply omap_app. Qed.

Lemma ready_events_stereo FLAGS vis evs :
  Sync.ready_events [left_camera; right_camera] (runner_run (main_setups FLAGS) vis [] evs) =
  flat_map stereo_report evs.
Proof.
  rewrite runner_run_flat, app_nil_l.
  induction evs as [|[c img] evs IH]; [done|]. simpl.
  rewrite ready_events_app, IH. by destruct c.
Qed.

Lemma image_times_cons c c' img evs :
  image_times c ((c', img) :: evs) =
  (if decide (c' = c) then [image_timestamp_of img] else []) ++ image_times c evs.
Proof. unfold image_times, images_from. rewrite filter_cons. simpl. by case_decide. Qed.

Lemma stereo_report_elem s t evs :
  (s, t) ∈ flat_map stereo_report evs <->
  (s = left_camera /\ t ∈ image_times LeftCam evs) \/
  (s = right_camera /\ t ∈ image_times RightCam evs).
Proof.
  induction evs as [|[c img] evs IH]; simpl.
  - unfold image_times. simpl. set_solver.
  - rewrite elem_of_app, IH, !image_times_cons.
    destruct c; unfold stereo_report; simpl; repeat case_decide; try congruence; set_solver.
Qed.

Lemma stereo_report_NoDup evs :
  NoDup (flat_map stereo_report evs) <->
  NoDup (image_times LeftCam evs) /\ NoDup (image_times RightCam evs).
Proof.
  induction evs as [|[c img] evs IH]; simpl.
  - unfold image_times. simpl. split; [intros _; split; constructor|constructor].
  - rewrite !image_times_cons.
    destruct c; unfold stereo_report; simpl; repeat case_decide; try congruence;
      rewrite ?app_nil_l, ?IH; try done;
      rewrite !NoDup_cons, stereo_report_elem, IH; naive_solver.
Qed.

Lemma stereo_report_inputs evs :
  Forall (fun e => e.1 ∈ [left_camera; right_camera] /\ is_top e.2 = false)
    (flat_map stereo_report evs).
Proof.
  apply Forall_forall. intros [s t] [[-> Ht]|[-> Ht]]%stereo_report_elem;
    unfold image_times, image_timestamp_of in Ht; apply list_elem_of_fmap in Ht as (img & -> & _);
    (split; [set_solver|reflexivity]).
Qed.

Lemma reports_by_stereo s evs :
  Sync.reports_by s (flat_map stereo_report evs) =
  (if decide (s = left_camera) then image_times LeftCam evs else []) ++
  (if decide (s = right_camera) then image_times RightCam evs else []).
Proof.
  induction evs as [|[c img] evs IH]; simpl.
  - unfold image_times. by repeat case_decide.
  - unfold Sync.reports_by in *. rewrite omap_app, IH, !image_times_cons.
    destruct c; unfold stereo_report; simpl; repeat case_decide; subst; try discriminate; done.
Qed.

(** ** The depth estimator's watermarks *)

(** C12. The depth estimator's [on_watermark] under the synchronizer: with
    the setups of [main], the watermarks the callbacks send on the inputs
    [main] wires to the depth estimator make a synchronizer run that, when
    neither stereo camera delivers two images in the same millisecond,
    succeeds and fires exactly the game times delivered by both cameras,
    each once; and that otherwise fails with [DuplicateReadyError]. *)
Theorem depth_estimator_sync FLAGS op ins vis evs :
  (op, ins) ∈ connected_operators "depth_estimation" ->
  (NoDup (image_times LeftCam evs) /\ NoDup (image_times RightCam evs) ->
   exists st, Sync.sync_run ins Sync.sync_init
                (Sync.ready_events ins (runner_run (main_setups FLAGS) vis [] evs)) = inr st /\
     NoDup (Sync.fired st) /\
     forall t, t ∈ Sync.fired st <-> t ∈ image_times LeftCam evs /\ t ∈ image_times RightCam evs) /\
  (~ (NoDup (image_times LeftCam evs) /\ NoDup (image_times RightCam evs)) ->
   Sync.sync_run ins Sync.sync_init (Sync.ready_events ins (runner_run (main_setups FLAGS) vis [] evs)) =
     inl Sync.DuplicateReadyError).
Proof.
  intros Hop. apply list_elem_of_In in Hop. simpl in Hop.
  destruct Hop as [[= <- <-]|[]]. rewrite ready_events_stereo, <- stereo_report_NoDup.
  destruct (Sync.sync_run_spec [left_camera; right_camera] (flat_map stereo_report evs))
    as [Hok Hdup]; [done| |].
  { apply stereo_report_inputs. }
  split; [|exact Hdup]. intros Hnd.
  destruct (Hok Hnd) as (st & Hrun & Hfnd & Hk). exists st. split_and!; [done|done|].
  intros t. rewrite (proj1 (Hk t)), !Forall_cons, Forall_nil, !stereo_report_elem.
  naive_solver.
Qed.

(** C13. The depth estimator's watermarks come in order: with the setups
    of [main], when each stereo camera delivers its images in strictly
    increasing game time (capture order), the synchronizer in front of
    the depth estimator accepts the run and fires its keys each once and
    in non-decreasing game time: the ordering guarantee of spec §4.3
    holds for the watermarks [main]'s stereo callbacks send. *)
Theorem depth_estimator_in_order FLAGS op ins vis evs :
  (op, ins) ∈ connected_operators "depth_estimation" ->
  StronglySorted (fun a b => game_time a < game_time b)%Z (image_times LeftCam evs) ->
  StronglySorted (fun a b => game_time a < game_time b)%Z (image_times RightCam evs) ->
  exists st, Sync.sync_run ins Sync.sync_init
               (Sync.ready_events ins (runner_run (main_setups FLAGS) vis [] evs)) = inr st /\
    StronglySorted (fun a b => game_time a <= game_time b)%Z (Sync.fired st) /\
    NoDup (Sync.fired st).
Proof.
  intros Hop HL HR. apply list_elem_of_In in Hop. simpl in Hop.
  destruct Hop as [[= <- <-]|[]]. rewrite ready_events_stereo.
  destruct (Sync.sync_run_in_order [left_camera; right_camera]
              (fun a b => game_time a < game_time b)%Z ltac:(cbn beta; intros; lia)
              (flat_map stereo_report evs)) as (st & Hrun & [Hnd _] & Hsort).
  - done.
  - apply stereo_report_inputs.
  - apply stereo_report_NoDup. split; eapply StronglySorted_lt_NoDup; eassumption.
  - intros s. rewrite reports_by_stereo.
    repeat case_decide; subst; try discriminate; simpl; rewrite ?app_nil_r; by try constructor.
  - exists st. split_and!; [done| |done].
    eapply StronglySorted_impl; [|exact Hsort]. simpl. intros; lia.
Qed.

(** ** Witnesses *)

Lemma depth_estimator_sync_witness :
  let FLAGS := mkRunnerFlags default_test_operator 800 600 90 in
  let evs := [(LeftCam, mkSimImage (1#20) []); (RightCam, mkSimImage (1#20) []);
              (LeftCam, mkSimImage (1#10) [])] in
  ("depth_estimation_op", [left_camera; right_camera]) ∈ connected_operators "depth_estimation" /\
  exists st, Sync.sync_run [left_camera; right_camera] Sync.sync_init
               (Sync.ready_events [left_camera; right_camera] (runner_run (main_setups FLAGS) false [] evs))
             = inr st /\ timestamp_of 50 ∈ Sync.fired st.
Proof.
  intros FLAGS evs.
  assert (Hop : ("depth_estimation_op", [left_camera; right_camera]) ∈
                  connected_operators "depth_estimation") by (vm_compute; left).
  split; [exact Hop|].
  destruct (depth_estimator_sync FLAGS _ _ false evs Hop) as [Hok _].
  assert (Hnd : NoDup (image_times LeftCam evs) /\ NoDup (image_times RightCam evs))
    by (split; apply (bool_decide_unpack _); vm_compute; exact I).
  destruct (Hok Hnd) as (st & Hrun & _ & Hk).
  exists st. split; [exact Hrun|]. apply Hk.
  split; apply (bool_decide_unpack _); vm_compute; exact I.
Defined.

Lemma depth_estimator_in_order_witness :
  let FLAGS := mkRunnerFlags default_test_operator 800 600 90 in
  let evs := [(LeftCam, mkSimImage (1#20) []); (RightCam, mkSimImage (1#20) []);
              (RightCam, mkSimImage (1#10) []); (LeftCam, mkSimImage (1#10) [])] in
  exists st, Sync.sync_run [left_camera; right_camera] Sync.sync_init
               (Sync.ready_events [left_camera; right_camera] (runner_run (main_setups FLAGS) false [] evs))
             = inr st /\
    StronglySorted (fun a b => game_time a <= game_time b)%Z (Sync.fired st) /\
    NoDup (Sync.fired st).
Proof.
  intros FLAGS evs.
  assert (Hop : ("depth_estimation_op", [left_camera; right_camera]) ∈
                  connected_operators "depth_estimation") by (vm_compute; left).
  apply (depth_estimator_in_order FLAGS _ _ false evs Hop);
    vm_compute; repeat constructor.
Defined.

End RunnerSync.
