(* ===== verification/RunnerMain.v ===== *)
(** * The actor lifecycle of the detection test driver's [main]

    [main] of [src/detection_operator_runner.py] as a sequence of
    statements inside [try: ... finally: ...].  The body connects to the
    simulator, spawns the ego vehicle (the only actor put in
    [actor_list]), the five cameras and twenty background vehicles;
    any of its external calls may raise, and then the statement has no
    effect.  The [finally] clause destroys the three center cameras by
    their local names and the actors of [actor_list]; a local that the
    body never bound raises [UnboundLocalError] there, which replaces the
    body's exception.  The theorems show which actors every run leaves
    behind and which exception [main] ends with for each failure point. *)

From S2P Require Import Prelude Erdos CameraRunner.

(** The simulator actors [main] creates. *)
Inductive Actor : Type :=
| VehicleActor
| CameraActor (c : Camera)
| NpcVehicle (i : nat).

#[export] Instance Actor_eq_dec : EqDecision Actor.
Proof. solve_decision. Defined.

Module Main.

(** The statements of the [try] body, each a group of source lines that
    fails as a whole before its effect. *)
Inductive MainStmt : Type :=
| ConnectClient            (* lines 61-63: Client, set_timeout, get_world *)
| SpawnVehicle             (* lines 65-74: blueprint, spawn point, spawn_actor, append *)
| Autopilot                (* line 77 *)
| BuildSetups              (* lines 79-104 *)
| SetupCamera (c : Camera) (* lines 106-111 *)
| ConnectOperators         (* lines 113-195: ingest streams, wiring, run_async *)
| ListenCameras            (* lines 282-286 *)
| SpawnNpcVehicles         (* lines 289-290 *)
| Sleep.                   (* line 292 *)

(** The statements in source order. *)
Definition main_body : list MainStmt :=
  [ConnectClient; SpawnVehicle; Autopilot; BuildSetups;
   SetupCamera RgbCam; SetupCamera DepthCam; SetupCamera SegCam;
   SetupCamera LeftCam; SetupCamera RightCam;
   ConnectOperators; ListenCameras; SpawnNpcVehicles; Sleep].

(** The locals bound so far, the actors spawned, [actor_list], and the
    actors destroyed, in order. *)
Record MainState : Type := mkMainState {
  bound : list string;
  spawned : list Actor;
  actor_list : list Actor;
  destroyed : list Actor
}.

Definition main_init : MainState := mkMainState [] [] [] [].

(** The local each camera is bound to. *)
Definition camera_var (c : Camera) : string :=
  match c with
  | RgbCam => "rgb_camera" | DepthCam => "depth_camera" | SegCam => "seg_camera"
  | LeftCam => "left_camera" | RightCam => "right_camera"
  end.

Definition bind_local (x : string) (s : MainState) : MainState :=
  mkMainState (bound s ++ [x]) (spawned s) (actor_list s) (destroyed s).

Definition spawn (a : Actor) (s : MainState) : MainState :=
  mkMainState (bound s) (spawned s ++ [a]) (actor_list s) (destroyed s).

(** [setup_camera(world, setup, vehicle)] (lines 52-54): the camera is
    spawned attached to the vehicle; its blueprint (lines 46-50,
    [camera_blueprint] of [CameraRunner]) does not change the actors. *)
Definition setup_camera (c : Camera) (s : MainState) : MainState :=
  bind_local (camera_var c) (spawn (CameraActor c) s).

(** [spawn_vehicles(client, world, 8000, 20, ...)]: twenty vehicles, whose
    handles [main] does not keep. *)
Definition spawn_npc_vehicles (s : MainState) : MainState :=
  foldl (fun s i => spawn (NpcVehicle i) s) s (seq 0 20).

(** The effect of a statement that completes. *)
Definition exec_stmt (st : MainStmt) (s : MainState) : MainState :=
  match st with
  | ConnectClient => bind_local "world" (bind_local "client" s)
  | SpawnVehicle =>
      let s' := bind_local "vehicle" (spawn VehicleActor s) in
      mkMainState (bound s') (spawned s') (actor_list s' ++ [VehicleActor]) (destroyed s')
  | SetupCamera c => setup_camera c s
  | SpawnNpcVehicles => spawn_npc_vehicles s
  | Autopilot | BuildSetups | ConnectOperators | ListenCameras | Sleep => s
  end.

(** The body, where statement [k] of [main_body] raises [e] when
    [fail = Some (k, e)]; the state and the exception it ends with. *)
Fixpoint run_body (fail : option (nat * PyError)) (k : nat) (stmts : list MainStmt)
    (s : MainState) : MainState * option PyError :=
  match stmts with
  | [] => (s, None)
  | st :: rest =>
      match fail with
      | Some (k', e) => if decide (k' = k) then (s, Some e) else run_body fail (S k) rest (exec_stmt st s)
      | None => run_body fail (S k) rest (exec_stmt st s)
      end
  end.

(** The statements of the [finally] clause (lines 294-300). *)
Inductive FinallyStmt : Type :=
| DestroyLocal (x : string) (a : Actor)  (* [x.destroy()] *)
| DestroyActorList.                      (* [client.apply_batch([DestroyActor(x) for x in actor_list])] *)

Definition main_finally : list FinallyStmt :=
  [DestroyLocal "rgb_camera" (CameraActor RgbCam);
   DestroyLocal "depth_camera" (CameraActor DepthCam);
   DestroyLocal "seg_camera" (CameraActor SegCam);
   DestroyActorList].

Definition destroy_all (l : list Actor) (s : MainState) : MainState :=
  mkMainState (bound s) (spawned s) (actor_list s) (destroyed s ++ l).

(** Reading a local the body never bound raises [UnboundLocalError]. *)
Definition exec_finally (st : FinallyStmt) (s : MainState) : res MainState :=
  match st with
  | DestroyLocal x a =>
      if decide (x ∈ bound s) then Ok (destroy_all [a] s) else raise UnboundLocalError
  | DestroyActorList =>
      if decide ("client" ∈ bound s) then Ok (destroy_all (actor_list s) s)
      else raise UnboundLocalError
  end.

Fixpoint run_finally (stmts : list FinallyStmt) (s : MainState) : MainState * option PyError :=
  match stmts with
  | [] => (s, None)
  | st :: rest =>
      match exec_finally st s with
      | Ok s' => run_finally rest s'
      | Err e => (s, Some e)
      end
  end.

(** [main(args)]: the final state and the exception it propagates; an
    exception of the [finally] clause replaces the body's. *)
Definition main (fail : option (nat * PyError)) : MainState * option PyError :=
  let '(s, body_exc) := run_body fail 0 main_body main_init in
  let '(s', fin_exc) := run_finally main_finally s in
  (s', match fin_exc with Some e => Some e | None => body_exc end).

(** The actors still alive when [main] returns or raises. *)
Definition leaked (s : MainState) : list Actor :=
  filter (fun a => a ∉ destroyed s) (spawned s).

(** ** The body and the clean-up *)

Lemma exec_stmt_destroyed st s : destroyed (exec_stmt st s) = destroyed s.
Proof. by destruct st. Qed.

Lemma exec_stmt_actor_list st s :
  Forall (fun a => a = VehicleActor) (actor_list s) ->
  Forall (fun a => a = VehicleActor) (actor_list (exec_stmt st s)).
Proof.
  intros H. destruct st; simpl; try exact H.
  apply Forall_app. split; [exact H|by constructor].
Qed.

(** The body destroys nothing and only ever puts the ego vehicle in
    [actor_list]. *)
Lemma run_body_inv fail k stmts s :
  Forall (fun a => a = VehicleActor) (actor_list s) ->
  destroyed (run_body fail k stmts s).1 = destroyed s /\
  Forall (fun a => a = VehicleActor) (actor_list (run_body fail k stmts s).1).
Proof.
  revert k s. induction stmts as [|st stmts IH]; intros k s Hl; simpl; [done|].
  destruct fail as [[k' e]|]; [case_decide; [done|]|];
    (destruct (IH (S k) (exec_stmt st s)) as [-> ?];
     [by apply exec_stmt_actor_list|by rewrite exec_stmt_destroyed]).
Qed.

Lemma exec_finally_ok st s s' :
  exec_finally st s = Ok s' ->
  actor_list s' = actor_list s /\
  exists l, destroyed s' = destroyed s ++ l /\
    forall a, a ∈ l -> (exists x, st = DestroyLocal x a) \/ a ∈ actor_list s.
Proof.
  destruct st as [x b|]; simpl; case_decide; intros; simplify_eq; (split; [done|]).
  - exists [b]. split; [done|]. intros a ->%list_elem_of_singleton. left. by exists x.
  - exists (actor_list s). split; [done|]. by right.
Qed.

(** The clean-up destroys, after what was destroyed before, only actors
    named by its [destroy] statements or in [actor_list]. *)
Lemma run_finally_destroyed stmts s :
  exists pre, destroyed (run_finally stmts s).1 = destroyed s ++ pre /\
    forall a, a ∈ pre -> (exists x, DestroyLocal x a ∈ stmts) \/ a ∈ actor_list s.
Proof.
  revert s. induction stmts as [|st stmts IH]; intros s; simpl.
  - exists []. rewrite app_nil_r. split; [done|set_solver].
  - destruct (exec_finally st s) as [s'|e] eqn:He; simpl.
    + destruct (exec_finally_ok _ _ _ He) as (Hl & l & Hd & Hin).
      destruct (IH s') as (pre & Hpre & Hpin). exists (l ++ pre).
      rewrite Hpre, Hd, app_assoc. split; [done|]. rewrite Hl in Hpin.
      intros a [Ha|Ha]%elem_of_app.
      * destruct (Hin a Ha) as [[x ->]|Hv]; [left; exists x; left|by right].
      * destruct (Hpin a Ha) as [[x Hx]|Hv]; [left; exists x; by right|by right].
    + exists []. rewrite app_nil_r. split; [done|set_solver].
Qed.

(** ** Properties of [main] *)

(** C15. What [main] leaves behind: whatever statement of the body fails,
    the only actors [main] ever destroys are the three center cameras and
    the ego vehicle, so the stereo cameras and the twenty background
    vehicles are never destroyed; and a run without failure ends without
    exception leaving exactly those twenty-two actors alive. *)
Theorem main_leaks fail :
  (forall a, a ∈ destroyed (main fail).1 ->
     a ∈ [CameraActor RgbCam; CameraActor DepthCam; CameraActor SegCam; VehicleActor]) /\
  (main None).2 = None /\
  leaked (main None).1 = [CameraActor LeftCam; CameraActor RightCam] ++ (NpcVehicle <$> seq 0 20).
Proof.
  split; [|split; vm_compute; reflexivity].
  intros a. unfold main.
  destruct (run_body_inv fail 0 main_body main_init) as [Hd Hl]; [constructor|].
  destruct (run_body fail 0 main_body main_init) as [s body_exc]. simpl in Hd, Hl.
  destruct (run_finally_destroyed main_finally s) as (pre & Hpre & Hin).
  destruct (run_finally main_finally s) as [s' fin_exc]. simpl in *.
  rewrite Hpre, Hd. intros [[x Hx]|Hv]%Hin.
  - apply list_elem_of_In in Hx. apply list_elem_of_In. simpl in *. intuition congruence.
  - rewrite Forall_forall in Hl. rewrite (Hl a Hv). set_solver.
Qed.

(** C14. The exception [main] ends with: when statement [k] of the body
    raises [e], the [finally] clause reads [rgb_camera], [depth_camera]
    and [seg_camera]; if the failure came before the segmentation camera
    was bound ([k <= 6]) one of them is unbound and [main] raises
    [UnboundLocalError] instead of [e]; and the ego vehicle is left alive
    exactly when the failure came after its spawn and no later than the
    segmentation camera ([2 <= k <= 6]). *)
Theorem main_exception k e :
  (k < length main_body)%nat ->
  (main (Some (k, e))).2 = Some (if decide (k <= 6)%nat then UnboundLocalError else e) /\
  (VehicleActor ∈ leaked (main (Some (k, e))).1 <-> (2 <= k <= 6)%nat).
Proof.
  simpl. intros Hk.
  do 13 (destruct k as [|k];
    [split; [vm_compute; reflexivity|]; rewrite list_elem_of_In; vm_compute;
     split; [intros H; repeat destruct H as [H|H]; try discriminate; lia
            |intros; first [lia | intuition]]|]).
  lia.
Qed.

(** ** Witnesses *)

Lemma main_exception_witness :
  (main (Some (3%nat, RuntimeError))).2 = Some UnboundLocalError /\
  VehicleActor ∈ leaked (main (Some (3%nat, RuntimeError))).1.
Proof.
  destruct (main_exception 3 RuntimeError) as [Hexc Hleak]; [simpl; lia|].
  split; [exact Hexc|]. apply Hleak. lia.
Defined.

End Main.
